(** * Gantt scheduling board: calendar arithmetic, row projection,
      drag/click reconciliation, snapshot encoding and decoding, the
      board's handlers, the task form and role colours.

    A shallow embedding of the TypeScript sources

    - [DateUtils]     (getDaysArray, getWeekNumber, diffInDays, isWeekend,
                       isHoliday, calculateWorkingDays, addDaysToDate,
                       calculateEndDate, TAIWAN_HOLIDAYS),
    - [Types]         (Task, TaskAssignment, TAILWIND_COLORS,
                       getColorForRole),
    - [GanttChart]    (the date range and the week header, rows, getOffset,
                       getWidth, handleMouseMove, handleMouseUp,
                       handleDragStart, handleDrop, handleBarMouseDown),
    - [TaskModal]     (processAssignmentRole, handleAddAssignment,
                       handleRemoveAssignment, updateAssignment for the
                       role, handleSubmit),
    - [ProjectBoard]  (minifyTasks, unminifyTasks, encodeData, decodeData
                       and the built-ins they call, filteredTasks,
                       avgProgress, handleTaskReorder, handleSaveTask),

    on top of [JS], a model of JavaScript strings and of the Numbers that
    hold integers, and followed by the properties the specification states
    about them,

    - C1, C3, C4: the drag/click state machine,
    - C2, C5, C6: the calendar arithmetic,
    - C7, C8:     the row projection and the reorder drop,
    - C9:         the snapshot decoding,
    - C10:        the role colours,

    and by further properties of the code:

    - X1 to X3:   the calendar arithmetic and the week numbers,
    - X4 to X6:   the visible date range and the week header,
    - X7 to X10:  the drag/click state machine,
    - X11, X12:   the row projection,
    - X13 to X16: the snapshot encoding,
    - X17 to X19: the board's handlers,
    - X20 to X24: the task form. *)

From Stdlib Require Import ZArith Lia List Bool String Ascii.
From stdpp Require Import numbers option list gmap.
Import ListNotations.

Local Open Scope Z_scope.

(* ===================================================================== *)
(** * Calendar dates *)
(* ===================================================================== *)

(** A calendar-date string [YYYY-MM-DD] (the format the data model fixes for
    [startDate] and [endDate]) is represented by the number of days between
    1970-01-01 and that date: it is what [new Date(s)] holds, divided by
    86400000, and [d.toISOString().split('T')[0]] is the way back.  The host
    time zone is one in which the local calendar day of a UTC midnight is the
    UTC day and which has no daylight saving (UTC itself, or Asia/Taipei, for
    which the holiday table is written); there [getDay()] and
    [setDate(getDate() + n)] are the weekday of the day number and the
    addition of [n] to it. *)
Module DateUtils.

Definition date := Z.

(** Day number of the civil date [y]-[m]-[d] (proleptic Gregorian). *)
Definition ymd (y m d : Z) : date :=
  let y' := if m <=? 2 then y - 1 else y in
  let era := y' / 400 in
  let yoe := y' - era * 400 in
  let mp := (m + 9) mod 12 in
  let doy := (153 * mp + 2) / 5 + d - 1 in
  let doe := yoe * 365 + yoe / 4 - yoe / 100 + doy in
  era * 146097 + doe - 719468.

(** The civil date of a day number: the three fields of
    [toISOString().split('T')[0]]. *)
Definition toISODate (z : date) : Z * Z * Z :=
  let z' := z + 719468 in
  let era := z' / 146097 in
  let doe := z' - era * 146097 in
  let yoe := (doe - doe / 1460 + doe / 36524 - doe / 146096) / 365 in
  let doy := doe - (365 * yoe + yoe / 4 - yoe / 100) in
  let mp := (5 * doy + 2) / 153 in
  let d := doy - (153 * mp + 2) / 5 + 1 in
  let m := if mp <? 10 then mp + 3 else mp - 9 in
  (yoe + era * 400 + (if m <=? 2 then 1 else 0), m, d).

Definition isLeapYear (y : Z) : bool :=
  ((y mod 4 =? 0) && negb (y mod 100 =? 0)) || (y mod 400 =? 0).

Definition daysInMonth (y m : Z) : Z :=
  if m =? 2 then (if isLeapYear y then 29 else 28)
  else if (m =? 4) || (m =? 6) || (m =? 9) || (m =? 11) then 30
  else 31.

(** The day number [z] reads as a date of the calendar and that date
    parses back to [z]. *)
Definition readsBack (z : date) : bool :=
  let '(y, m, d) := toISODate z in
  (ymd y m d =? z) && (1 <=? m) && (m <=? 12)
  && (1 <=? d) && (d <=? daysInMonth y m).

(** All of the [n] day numbers from [z] on read back. *)
Fixpoint readBackFrom (n : nat) (z : date) : bool :=
  match n with
  | O => true
  | S n' => readsBack z && readBackFrom n' (z + 1)
  end.

(** [Date.prototype.getDay]: 0 is Sunday, 6 is Saturday; 1970-01-01 was a
    Thursday. *)
Definition getDay (d : date) : Z := (d + 4) mod 7.

(** The national holidays of 2025 and 2026, as the source lists them. *)
Definition TAIWAN_HOLIDAYS : list date :=
  [ ymd 2025 1 1;
    ymd 2025 1 27; ymd 2025 1 28; ymd 2025 1 29; ymd 2025 1 30; ymd 2025 1 31;
    ymd 2025 2 28;
    ymd 2025 4 3; ymd 2025 4 4;
    ymd 2025 5 30;
    ymd 2025 10 6;
    ymd 2025 10 10;
    ymd 2026 1 1;
    ymd 2026 2 16; ymd 2026 2 17; ymd 2026 2 18; ymd 2026 2 19; ymd 2026 2 20;
    ymd 2026 2 27;
    ymd 2026 4 3; ymd 2026 4 6;
    ymd 2026 6 19;
    ymd 2026 9 25;
    ymd 2026 10 9 ].

Definition isWeekend (dateStr : date) : bool :=
  let day := getDay dateStr in
  (day =? 0) || (day =? 6).

Definition isHoliday (dateStr : date) : bool :=
  existsb (Z.eqb dateStr) TAIWAN_HOLIDAYS.

(** The body of the [while (curDate <= endDate)] loop of
    [calculateWorkingDays]; [fuel] bounds the number of iterations. *)
Fixpoint calculateWorkingDays_loop (fuel : nat) (curDate endDate : date)
    (count : Z) : Z :=
  match fuel with
  | O => count
  | S fuel' =>
      if curDate <=? endDate then
        let dateStr := curDate in
        let dayOfWeek := getDay curDate in
        let isOffDay :=
          (dayOfWeek =? 0) || (dayOfWeek =? 6) || isHoliday dateStr in
        let count' := if negb isOffDay then count + 1 else count in
        calculateWorkingDays_loop fuel' (curDate + 1) endDate count'
      else count
  end.

(** The loop runs once per date of [start..end_], so that many iterations
    are all it needs (see [calculateWorkingDays_loop_enough]). *)
Definition calculateWorkingDays (start end_ : date) : Z :=
  calculateWorkingDays_loop (Z.to_nat (end_ - start + 1)) start end_ 0.

Definition addDaysToDate (dateStr : date) (days : Z) : date :=
  dateStr + days.

(** The [for (let i = 0; i < 365; i++)] loop of [calculateEndDate], with
    [iters] iterations left. *)
Fixpoint calculateEndDate_loop (iters : nat) (currentDate : date)
    (workedDays requiredWorkingDays : Z) (lastValidDate : date) : date :=
  match iters with
  | O => lastValidDate
  | S iters' =>
      let dateStr := currentDate in
      let isOff := isWeekend dateStr || isHoliday dateStr in
      let workedDays' := if negb isOff then workedDays + 1 else workedDays in
      let lastValidDate' := dateStr in
      if workedDays' >=? requiredWorkingDays then lastValidDate'
      else calculateEndDate_loop iters' (currentDate + 1) workedDays'
             requiredWorkingDays lastValidDate'
  end.

Definition calculateEndDate (startDateStr : date) (requiredWorkingDays : Z)
    : date :=
  if requiredWorkingDays <=? 0 then startDateStr
  else calculateEndDate_loop 365 startDateStr 0 requiredWorkingDays
         startDateStr.

(** A working day is neither a weekend day nor a holiday. *)
Definition isWorkingDay (d : date) : bool :=
  negb (isWeekend d || isHoliday d).

(** Number of working days among the [n] dates [a], [a+1], ..., [a+n-1]. *)
Fixpoint countWorking (n : nat) (a : date) : Z :=
  match n with
  | O => 0
  | S n' => (if isWorkingDay a then 1 else 0) + countWorking n' (a + 1)
  end.

(** The dates an endpoint passes when it is moved from [d] by [delta] days,
    both [d] and [d + delta] included. *)
Definition passedDates (d : date) (delta : Z) : list date :=
  map (fun j => Z.min d (d + delta) + Z.of_nat j)
    (seq 0 (S (Z.to_nat (Z.abs delta)))).

(** An endpoint moved from [d] by [delta] days crosses no weekend or holiday
    boundary when every date it passes is a working day. *)
Definition crossesNoBoundary (d : date) (delta : Z) : bool :=
  forallb isWorkingDay (passedDates d delta).

(** [getDaysArray]: the loop
    [for (dt = new Date(start); dt <= end; dt.setDate(dt.getDate() + 1))]
    pushes a copy of [dt]; [fuel] bounds the number of iterations. *)
Fixpoint getDaysArray_loop (fuel : nat) (dt end_ : date) : list date :=
  match fuel with
  | O => []
  | S fuel' =>
      if dt <=? end_ then dt :: getDaysArray_loop fuel' (dt + 1) end_
      else []
  end.

(** One iteration per date of [start..end_] is all the loop needs (see
    [getDaysArray_loop_enough]). *)
Definition getDaysArray (start end_ : date) : list date :=
  getDaysArray_loop (Z.to_nat (end_ - start + 1)) start end_.

(** [d.getFullYear()] *)
Definition getFullYear (d : date) : Z := fst (fst (toISODate d)).

(** [getWeekNumber]: the ISO 8601 week number.  The date is moved to the
    Thursday of its week ([+ 4 - (getUTCDay() || 7)]); the week number is
    the number of that Thursday's day within its year, divided by seven and
    rounded up. *)
Definition getWeekNumber (d : date) : Z :=
  let day := getDay d in
  let thursday := d + 4 - (if day =? 0 then 7 else day) in
  let yearStart := ymd (getFullYear thursday) 1 1 in
  (* Math.ceil(n / 7) for an integer n *)
  ((thursday - yearStart) + 1 + 6) / 7.

(** [diffInDays]: [Math.ceil(Math.abs(t2 - t1) / 86400000) + 1]. *)
Definition diffInDays (d1 d2 : date) : Z := Z.abs (d2 - d1) + 1.

(** Number of dates among [a], [a+1], ..., [a+n-1] that satisfy [P]. *)
Fixpoint countDays (P : date -> bool) (n : nat) (a : date) : Z :=
  match n with
  | O => 0
  | S n' => (if P a then 1 else 0) + countDays P n' (a + 1)
  end.

(** All of the [n] dates from [z] on satisfy [P]. *)
Fixpoint allDaysFrom (P : date -> bool) (n : nat) (z : date) : bool :=
  match n with
  | O => true
  | S n' => P z && allDaysFrom P n' (z + 1)
  end.

End DateUtils.

(* ===================================================================== *)
(** * JavaScript strings *)
(* ===================================================================== *)

(** A JavaScript string is a sequence of UTF-16 code units, which is what
    [length], [charCodeAt], [===] and [includes] see. *)
Module JS.

Definition jsstring := list Z.

(** Code points of a UTF-8 literal of this file. *)
Fixpoint codePoints (s : string) (pending : Z) (need : nat) : list Z :=
  match s with
  | EmptyString => []
  | String c s' =>
      let b := Z.of_N (N_of_ascii c) in
      match need with
      | O =>
          if b <? 128 then b :: codePoints s' 0 0
          else if b <? 224 then codePoints s' (b - 192) 1
          else if b <? 240 then codePoints s' (b - 224) 2
          else codePoints s' (b - 240) 3
      | S O => (pending * 64 + (b - 128)) :: codePoints s' 0 0
      | S need' => codePoints s' (pending * 64 + (b - 128)) need'
      end
  end.

Definition utf16 (cp : Z) : list Z :=
  if cp <? 65536 then [cp]
  else [55296 + (cp - 65536) / 1024; 56320 + (cp - 65536) mod 1024].

(** The JavaScript string written as the literal [s]. *)
Definition js (s : string) : jsstring := flat_map utf16 (codePoints s 0 0).

Definition eqb (a b : jsstring) : bool :=
  bool_decide (a = b).

Fixpoint startsWith (s p : jsstring) : bool :=
  match p, s with
  | [], _ => true
  | _ :: _, [] => false
  | c :: p', d :: s' => (c =? d) && startsWith s' p'
  end.

(** [s.includes(p)] *)
Fixpoint includes (s p : jsstring) : bool :=
  startsWith s p ||
  match s with
  | [] => false
  | _ :: s' => includes s' p
  end.

(** WhiteSpace and LineTerminator code units of ECMAScript, the ones
    [String.prototype.trim] strips. *)
Definition isWhiteSpace (c : Z) : bool :=
  (c =? 9) || (c =? 10) || (c =? 11) || (c =? 12) || (c =? 13) || (c =? 32)
  || (c =? 160) || (c =? 5760) || ((8192 <=? c) && (c <=? 8202))
  || (c =? 8232) || (c =? 8233) || (c =? 8239) || (c =? 8287)
  || (c =? 12288) || (c =? 65279).

Fixpoint trimStart (s : jsstring) : jsstring :=
  match s with
  | c :: s' => if isWhiteSpace c then trimStart s' else s
  | [] => []
  end.

Definition trim (s : jsstring) : jsstring :=
  rev (trimStart (rev (trimStart s))).

Definition isDigit (c : Z) : bool := (48 <=? c) && (c <=? 57).

(** Value of a string of decimal digits. *)
Definition parseDigits (s : jsstring) : Z :=
  fold_left (fun acc c => acc * 10 + (c - 48)) s 0.

(** ** Numbers that hold integers

    A Number is a double.  One that holds an integer is represented by that
    integer: every integer up to [2 ^ 53] in absolute value is a Number, and
    beyond them the Numbers are the integers of 53 significant bits.  An
    operation returns the Number nearest to its exact result and, of two
    that are as near, the one whose last bit is 0.  The operations below
    are those of finite Numbers: a result of [2 ^ 1024] or more is
    [Infinity] in the source, and a quotient is in the normal range, which
    it is for integers below [2 ^ 1022]. *)

(** The integer nearest to [n / d] for [d > 0]; of two that are as near,
    the even one. *)
Definition roundHalfEven (n d : Z) : Z :=
  let q := n / d in
  let r := n mod d in
  if (d <? 2 * r) || ((d =? 2 * r) && Z.odd q) then q + 1 else q.

(** The Number nearest to the integer [n]. *)
Definition toNumber (n : Z) : Z :=
  let e := Z.log2 (Z.abs n) - 52 in
  if e <=? 0 then n
  else Z.sgn n * (roundHalfEven (Z.abs n) (2 ^ e) * 2 ^ e).

(** [x + y] on Numbers that hold integers. *)
Definition plus (x y : Z) : Z := toNumber (x + y).

(** [parseInt(s)] for a string [s] of decimal digits.  [2 ^ 1024] stands for
    [Infinity], which the digits of a number past the largest Number give. *)
Definition parseInt (s : jsstring) : Z :=
  Z.min (toNumber (parseDigits s)) (2 ^ 1024).

(** [x / y] for Numbers [x] and [y > 0] that hold integers: the Number
    nearest to the quotient, as the pair [(m, e)] of [m * 2 ^ e] with a
    mantissa [m] of 53 bits.  [E] is the exponent of the quotient's leading
    bit: [2 ^ E <= |x| / y < 2 ^ (E + 1)]. *)
Definition divide (x y : Z) : Z * Z :=
  if x =? 0 then (0, 0)
  else
    let a := Z.abs x in
    let j := Z.log2 a - Z.log2 y in
    let reaches :=
      if 0 <=? j then y * 2 ^ j <=? a else y <=? a * 2 ^ (- j) in
    let E := if reaches then j else j - 1 in
    let e := E - 52 in
    let m :=
      if 0 <=? e then roundHalfEven a (y * 2 ^ e)
      else roundHalfEven (a * 2 ^ (- e)) y in
    (Z.sgn x * m, e).

(** [Math.round] of the Number [m * 2 ^ e]: the nearest integer, a half
    rounded up. *)
Definition Math_round (x : Z * Z) : Z :=
  let '(m, e) := x in
  if 0 <=? e then m * 2 ^ e else (2 * m + 2 ^ (- e)) / 2 ^ (1 - e).

(** Decimal digits of a natural number, most significant first; [fuel]
    bounds the number of digits. *)
Fixpoint digits (fuel : nat) (n : Z) (acc : jsstring) : jsstring :=
  match fuel with
  | O => acc
  | S fuel' =>
      let acc' := (48 + n mod 10) :: acc in
      if n <? 10 then acc' else digits fuel' (n / 10) acc'
  end.

(** [String(n)] for a length or an index [n]. *)
Definition ofNat (n : nat) : jsstring := digits (S n) (Z.of_nat n) [].

(** The part of the platform's string library that depends on the Unicode
    tables and on the locale data of the host. *)
Class Unicode := {
  toLowerCase : jsstring -> jsstring;
  toUpperCase : jsstring -> jsstring;
  (** [a.localeCompare(b, 'zh-TW')] *)
  localeCompare : jsstring -> jsstring -> Z
}.

Definition lowerUnit (c : Z) : Z :=
  if (65 <=? c) && (c <=? 90) then c + 32 else c.
Definition upperUnit (c : Z) : Z :=
  if (97 <=? c) && (c <=? 122) then c - 32 else c.

Fixpoint compareUnits (a b : jsstring) : Z :=
  match a, b with
  | [], [] => 0
  | [], _ :: _ => -1
  | _ :: _, [] => 1
  | c :: a', d :: b' =>
      if c <? d then -1 else if d <? c then 1 else compareUnits a' b'
  end.

(** The platform restricted to what it does on ASCII letters: case mapping
    of A-Z and a-z only, comparison by code unit. *)
Definition asciiUnicode : Unicode := {|
  toLowerCase := map lowerUnit;
  toUpperCase := map upperUnit;
  localeCompare := compareUnits
|}.

(** [Array.prototype.findIndex]: the first position whose element
    satisfies [p], or -1. *)
Fixpoint findIndex {A} (p : A -> bool) (l : list A) : Z :=
  match l with
  | [] => -1
  | x :: l' =>
      if p x then 0
      else let i := findIndex p l' in if i =? -1 then -1 else i + 1
  end.

(** [Array.prototype.sort] with a comparator, as a stable insertion sort:
    an element goes behind every element the comparator does not put
    after it. *)
Fixpoint sortInsert {A} (cmp : A -> A -> Z) (x : A) (l : list A) : list A :=
  match l with
  | [] => [x]
  | y :: l' => if cmp x y <? 0 then x :: y :: l' else y :: sortInsert cmp x l'
  end.

Definition sort {A} (cmp : A -> A -> Z) (l : list A) : list A :=
  fold_left (fun acc x => sortInsert cmp x acc) l [].

End JS.

(* ===================================================================== *)
(** * types.ts *)
(* ===================================================================== *)

Module Types.
Import JS DateUtils.

(** [progress] is a Number that holds an integer (see [JS.toNumber]). *)
Record TaskAssignment := {
  assign_id : jsstring;
  role : jsstring;
  subLabel : option jsstring;
  startDate : date;
  endDate : date;
  progress : Z;
  color : jsstring
}.

Record Task := {
  task_id : jsstring;
  name : jsstring;
  assignments : list TaskAssignment
}.

Inductive GroupBy := GroupBy_None | GroupBy_Assignee.

Definition TAILWIND_COLORS : list jsstring :=
  [ js "bg-blue-500";
    js "bg-emerald-500";
    js "bg-indigo-500";
    js "bg-rose-500";
    js "bg-amber-500";
    js "bg-purple-500";
    js "bg-cyan-500";
    js "bg-fuchsia-500";
    js "bg-orange-500";
    js "bg-teal-500";
    js "bg-gray-500";
    js "bg-white border border-gray-300 shadow-sm" ].

(** [ToInt32] on an integral number. *)
Definition toInt32 (z : Z) : Z := (z + 2147483648) mod 4294967296 - 2147483648.

(** [x << n] on an integral number. *)
Definition shl (x n : Z) : Z := toInt32 (Z.shiftl (toInt32 x) n).

(** The loop [for (i = 0; i < role.length; i++)
    hash = role.charCodeAt(i) + ((hash << 5) - hash)].  The sum and the
    difference are those of numbers, not of 32-bit integers: only the shift
    wraps. *)
Fixpoint hashLoop (role : jsstring) (hash : Z) : Z :=
  match role with
  | [] => hash
  | c :: role' => hashLoop role' (c + (shl hash 5 - hash))
  end.

(** [TAILWIND_COLORS[index]]; [None] is [undefined]. *)
Definition colorAt (index : Z) : option jsstring :=
  if index <? 0 then None else nth_error TAILWIND_COLORS (Z.to_nat index).

Section WithUnicode.
Context {U : Unicode}.

Definition getColorForRole (role : jsstring) : option jsstring :=
  let r := trim (toLowerCase role) in
  if includes r (js "ui") || includes r (js "設計") || includes r (js "design")
     || includes r (js "art") then Some (js "bg-rose-500")
  else if includes r (js "fe") || includes r (js "front")
     || includes r (js "前端") || includes r (js "app")
     || includes r (js "web") then Some (js "bg-blue-500")
  else if includes r (js "be") || includes r (js "back")
     || includes r (js "後端") || includes r (js "api")
     || includes r (js "server") then Some (js "bg-emerald-500")
  else if includes r (js "pm") || includes r (js "product")
     || includes r (js "專案") || includes r (js "manager")
     then Some (js "bg-purple-500")
  else if includes r (js "qa") || includes r (js "test")
     || includes r (js "測試") then Some (js "bg-orange-500")
  else if includes r (js "ux") || includes r (js "brief")
     || includes r (js "research") || includes r (js "研究")
     then Some (js "bg-amber-500")
  else if includes r (js "data") || includes r (js "資料")
     then Some (js "bg-cyan-500")
  else if eqb r (js "rd") || eqb r (js "all") || eqb r (js "全體")
     then Some (js "bg-gray-500")
  else
    let hash := hashLoop role 0 in
    let index := Z.abs hash mod Z.of_nat (length TAILWIND_COLORS) in
    colorAt index.

End WithUnicode.

End Types.

(* ===================================================================== *)
(** * GanttChart.tsx *)
(* ===================================================================== *)

Module GanttChart.
Import JS DateUtils Types.

Inductive DragType := TASK | ASSIGNMENT.

Record DragState := {
  drag_type : DragType;
  drag_id : jsstring;               (* Task ID or Assignment ID *)
  drag_parentId : option jsstring   (* only for assignments: Task ID *)
}.

Record BarDragState := {
  assignmentId : jsstring;
  parentId : jsstring;
  startX : Z;
  originalStart : date;
  originalEnd : date;
  originalWorkingDays : Z;
  currentStart : date;
  currentEnd : date;
  hasMoved : bool;
  taskReference : Task
}.

Definition DAY_WIDTH : Z := 50.

(** The flattened rows the chart renders.  An absent or empty [startDate]
    or [endDate] is [None]. *)
Record RenderRow := {
  uniqueId : jsstring;
  label : jsstring;
  row_subLabel : option jsstring;
  isHeader : bool;
  row_startDate : option date;
  row_endDate : option date;
  row_progress : option Z;
  row_color : option jsstring;
  originalTask : Task;
  originalAssignment : option TaskAssignment
}.

(** The props of the component; [onTaskClick] and [onTaskReorder] are the
    effects below, and [hasOnTaskReorder] tells whether the optional
    [onTaskReorder] was passed. *)
Record Props := {
  tasks : list Task;
  groupBy : GroupBy;
  readOnly : bool;
  hasOnTaskReorder : bool
}.

(** The two pieces of [useState] of the component. *)
Record State := {
  draggedItem : option DragState;
  draggedBar : option BarDragState
}.

Definition initialState : State :=
  {| draggedItem := None; draggedBar := None |}.

(** What a handler does besides updating the state. *)
Inductive Effect :=
| onTaskClick (task : Task)
| onTaskReorder (newTasks : list Task)
| preventDefault
| stopPropagation.

(** [s || d] on strings: the empty string is falsy. *)
Definition orElse (s d : jsstring) : jsstring :=
  match s with [] => d | _ :: _ => s end.

(** [draggedBar && draggedBar.assignmentId === assign.id] *)
Definition isDragging (bar : option BarDragState) (assign : TaskAssignment)
    : option BarDragState :=
  match bar with
  | Some b => if eqb (assignmentId b) (assign_id assign) then Some b else None
  | None => None
  end.

Definition liveStart (bar : option BarDragState) (assign : TaskAssignment)
    : date :=
  match isDragging bar assign with
  | Some b => currentStart b
  | None => startDate assign
  end.

Definition liveEnd (bar : option BarDragState) (assign : TaskAssignment)
    : date :=
  match isDragging bar assign with
  | Some b => currentEnd b
  | None => endDate assign
  end.

(** ** Rows grouped by feature *)

Definition featureHeader (task : Task) : RenderRow :=
  {| uniqueId := js "feature-" ++ task_id task;
     label := name task;
     row_subLabel := None;
     isHeader := true;
     row_startDate := None; row_endDate := None;
     row_progress := None; row_color := None;
     originalTask := task;
     originalAssignment := None |}.

Definition featureLeaf (bar : option BarDragState) (task : Task)
    (assign : TaskAssignment) : RenderRow :=
  {| uniqueId := js "assign-" ++ assign_id assign;
     label := orElse (role assign) (js "未指派");
     row_subLabel := Some (default [] (subLabel assign));
     isHeader := false;
     row_startDate := Some (liveStart bar assign);
     row_endDate := Some (liveEnd bar assign);
     row_progress := Some (progress assign);
     row_color := Some (color assign);
     originalTask := task;
     originalAssignment := Some assign |}.

Definition rowsByFeature (tasks : list Task) (bar : option BarDragState)
    : list RenderRow :=
  flat_map (fun task =>
    featureHeader task :: map (featureLeaf bar task) (assignments task)) tasks.

(** ** Rows grouped by role *)

Definition Item : Type := Task * TaskAssignment.

(** The own properties of the object [groups], used as a map from bucket
    name to the array of its items; the entries are kept in the order in
    which the keys were added. *)
Definition Groups : Type := list (jsstring * list Item).

(** [groups] is an object literal, so besides its own properties it
    inherits those of [Object.prototype]: the methods and the accessor
    [__proto__] below. *)
Definition Object_prototype : list jsstring :=
  [ js "constructor"; js "hasOwnProperty"; js "isPrototypeOf";
    js "propertyIsEnumerable"; js "toLocaleString"; js "toString";
    js "valueOf"; js "__proto__"; js "__defineGetter__";
    js "__defineSetter__"; js "__lookupGetter__"; js "__lookupSetter__" ].

Definition inherited (name : jsstring) : bool :=
  existsb (eqb name) Object_prototype.

(** The own property [name] of [groups]. *)
Fixpoint ownProperty (name : jsstring) (groups : Groups)
    : option (list Item) :=
  match groups with
  | [] => None
  | (k, items) :: groups' =>
      if eqb k name then Some items else ownProperty name groups'
  end.

(** [groups[groupName].push(item)] on the array of the own property
    [groupName], which is [groups[groupName] = []] first when there is no
    such property yet. *)
Fixpoint pushItem (groupName : jsstring) (item : Item) (groups : Groups)
    : Groups :=
  match groups with
  | [] => [(groupName, [item])]
  | (k, items) :: groups' =>
      if eqb k groupName then (k, items ++ [item]) :: groups'
      else (k, items) :: pushItem groupName item groups'
  end.

(** [addToGroup]; [None] is a thrown [TypeError].  For a name that
    [groups] inherits and does not own, [groups[groupName]] is the
    inherited function or object: it is truthy, so no array is made, and
    it has no [push], so the call throws. *)
Definition addToGroup (groupName : jsstring) (item : Item) (groups : Groups)
    : option Groups :=
  match ownProperty groupName groups with
  | Some _ => Some (pushItem groupName item groups)
  | None =>
      if inherited groupName then None
      else Some (pushItem groupName item groups)
  end.

(** [l.forEach(x => ...)] with a body that updates [s] and may throw. *)
Fixpoint forEach {A S} (l : list A) (body : A -> S -> option S) (s : S)
    : option S :=
  match l with
  | [] => Some s
  | x :: l' => s' ← body x s; forEach l' body s'
  end.

(** [groups[roleName]] for a key of [groups]. *)
Fixpoint lookupGroup (roleName : jsstring) (groups : Groups) : list Item :=
  match groups with
  | [] => []
  | (k, items) :: groups' =>
      if eqb k roleName then items else lookupGroup roleName groups'
  end.

(** A key that is a canonical array index: such keys are enumerated first,
    in ascending numeric order. *)
Definition isArrayIndex (k : jsstring) : bool :=
  match k with
  | [] => false
  | c :: k' =>
      forallb isDigit k && ((negb (c =? 48)) || match k' with [] => true | _ => false end)
      && (parseDigits k <=? 4294967294)
  end.

(** [Object.keys(groups)] *)
Definition Object_keys (groups : Groups) : list jsstring :=
  let keys := map fst groups in
  sort (fun a b => parseDigits a - parseDigits b) (filter isArrayIndex keys)
  ++ filter (fun k => negb (isArrayIndex k)) keys.

Section WithUnicode.
Context {U : Unicode}.

(** The bucket names an assignment is fanned out to. *)
Definition bucketsOf (assign : TaskAssignment) : list jsstring :=
  let rawRole := orElse (role assign) (js "未指派") in
  let r := toUpperCase (trim rawRole) in
  if eqb r (js "RD") then [js "FE"; js "BE"]
  else if eqb r (js "ALL") || eqb r (js "全體") then
    [js "FE"; js "BE"; js "UI"; js "UX"; js "PM"]
  else [trim rawRole].

(** The assignment's role, trimmed and compared without regard to case, is
    one of the tokens that fan out. *)
Definition fansOut (assign : TaskAssignment) : bool :=
  let r := toUpperCase (trim (orElse (role assign) (js "未指派"))) in
  eqb r (js "RD") || eqb r (js "ALL") || eqb r (js "全體").

(** The two nested [forEach] that fill [groups]; an exception of
    [addToGroup] ends them. *)
Definition buildGroups (tasks : list Task) : option Groups :=
  forEach tasks (fun task groups =>
    forEach (assignments task) (fun assign groups =>
      forEach (bucketsOf assign) (fun targetRole groups =>
        addToGroup targetRole (task, assign) groups) groups) groups) [].

(** The buckets [buildGroups] leaves when no call of [addToGroup] throws. *)
Definition filled (tasks : list Task) : Groups :=
  fold_left (fun groups task =>
    fold_left (fun groups assign =>
      fold_left (fun groups targetRole =>
        pushItem targetRole (task, assign) groups)
        (bucketsOf assign) groups)
      (assignments task) groups)
    tasks [].

(** The bucket names the assignments of [tasks] are fanned out to, in the
    order of the calls of [addToGroup]. *)
Definition bucketNames (tasks : list Task) : list jsstring :=
  flat_map (fun task => flat_map bucketsOf (assignments task)) tasks.

(** The number of bucket entries the assignments of [tasks] are fanned out
    to. *)
Definition fanOutTotal (tasks : list Task) : nat :=
  sum_list_with (fun task =>
    sum_list_with (fun assign => length (bucketsOf assign)) (assignments task))
    tasks.

Definition priorityRoles : list jsstring :=
  [ js "內部最後階段"; js "Last Phase"; js "PM"; js "UI"; js "UX"; js "FE";
    js "BE"; js "QA"; js "RD" ].

(** [s.match(/^(\d+)/)]: the leading decimal digits, when there are some. *)
Fixpoint leadingDigits (s : jsstring) : jsstring :=
  match s with
  | c :: s' => if isDigit c then c :: leadingDigits s' else []
  | [] => []
  end.

(** The comparator of [Object.keys(groups).sort(...)].  The difference of
    the two leading numbers is the exact one here; the source rounds it to a
    Number, which keeps its sign, and the sign is all that [sort] looks at
    (the difference of two [Infinity] is [NaN], which [sort] takes for 0). *)
Definition compareRoles (a b : jsstring) : Z :=
  let cleanA := trim a in
  let cleanB := trim b in
  let idxA :=
    findIndex (fun p => eqb (toLowerCase p) (toLowerCase cleanA)) priorityRoles in
  let idxB :=
    findIndex (fun p => eqb (toLowerCase p) (toLowerCase cleanB)) priorityRoles in
  if negb (idxA =? -1) && negb (idxB =? -1) then idxA - idxB
  else if negb (idxA =? -1) then -1
  else if negb (idxB =? -1) then 1
  else
    let numA := leadingDigits cleanA in
    let numB := leadingDigits cleanB in
    match numA, numB with
    | _ :: _, _ :: _ => parseInt numA - parseInt numB
    | _ :: _, [] => -1
    | [], _ :: _ => 1
    | [], [] => localeCompare cleanA cleanB
    end.

Definition sortedKeys (groups : Groups) : list jsstring :=
  sort compareRoles (Object_keys groups).

Definition roleHeader (roleName : jsstring) (items : list Item) (first : Task)
    : RenderRow :=
  {| uniqueId := js "role-group-" ++ roleName;
     label := roleName;
     row_subLabel := Some (ofNat (length items) ++ js " 項任務");
     isHeader := true;
     row_startDate := None; row_endDate := None;
     row_progress := None; row_color := None;
     originalTask := first;
     originalAssignment := None |}.

(** A leaf of a role bucket.  The source ends [uniqueId] with
    [Math.random()]; the identifier is a rendering key only and the model
    stops before that suffix. *)
Definition roleLeaf (bar : option BarDragState) (roleName : jsstring)
    (item : Item) : RenderRow :=
  let '(task, assign) := item in
  let r := toUpperCase (role assign) in
  let isSpecial := eqb r (js "RD") || eqb r (js "ALL") || eqb r (js "全體") in
  let prefix := if isSpecial then js "[" ++ role assign ++ js "] " else [] in
  {| uniqueId := js "role-item-" ++ roleName ++ js "-" ++ assign_id assign
                 ++ js "-";
     label := prefix ++ name task;
     row_subLabel := Some (default [] (subLabel assign));
     isHeader := false;
     row_startDate := Some (liveStart bar assign);
     row_endDate := Some (liveEnd bar assign);
     row_progress := Some (progress assign);
     row_color := Some (color assign);
     originalTask := task;
     originalAssignment := Some assign |}.

(** The rows one bucket contributes: nothing when it is empty, else its
    header and one leaf per item. *)
Definition bucketRows (bar : option BarDragState) (groups : Groups)
    (roleName : jsstring) : list RenderRow :=
  let items := lookupGroup roleName groups in
  match items with
  | [] => []
  | (first, _) :: _ =>
      roleHeader roleName items first :: map (roleLeaf bar roleName) items
  end.

(** The rows grouped by role; [None] when filling the buckets throws. *)
Definition rowsByRole (tasks : list Task) (bar : option BarDragState)
    : option (list RenderRow) :=
  groups ← buildGroups tasks;
  Some (flat_map (bucketRows bar groups) (sortedKeys groups)).

(** The [rows] memo; [None] is an exception thrown while rendering. *)
Definition rows (p : Props) (st : State) : option (list RenderRow) :=
  match groupBy p with
  | GroupBy_None => Some (rowsByFeature (tasks p) (draggedBar st))
  | GroupBy_Assignee => rowsByRole (tasks p) (draggedBar st)
  end.

End WithUnicode.

(** ** Bar rescheduling: the global mouse listeners *)

(** [Math.round(x / w)] for a pixel offset [x] and a width [w > 0], both
    integers: the nearest integer, a half rounded up. *)
Definition roundDiv (x w : Z) : Z := (2 * x + w) / (2 * w).

(** The listeners are attached only while a bar session is open
    ([if (!draggedBar) return;] in the effect). *)
Definition handleMouseMove (p : Props) (st : State) (clientX : Z) : State :=
  match draggedBar st with
  | None => st
  | Some bar =>
      if readOnly p then st
      else
        let deltaX := clientX - startX bar in
        let deltaDays := roundDiv deltaX DAY_WIDTH in
        if deltaDays =? 0 then st
        else
          let newStartDate := addDaysToDate (originalStart bar) deltaDays in
          let newEndDate :=
            if originalWorkingDays bar >? 0 then
              calculateEndDate newStartDate (originalWorkingDays bar)
            else addDaysToDate (originalEnd bar) deltaDays in
          {| draggedItem := draggedItem st;
             draggedBar := Some
               {| assignmentId := assignmentId bar;
                  parentId := parentId bar;
                  startX := startX bar;
                  originalStart := originalStart bar;
                  originalEnd := originalEnd bar;
                  originalWorkingDays := originalWorkingDays bar;
                  currentStart := newStartDate;
                  currentEnd := newEndDate;
                  hasMoved := true;
                  taskReference := taskReference bar |} |}
  end.

(** The assignment [a] after the commit of [bar]. *)
Definition commitBar (bar : BarDragState) (a : TaskAssignment)
    : TaskAssignment :=
  if eqb (assign_id a) (assignmentId bar) then
    {| assign_id := assign_id a; role := role a; subLabel := subLabel a;
       startDate := currentStart bar;
       endDate := currentEnd bar;
       progress := progress a; color := color a |}
  else a.

Definition withAssignments (task : Task) (l : list TaskAssignment) : Task :=
  {| task_id := task_id task; name := name task; assignments := l |}.

Definition handleMouseUp (p : Props) (st : State) : State * list Effect :=
  match draggedBar st with
  | None => (st, [])
  | Some bar =>
      let effects :=
        if negb (hasMoved bar) then [onTaskClick (taskReference bar)]
        else if hasOnTaskReorder p && negb (readOnly p) then
          let taskIndex :=
            findIndex (fun t => eqb (task_id t) (parentId bar)) (tasks p) in
          if negb (taskIndex =? -1) then
            match tasks p !! Z.to_nat taskIndex with
            | Some task =>
                let newAssignments := map (commitBar bar) (assignments task) in
                let newTasks :=
                  <[Z.to_nat taskIndex := withAssignments task newAssignments]>
                    (tasks p) in
                [onTaskReorder newTasks]
            | None => []
            end
          else []
        else [] in
      ({| draggedItem := draggedItem st; draggedBar := None |}, effects)
  end.

(** ** Row reordering: native drag and drop *)

Definition handleDragStart (p : Props) (st : State) (row : RenderRow)
    : State * list Effect :=
  if readOnly p || bool_decide (is_Some (draggedBar st)) then
    (st, [preventDefault])
  else if isHeader row then
    ({| draggedItem := Some {| drag_type := TASK;
                               drag_id := task_id (originalTask row);
                               drag_parentId := None |};
        draggedBar := draggedBar st |}, [])
  else
    match originalAssignment row with
    | Some assign =>
        ({| draggedItem := Some {| drag_type := ASSIGNMENT;
                                   drag_id := assign_id assign;
                                   drag_parentId :=
                                     Some (task_id (originalTask row)) |};
            draggedBar := draggedBar st |}, [])
    | None => (st, [])
    end.

(** [const [removed] = l.splice(fromIndex, 1); l.splice(toIndex, 0, removed)]
    on a copy of [l], for a position [fromIndex] of [l]. *)
Definition moveItem {A} (fromIndex toIndex : nat) (l : list A) : list A :=
  match l !! fromIndex with
  | Some removed =>
      let l' := delete fromIndex l in
      take toIndex l' ++ removed :: drop toIndex l'
  | None => l
  end.

Definition clearDraggedItem (st : State) : State :=
  {| draggedItem := None; draggedBar := draggedBar st |}.

Definition handleDrop (p : Props) (st : State) (targetRow : RenderRow)
    : State * list Effect :=
  match draggedItem st with
  | Some item =>
      if readOnly p || negb (hasOnTaskReorder p) then (st, [preventDefault])
      else
        match drag_type item, isHeader targetRow, originalAssignment targetRow with
        | TASK, true, _ =>
            if eqb (drag_id item) (task_id (originalTask targetRow)) then
              (st, [preventDefault])
            else
              let fromIndex :=
                findIndex (fun t => eqb (task_id t) (drag_id item)) (tasks p) in
              let toIndex :=
                findIndex (fun t => eqb (task_id t)
                                      (task_id (originalTask targetRow)))
                  (tasks p) in
              if (fromIndex =? -1) || (toIndex =? -1) then
                (st, [preventDefault])
              else
                let newTasks :=
                  moveItem (Z.to_nat fromIndex) (Z.to_nat toIndex) (tasks p) in
                (clearDraggedItem st, [preventDefault; onTaskReorder newTasks])
        | ASSIGNMENT, false, Some targetAssign =>
            if negb (bool_decide (drag_parentId item
                                  = Some (task_id (originalTask targetRow))))
            then (st, [preventDefault])
            else if eqb (drag_id item) (assign_id targetAssign) then
              (st, [preventDefault])
            else
              let taskIndex :=
                findIndex (fun t => bool_decide (Some (task_id t)
                                                 = drag_parentId item))
                  (tasks p) in
              if taskIndex =? -1 then (st, [preventDefault])
              else
                match tasks p !! Z.to_nat taskIndex with
                | Some task =>
                    let fromIndex :=
                      findIndex (fun a => eqb (assign_id a) (drag_id item))
                        (assignments task) in
                    let toIndex :=
                      findIndex (fun a => eqb (assign_id a)
                                            (assign_id targetAssign))
                        (assignments task) in
                    if (fromIndex =? -1) || (toIndex =? -1) then
                      (st, [preventDefault])
                    else
                      let assignments' :=
                        moveItem (Z.to_nat fromIndex) (Z.to_nat toIndex)
                          (assignments task) in
                      let updatedTask := withAssignments task assignments' in
                      let newTasks :=
                        <[Z.to_nat taskIndex := updatedTask]> (tasks p) in
                      (clearDraggedItem st,
                       [preventDefault; onTaskReorder newTasks])
                | None => (st, [preventDefault])
                end
        | _, _, _ => (clearDraggedItem st, [preventDefault])
        end
  | None => (st, [preventDefault])
  end.

(** ** Bar rescheduling: pointer-down on a bar *)

Definition handleBarMouseDown (p : Props) (st : State) (row : RenderRow)
    (clientX : Z) : State * list Effect :=
  match originalAssignment row, row_startDate row, row_endDate row with
  | Some assign, Some start, Some end_ =>
      if readOnly p then
        let workingDays := calculateWorkingDays start end_ in
        ({| draggedItem := draggedItem st;
            draggedBar := Some
              {| assignmentId := assign_id assign;
                 parentId := task_id (originalTask row);
                 startX := clientX;
                 originalStart := start;
                 originalEnd := end_;
                 originalWorkingDays := workingDays;
                 currentStart := start;
                 currentEnd := end_;
                 hasMoved := false;
                 taskReference := originalTask row |} |},
         [stopPropagation])
      else
        let workingDays := calculateWorkingDays start end_ in
        ({| draggedItem := draggedItem st;
            draggedBar := Some
              {| assignmentId := assign_id assign;
                 parentId := task_id (originalTask row);
                 startX := clientX;
                 originalStart := start;
                 originalEnd := end_;
                 originalWorkingDays := workingDays;
                 currentStart := start;
                 currentEnd := end_;
                 hasMoved := false;
                 taskReference := originalTask row |} |},
         [stopPropagation])
  | _, _, _ => (st, [])
  end.

(** ** The events of the row surface *)

Inductive Event :=
| DragStart (row : RenderRow)
| Drop (targetRow : RenderRow)
| BarMouseDown (row : RenderRow) (clientX : Z)
| MouseMove (clientX : Z)
| MouseUp.

(** [const isDraggable = groupBy === GroupBy.None && !readOnly] *)
Definition isDraggable (p : Props) : bool :=
  match groupBy p with
  | GroupBy_None => negb (readOnly p)
  | GroupBy_Assignee => false
  end.

(** The handler the JSX attaches for each event: rows start a drag and take
    a drop only when [isDraggable] (the label of a leaf row stops the
    propagation of its [dragstart] first), and a bar exists only on a leaf
    row that has both dates. *)
Definition step (p : Props) (st : State) (ev : Event) : State * list Effect :=
  match ev with
  | DragStart row =>
      if isHeader row then
        if isDraggable p then handleDragStart p st row else (st, [])
      else
        let '(st', effects) :=
          if isDraggable p then handleDragStart p st row else (st, []) in
        (st', stopPropagation :: effects)
  | Drop targetRow =>
      if isDraggable p then handleDrop p st targetRow else (st, [])
  | BarMouseDown row clientX =>
      match isHeader row, row_startDate row, row_endDate row with
      | false, Some _, Some _ => handleBarMouseDown p st row clientX
      | _, _, _ => (st, [])
      end
  | MouseMove clientX => (handleMouseMove p st clientX, [])
  | MouseUp => handleMouseUp p st
  end.

(** The owner of the collection ([ProjectBoard.handleTaskReorder], no filter
    text): a published collection replaces [tasks] unless the board is
    read-only. *)
Definition receive (p : Props) (e : Effect) : Props :=
  match e with
  | onTaskReorder newTasks =>
      if readOnly p then p
      else {| tasks := newTasks; groupBy := groupBy p;
              readOnly := readOnly p;
              hasOnTaskReorder := hasOnTaskReorder p |}
  | _ => p
  end.

(** A sequence of events, each handled in the props and state the previous
    ones left; the effects are collected in order. *)
Fixpoint run (p : Props) (st : State) (evs : list Event)
    : Props * State * list Effect :=
  match evs with
  | [] => (p, st, [])
  | ev :: evs' =>
      let '(st', effs) := step p st ev in
      let p' := fold_left receive effs p in
      let '(p'', st'', effs') := run p' st' evs' in
      (p'', st'', effs ++ effs')
  end.

(** A bar session in flight carries the working-day span of its original
    dates: [handleBarMouseDown] computes it so and nothing changes it. *)
Definition spanRecorded (st : State) : Prop :=
  forall bar, draggedBar st = Some bar ->
    originalWorkingDays bar
    = calculateWorkingDays (originalStart bar) (originalEnd bar).


(** The number of leaf rows among [rows]. *)
Definition leafCount (rows : list RenderRow) : nat :=
  length (List.filter (fun row => negb (isHeader row)) rows).

(** The number of assignments of a task list. *)
Definition totalAssignments (ts : list Task) : nat :=
  sum_list_with (fun t => length (assignments t)) ts.

(** The number of items held by all buckets. *)
Definition itemCount (groups : Groups) : nat :=
  sum_list_with (fun entry => length (snd entry)) groups.

(** The buckets hold [n] items under pairwise different names. *)
Definition holds (n : nat) (groups : Groups) : Prop :=
  NoDup (map fst groups) /\ itemCount groups = n.

(** No own key of [groups] is a name it inherits. *)
Definition ownOnly (groups : Groups) : Prop :=
  forall k, In k (map fst groups) -> inherited k = false.

(** ** The visible date range and the week header *)

(** [tasks.forEach(t => allAssignments.push(...t.assignments))] *)
Definition allAssignments (ts : list Task) : list TaskAssignment :=
  flat_map assignments ts.

(** [Math.min(...l)] and [Math.max(...l)] of a list that is not empty (the
    component calls them on the dates of [allAssignments] only when there
    are some). *)
Definition Math_min (l : list Z) : Z :=
  match l with
  | [] => 0
  | x :: l' => fold_left Z.min l' x
  end.

Definition Math_max (l : list Z) : Z :=
  match l with
  | [] => 0
  | x :: l' => fold_left Z.max l' x
  end.

(** The memo [{ minDate, dates }]; [today] is the day of [new Date()], which
    the component reads only when there is no assignment. *)
Definition dateRange (today : date) (ts : list Task) : date * list date :=
  match allAssignments ts with
  | [] =>
      let start := today - 2 in
      let end_ := today + 14 in
      (start, getDaysArray start end_)
  | _ :: _ =>
      let startDates := map startDate (allAssignments ts) in
      let endDates := map endDate (allAssignments ts) in
      let min := Math_min startDates - 3 in   (* buffer before *)
      let max := Math_max endDates + 7 in     (* buffer after *)
      (min, getDaysArray min max)
  end.

(** [getOffset] and [getWidth], in pixels. *)
Definition getOffset (minDate : date) (dateStr : date) : Z :=
  (dateStr - minDate) * DAY_WIDTH.

Definition getWidth (start end_ : date) : Z :=
  (end_ - start + 1) * DAY_WIDTH.

Record WeekChunk := {
  week : Z;
  year : Z;
  days : Z
}.

(** The [dates.forEach] of the week header, with the final
    [chunks.push(currentChunk)]. *)
Fixpoint weekChunks_loop (dates : list date) (currentChunk : WeekChunk)
    : list WeekChunk :=
  match dates with
  | [] => [currentChunk]
  | d :: dates' =>
      let w := getWeekNumber d in
      let y := getFullYear d in
      if negb (w =? week currentChunk) then
        currentChunk
        :: weekChunks_loop dates' {| week := w; year := y; days := 0 + 1 |}
      else
        weekChunks_loop dates'
          {| week := week currentChunk; year := year currentChunk;
             days := days currentChunk + 1 |}
  end.

Definition weekChunks (dates : list date) : list WeekChunk :=
  match dates with
  | [] => []
  | d0 :: _ =>
      weekChunks_loop dates
        {| week := getWeekNumber d0; year := getFullYear d0; days := 0 |}
  end.

(** The part of a collection that a bar commit may not touch: everything
    but the dates. *)
Definition sameButDates (a a' : TaskAssignment) : Prop :=
  assign_id a' = assign_id a /\ role a' = role a /\ subLabel a' = subLabel a
  /\ progress a' = progress a /\ color a' = color a.

(** What a bar commit does to an assignment: nothing but the dates
    changes, and the dates change, to the live dates of the session,
    exactly for an assignment with the dragged id. *)
Definition committed (bar : BarDragState) (a a' : TaskAssignment) : Prop :=
  sameButDates a a'
  /\ (assign_id a = assignmentId bar ->
      startDate a' = currentStart bar /\ endDate a' = currentEnd bar)
  /\ (assign_id a <> assignmentId bar -> a' = a).

End GanttChart.

(* ===================================================================== *)
(** * TaskModal.tsx *)
(* ===================================================================== *)

Module TaskModal.
Import JS DateUtils Types.

(** The line terminators, which the [.] of a regular expression does not
    match. *)
Definition isLineTerminator (c : Z) : bool :=
  (c =? 10) || (c =? 13) || (c =? 8232) || (c =? 8233).

(** The lazy first group and the closing bracket, [\]] or [】], of the
    pattern: the shortest run of characters of one line that a closing
    bracket follows, and what follows the bracket. *)
Fixpoint untilClosingBracket (s : jsstring) : option (jsstring * jsstring) :=
  match s with
  | [] => None
  | c :: s' =>
      if (c =? 93) || (c =? 12305) then Some ([], s')
      else if isLineTerminator c then None
      else '(inner, after) ← untilClosingBracket s'; Some (c :: inner, after)
  end.

(** The greedy last group of the pattern: the rest of the line. *)
Fixpoint restOfLine (s : jsstring) : jsstring :=
  match s with
  | [] => []
  | c :: s' => if isLineTerminator c then [] else c :: restOfLine s'
  end.

(** The two groups of the match of [role] against the pattern of
    [processAssignmentRole]: an opening bracket at the start, the lazy
    group, a closing bracket, white space, and the greedy group. *)
Definition bracketMatch (role : jsstring) : option (jsstring * jsstring) :=
  match role with
  | c :: s =>
      if c =? 91 then
        '(inner, after) ← untilClosingBracket s;
        Some (inner, restOfLine (trimStart after))
      else None
  | [] => None
  end.

(** [s.split(sep)] at the first occurrence of [sep]: [parts[0]] and
    [parts.slice(1).join(sep)]; [None] when [s] does not include [sep]. *)
Fixpoint splitFirst (sep s : jsstring) : option (jsstring * jsstring) :=
  if startsWith s sep then Some ([], drop (length sep) s)
  else
    match s with
    | [] => None
    | c :: s' => '(before, after) ← splitFirst sep s'; Some (c :: before, after)
    end.

Definition processAssignmentRole (roleStr currentSubLabel : jsstring)
    : jsstring * jsstring :=
  match currentSubLabel with
  | _ :: _ => (roleStr, currentSubLabel)
  | [] =>
      match bracketMatch roleStr with
      | Some (inner, rest) => (trim inner, trim rest)
      | None =>
          match splitFirst (js " - ") roleStr with
          | Some (before, after) => (trim before, trim after)
          | None => (roleStr, currentSubLabel)
          end
      end
  end.

(** [TAILWIND_COLORS[n % TAILWIND_COLORS.length]]: the index is within the
    palette. *)
Definition paletteColor (n : nat) : jsstring :=
  nth (n mod length TAILWIND_COLORS) TAILWIND_COLORS [].

(** [handleAddAssignment]; [id] is the result of [crypto.randomUUID()] and
    [today] the day of [new Date()]. *)
Definition handleAddAssignment (readOnly : bool) (id : jsstring) (today : date)
    (assignments : list TaskAssignment) : list TaskAssignment :=
  if readOnly then assignments
  else
    let baseDate :=
      match last assignments with
      | Some lastAssignment => endDate lastAssignment
      | None => today
      end in
    assignments
    ++ [ {| assign_id := id; role := []; subLabel := Some [];
            startDate := baseDate; endDate := baseDate;
            progress := 0;
            color := paletteColor (length assignments) |} ].

Definition handleRemoveAssignment (readOnly : bool) (id : jsstring)
    (assignments : list TaskAssignment) : list TaskAssignment :=
  if readOnly then assignments
  else if (1 <? length assignments)%nat then
    List.filter (fun a => negb (eqb (assign_id a) id)) assignments
  else assignments.

(** The task [handleSubmit] passes to [onSave]; [uuid] is the result of
    [crypto.randomUUID()], which is read when there is no [initialData] or
    its id is empty.  [None]: nothing is saved. *)
Definition handleSubmit (readOnly : bool) (initialData : option Task)
    (uuid name : jsstring) (assignments : list TaskAssignment)
    : option Task :=
  if readOnly then None
  else
    let validAssignments :=
      map (fun a =>
        {| assign_id := assign_id a;
           role := GanttChart.orElse (trim (role a)) (js "未指派");
           subLabel := subLabel a;
           startDate := startDate a; endDate := endDate a;
           progress := progress a; color := color a |}) assignments in
    Some {| task_id :=
              match initialData with
              | Some t => GanttChart.orElse (task_id t) uuid
              | None => uuid
              end;
            name := name;
            assignments := validAssignments |}.

Section WithUnicode.
Context {U : Unicode}.

(** [updateAssignment(id, 'role', value)]. *)
Definition updateRole (readOnly : bool) (id value : jsstring)
    (assignments : list TaskAssignment) : list TaskAssignment :=
  if readOnly then assignments
  else
    map (fun a =>
      if eqb (assign_id a) id then
        let '(role, subLabel) :=
          processAssignmentRole value (default [] (Types.subLabel a)) in
        {| assign_id := assign_id a;
           role := role;
           subLabel :=
             if negb (eqb subLabel (default [] (Types.subLabel a)))
             then Some subLabel else Types.subLabel a;
           startDate := startDate a; endDate := endDate a;
           progress := progress a;
           (* getColorForRole never returns undefined *)
           color := default [] (getColorForRole role) |}
      else a) assignments.

End WithUnicode.

(** What [handleSubmit] and [updateRole] leave of an assignment: all but
    the role, the sub-label and the colour. *)
Definition sameBar (a a' : TaskAssignment) : Prop :=
  assign_id a' = assign_id a /\ startDate a' = startDate a
  /\ endDate a' = endDate a /\ progress a' = progress a.

End TaskModal.

(* ===================================================================== *)
(** * ProjectBoard.tsx: the snapshot and the handlers of the board *)
(* ===================================================================== *)

Module ProjectBoard.
Import JS.

(** The values [JSON.parse] produces, and [undefined], which reading an
    absent property gives.  A number is written as a decimal literal
    [mantissa * 10 ^ exponent] and stands for the Number nearest to it,
    which is the literal's own value for an integer below [2 ^ 53]. *)
#[local] Unset Elimination Schemes.
Inductive value :=
| VUndefined
| VNull
| VBool (b : bool)
| VNum (mantissa exponent : Z)
| VStr (s : jsstring)
| VArr (elems : list value)
| VObj (props : list (jsstring * value)).
#[local] Set Elimination Schemes.

(** A computation that may throw is in the option monad: [None] is a thrown
    exception. *)

(** [try { body } catch (e) { handler }] *)
Definition tryCatch {A} (body handler : option A) : option A :=
  match body with
  | Some a => Some a
  | None => handler
  end.

(** The own property [k] of an object literal; a later duplicate of a key
    overrides an earlier one. *)
Fixpoint lookupProp (k : jsstring) (props : list (jsstring * value))
    : option value :=
  match props with
  | [] => None
  | (k', v) :: props' =>
      match lookupProp k props' with
      | Some v' => Some v'
      | None => if eqb k' k then Some v else None
      end
  end.

(** [v.k] for one of the property names the snapshot code reads ([i], [n],
    [a], [r], [sl], [s], [e], [p], [c]): none of them is defined on the
    prototypes of arrays, strings, numbers or booleans.  Reading a property
    of [null] or [undefined] throws. *)
Definition getProp (v : value) (k : jsstring) : option value :=
  match v with
  | VUndefined | VNull => None
  | VObj props => Some (default VUndefined (lookupProp k props))
  | _ => Some VUndefined
  end.

(** [k in v], for the same names: it throws unless [v] is an object. *)
Definition hasProp (k : jsstring) (v : value) : option bool :=
  match v with
  | VObj props => Some (bool_decide (is_Some (lookupProp k props)))
  | VArr _ => Some false
  | _ => None
  end.

(** The Number nearest to [m * 10 ^ e] is zero: the literal is at most
    [2 ^ -1075], half of the smallest Number above zero. *)
Definition isZero (m e : Z) : bool :=
  if 0 <=? e then m =? 0 else Z.abs m * 2 ^ 1075 <=? 10 ^ (- e).

Definition truthy (v : value) : bool :=
  match v with
  | VUndefined | VNull => false
  | VBool b => b
  | VNum m e => negb (isZero m e)
  | VStr s => negb (bool_decide (s = []))
  | VArr _ | VObj _ => true
  end.

(** [v.map(f)]: [v] has to be an array. *)
Definition arrayMap (v : value) (f : value -> option value) : option value :=
  match v with
  | VArr elems => elems' ← mapM f elems; Some (VArr elems')
  | _ => None
  end.

Definition unminifyAssignment (a : value) : option value :=
  i ← getProp a (js "i");
  r ← getProp a (js "r");
  sl ← getProp a (js "sl");
  s ← getProp a (js "s");
  e ← getProp a (js "e");
  p ← getProp a (js "p");
  c ← getProp a (js "c");
  Some (VObj [ (js "id", i);
               (js "role", r);
               (js "subLabel", if truthy sl then sl else VStr []);
               (js "startDate", s);
               (js "endDate", e);
               (js "progress", p);
               (js "color", c) ]).

Definition unminifyTask (t : value) : option value :=
  i ← getProp t (js "i");
  n ← getProp t (js "n");
  a ← getProp t (js "a");
  assignments ← arrayMap a unminifyAssignment;
  Some (VObj [ (js "id", i); (js "name", n); (js "assignments", assignments) ]).

Definition unminifyTasks (minified : value) : option value :=
  arrayMap minified unminifyTask.

(** The part of [decodeData] that follows [JSON.parse], inside the [try]. *)
Definition decodeParsed (parsed : value) : option value :=
  match parsed with
  | VArr [] => Some parsed
  | VArr (first :: _) =>
      hasN ← hasProp (js "n") first;
      hasA ← (if hasN then hasProp (js "a") first else Some false);
      if hasN && hasA then unminifyTasks parsed
      else Some parsed
  | _ => Some VNull
  end.

(** ** The built-ins [decodeData] calls *)

(** *** [window.atob]: forgiving base64 *)

Definition isAsciiWs (c : Z) : bool :=
  (c =? 9) || (c =? 10) || (c =? 12) || (c =? 13) || (c =? 32).

Definition sextet (c : Z) : option Z :=
  if (65 <=? c) && (c <=? 90) then Some (c - 65)
  else if (97 <=? c) && (c <=? 122) then Some (c - 71)
  else if (48 <=? c) && (c <=? 57) then Some (c + 4)
  else if c =? 43 then Some 62
  else if c =? 47 then Some 63
  else None.

(** Removes one or two [=] at the end of a string whose length is a
    multiple of four. *)
Definition stripPadding (s : jsstring) : jsstring :=
  if (Z.of_nat (length s) mod 4 =? 0) then
    match rev s with
    | 61 :: 61 :: r => rev r
    | 61 :: r => rev r
    | _ => s
    end
  else s.

Fixpoint decodeSextets (l : list Z) : list Z :=
  match l with
  | a :: b :: c :: d :: l' =>
      let n := ((a * 64 + b) * 64 + c) * 64 + d in
      n / 65536 :: (n / 256) mod 256 :: n mod 256 :: decodeSextets l'
  | [a; b; c] =>
      let n := (a * 64 + b) * 64 + c in
      [n / 1024; (n / 4) mod 256]
  | [a; b] => [(a * 64 + b) / 16]
  | _ => []
  end.

Definition atob (str : jsstring) : option jsstring :=
  let data := stripPadding (filter (fun c => negb (isAsciiWs c)) str) in
  if Z.of_nat (length data) mod 4 =? 1 then None
  else l ← mapM sextet data; Some (decodeSextets l).

(** *** [decodeURIComponent(escape(bin))]: the binary string read as UTF-8.
    [escape] leaves ASCII letters, digits and [@*_+-./] alone and writes
    every other byte as [%XX]; [decodeURIComponent] throws unless the
    escaped bytes are well-formed UTF-8. *)

Definition isCont (b : Z) : bool := (128 <=? b) && (b <=? 191).

Fixpoint utf8Decode (fuel : nat) (bytes : list Z) : option jsstring :=
  match fuel with
  | O => match bytes with [] => Some [] | _ => None end
  | S fuel' =>
      match bytes with
      | [] => Some []
      | b0 :: rest =>
          if b0 <? 128 then
            s ← utf8Decode fuel' rest; Some (b0 :: s)
          else if (194 <=? b0) && (b0 <=? 223) then
            match rest with
            | b1 :: rest' =>
                if isCont b1 then
                  s ← utf8Decode fuel' rest';
                  Some (((b0 - 192) * 64 + (b1 - 128)) :: s)
                else None
            | _ => None
            end
          else if (224 <=? b0) && (b0 <=? 239) then
            match rest with
            | b1 :: b2 :: rest' =>
                let cp := ((b0 - 224) * 64 + (b1 - 128)) * 64 + (b2 - 128) in
                if isCont b1 && isCont b2 && (2048 <=? cp)
                   && negb ((55296 <=? cp) && (cp <=? 57343)) then
                  s ← utf8Decode fuel' rest'; Some (cp :: s)
                else None
            | _ => None
            end
          else if (240 <=? b0) && (b0 <=? 244) then
            match rest with
            | b1 :: b2 :: b3 :: rest' =>
                let cp := (((b0 - 240) * 64 + (b1 - 128)) * 64 + (b2 - 128))
                          * 64 + (b3 - 128) in
                if isCont b1 && isCont b2 && isCont b3 && (65536 <=? cp)
                   && (cp <=? 1114111) then
                  s ← utf8Decode fuel' rest'; Some (utf16 cp ++ s)
                else None
            | _ => None
            end
          else None
      end
  end.

Definition decodeURIComponent_escape (bin : jsstring) : option jsstring :=
  utf8Decode (length bin) bin.

(** *** [JSON.parse] *)

Definition isJsonWs (c : Z) : bool :=
  (c =? 32) || (c =? 9) || (c =? 10) || (c =? 13).

Fixpoint skipWs (s : jsstring) : jsstring :=
  match s with
  | c :: s' => if isJsonWs c then skipWs s' else s
  | [] => []
  end.

Definition hexDigit (c : Z) : option Z :=
  if isDigit c then Some (c - 48)
  else if (97 <=? c) && (c <=? 102) then Some (c - 87)
  else if (65 <=? c) && (c <=? 70) then Some (c - 55)
  else None.

(** The character a two-character escape stands for. *)
Definition unescape (c : Z) : option Z :=
  if (c =? 34) || (c =? 92) || (c =? 47) then Some c
  else if c =? 98 then Some 8
  else if c =? 102 then Some 12
  else if c =? 110 then Some 10
  else if c =? 114 then Some 13
  else if c =? 116 then Some 9
  else None.

(** A string literal after its opening quote: the string and what follows
    the closing quote. *)
Fixpoint parseStringBody (fuel : nat) (s : jsstring)
    : option (jsstring * jsstring) :=
  match fuel with
  | O => None
  | S fuel' =>
      match s with
      | [] => None
      | c :: rest =>
          if c =? 34 then Some ([], rest)
          else if c =? 92 then
            match rest with
            | e :: rest' =>
                if e =? 117 then
                  match rest' with
                  | h1 :: h2 :: h3 :: h4 :: rest'' =>
                      a ← hexDigit h1; b ← hexDigit h2;
                      c ← hexDigit h3; d ← hexDigit h4;
                      '(str, r) ← parseStringBody fuel' rest'';
                      Some ((((a * 16 + b) * 16 + c) * 16 + d) :: str, r)
                  | _ => None
                  end
                else
                  u ← unescape e;
                  '(str, r) ← parseStringBody fuel' rest';
                  Some (u :: str, r)
            | [] => None
            end
          else if c <? 32 then None
          else '(str, r) ← parseStringBody fuel' rest; Some (c :: str, r)
      end
  end.

Fixpoint takeDigits (s : jsstring) : jsstring * jsstring :=
  match s with
  | c :: s' =>
      if isDigit c then let '(ds, r) := takeDigits s' in (c :: ds, r)
      else ([], s)
  | [] => ([], [])
  end.

(** A number literal: an optional minus sign, an integer part without a
    superfluous leading zero, an optional fraction and an optional
    exponent. *)
Definition parseNumber (s : jsstring) : option (value * jsstring) :=
  let '(negative, s1) :=
    match s with
    | c :: r => if c =? 45 then (true, r) else (false, s)
    | [] => (false, s)
    end in
  let '(int, s2) := takeDigits s1 in
  match int with
  | [] => None
  | d :: int' =>
      if (d =? 48) && negb (bool_decide (int' = [])) then None
      else
        '(frac, s3) ←
          match s2 with
          | c :: r =>
              if c =? 46 then
                let '(f, r') := takeDigits r in
                if bool_decide (f = []) then None else Some (f, r')
              else Some ([], s2)
          | [] => Some ([], s2)
          end;
        '(exponent, s4) ←
          match s3 with
          | c :: r =>
              if (c =? 101) || (c =? 69) then
                let '(sign, r1) :=
                  match r with
                  | g :: r' =>
                      if g =? 45 then (-1, r')
                      else if g =? 43 then (1, r') else (1, r)
                  | [] => (1, r)
                  end in
                let '(ds, r2) := takeDigits r1 in
                if bool_decide (ds = []) then None
                else Some (sign * parseDigits ds, r2)
              else Some (0, s3)
          | [] => Some (0, s3)
          end;
        let m := parseDigits (int ++ frac) in
        Some (VNum (if negative then - m else m)
                (exponent - Z.of_nat (length frac)), s4)
  end.

Definition literal (word : string) (v : value) (s : jsstring)
    : option (value * jsstring) :=
  if startsWith s (js word) then Some (v, drop (length (js word)) s)
  else None.

(** A value, the elements of an array after [[] or [,], and the members of
    an object after [{] or [,]; each returns what follows.  [fuel] bounds
    the number of nested calls, which is at most the number of characters. *)
Fixpoint parseValue (fuel : nat) (s : jsstring) : option (value * jsstring) :=
  match fuel with
  | O => None
  | S fuel' =>
      match skipWs s with
      | [] => None
      | c :: rest =>
          if c =? 34 then
            '(str, r) ← parseStringBody (S (length rest)) rest;
            Some (VStr str, r)
          else if c =? 91 then
            match skipWs rest with
            | c' :: r =>
                if c' =? 93 then Some (VArr [], r)
                else '(l, r') ← parseElements fuel' rest; Some (VArr l, r')
            | [] => None
            end
          else if c =? 123 then
            match skipWs rest with
            | c' :: r =>
                if c' =? 125 then Some (VObj [], r)
                else '(l, r') ← parseMembers fuel' rest; Some (VObj l, r')
            | [] => None
            end
          else if c =? 116 then literal "true" (VBool true) (c :: rest)
          else if c =? 102 then literal "false" (VBool false) (c :: rest)
          else if c =? 110 then literal "null" VNull (c :: rest)
          else parseNumber (c :: rest)
      end
  end
with parseElements (fuel : nat) (s : jsstring)
    : option (list value * jsstring) :=
  match fuel with
  | O => None
  | S fuel' =>
      '(v, r) ← parseValue fuel' s;
      match skipWs r with
      | c :: r' =>
          if c =? 44 then
            '(l, r'') ← parseElements fuel' r'; Some (v :: l, r'')
          else if c =? 93 then Some ([v], r')
          else None
      | [] => None
      end
  end
with parseMembers (fuel : nat) (s : jsstring)
    : option (list (jsstring * value) * jsstring) :=
  match fuel with
  | O => None
  | S fuel' =>
      match skipWs s with
      | q :: s1 =>
          if q =? 34 then
            '(k, s2) ← parseStringBody (S (length s1)) s1;
            match skipWs s2 with
            | colon :: s3 =>
                if colon =? 58 then
                  '(v, r) ← parseValue fuel' s3;
                  match skipWs r with
                  | c :: r' =>
                      if c =? 44 then
                        '(l, r'') ← parseMembers fuel' r';
                        Some ((k, v) :: l, r'')
                      else if c =? 125 then Some ([(k, v)], r')
                      else None
                  | [] => None
                  end
                else None
            | [] => None
            end
          else None
      | [] => None
      end
  end.

Definition JSON_parse (text : jsstring) : option value :=
  '(v, r) ← parseValue (2 * length text + 2) text;
  if bool_decide (skipWs r = []) then Some v else None.

(** ** [decodeData] *)

(** The first two statements of the [try] block: the snapshot string is
    decoded to JSON text and the text is parsed. *)
Definition parseSnapshot (str : jsstring) : option value :=
  bin ← atob str;
  json ← decodeURIComponent_escape bin;
  JSON_parse json.

Definition decodeData (str : jsstring) : option value :=
  tryCatch
    (parsed ← parseSnapshot str;
     decodeParsed parsed)
    (Some VNull).

(** ** The shapes of a snapshot *)














(** ** [encodeData] and the built-ins it calls *)

Definition minifyAssignment (a : value) : option value :=
  i ← getProp a (js "id");
  r ← getProp a (js "role");
  sl ← getProp a (js "subLabel");
  s ← getProp a (js "startDate");
  e ← getProp a (js "endDate");
  p ← getProp a (js "progress");
  c ← getProp a (js "color");
  Some (VObj [ (js "i", i); (js "r", r); (js "sl", sl); (js "s", s);
               (js "e", e); (js "p", p); (js "c", c) ]).

Definition minifyTask (t : value) : option value :=
  i ← getProp t (js "id");
  n ← getProp t (js "name");
  a ← getProp t (js "assignments");
  assignments ← arrayMap a minifyAssignment;
  Some (VObj [ (js "i", i); (js "n", n); (js "a", assignments) ]).

Definition minifyTasks (taskList : value) : option value :=
  arrayMap taskList minifyTask.

(** *** [JSON.stringify] *)

(** The decimal digits of [n >= 0]. *)
Definition decimal (n : Z) : jsstring :=
  digits (S (Z.to_nat (Z.log2 n))) n [].

(** [n = s * 10 ^ k] with [s] not a multiple of ten, for [n > 0]. *)
Fixpoint stripZeros (fuel : nat) (s k : Z) : Z * Z :=
  match fuel with
  | O => (s, k)
  | S fuel' =>
      if s mod 10 =? 0 then stripZeros fuel' (s / 10) (k + 1) else (s, k)
  end.

(** [Number::toString] of the number written [mantissa * 10 ^ exponent],
    for a literal whose digits are the shortest that give its Number back:
    an integer below [2 ^ 53], or a numeral of at most 15 significant
    digits within the range of the doubles.  With [k] digits [ds] and the
    decimal point after [n] of them, the number is written plainly when
    [-6 < n <= 21] and with an exponent otherwise. *)
Definition numberToString (mantissa exponent : Z) : jsstring :=
  if mantissa =? 0 then js "0"
  else
    let '(s, e) :=
      stripZeros (S (Z.to_nat (Z.log2 (Z.abs mantissa)))) (Z.abs mantissa)
        exponent in
    let ds := decimal s in
    let k := Z.of_nat (length ds) in
    let n := k + e in
    (if mantissa <? 0 then js "-" else [])
    ++ (if (k <=? n) && (n <=? 21) then ds ++ repeat 48 (Z.to_nat (n - k))
        else if (0 <? n) && (n <=? 21) then
          take (Z.to_nat n) ds ++ js "." ++ drop (Z.to_nat n) ds
        else if (-6 <? n) && (n <=? 0) then
          js "0." ++ repeat 48 (Z.to_nat (- n)) ++ ds
        else
          let e' := n - 1 in
          let exp := (if e' <? 0 then js "-" else js "+")
                     ++ decimal (Z.abs e') in
          match ds with
          | [] => []
          | [d] => d :: js "e" ++ exp
          | d :: ds' => d :: js "." ++ ds' ++ js "e" ++ exp
          end).

Definition hexChar (n : Z) : Z := if n <? 10 then 48 + n else 87 + n.

(** [UnicodeEscape]: a backslash, [u] and four lowercase hexadecimal
    digits. *)
Definition unicodeEscape (c : Z) : jsstring :=
  [92; 117; hexChar (c / 4096); hexChar ((c / 256) mod 16);
   hexChar ((c / 16) mod 16); hexChar (c mod 16)].

Definition isLeadingSurrogate (c : Z) : bool := (55296 <=? c) && (c <=? 56319).
Definition isTrailingSurrogate (c : Z) : bool := (56320 <=? c) && (c <=? 57343).

(** What [QuoteJSONString] writes between the quotes: a two-character
    escape for backspace, tab, line feed, form feed, carriage return, the
    quote and the backslash, a [UnicodeEscape] for the other control
    characters and for a surrogate without its partner, and every other
    code point as it is. *)
Fixpoint quoteBody (s : jsstring) : jsstring :=
  match s with
  | [] => []
  | c :: rest =>
      if c =? 8 then 92 :: 98 :: quoteBody rest
      else if c =? 9 then 92 :: 116 :: quoteBody rest
      else if c =? 10 then 92 :: 110 :: quoteBody rest
      else if c =? 12 then 92 :: 102 :: quoteBody rest
      else if c =? 13 then 92 :: 114 :: quoteBody rest
      else if c =? 34 then 92 :: 34 :: quoteBody rest
      else if c =? 92 then 92 :: 92 :: quoteBody rest
      else if c <? 32 then unicodeEscape c ++ quoteBody rest
      else if isLeadingSurrogate c then
        match rest with
        | d :: rest' =>
            if isTrailingSurrogate d then c :: d :: quoteBody rest'
            else unicodeEscape c ++ quoteBody rest
        | [] => unicodeEscape c
        end
      else if isTrailingSurrogate c then unicodeEscape c ++ quoteBody rest
      else c :: quoteBody rest
  end.

Definition quoteJSONString (s : jsstring) : jsstring :=
  34 :: quoteBody s ++ [34].

(** [parts.join(',')] *)
Fixpoint joinComma (parts : list jsstring) : jsstring :=
  match parts with
  | [] => []
  | [p] => p
  | p :: parts' => p ++ 44 :: joinComma parts'
  end.

(** The own property keys of an object built by adding the properties
    [keys] one after the other: each key once, where it came first, the
    array indices before the others and in ascending order. *)
Definition ownKeys (keys : list jsstring) : list jsstring :=
  let once :=
    fold_left (fun acc k => if existsb (eqb k) acc then acc else acc ++ [k])
      keys [] in
  sort (fun a b => parseDigits a - parseDigits b)
    (List.filter GanttChart.isArrayIndex once)
  ++ List.filter (fun k => negb (GanttChart.isArrayIndex k)) once.

(** The value under [k]; a later duplicate of a key overrides an earlier
    one, as in [lookupProp]. *)
Fixpoint lookupLast {A} (k : jsstring) (props : list (jsstring * A))
    : option A :=
  match props with
  | [] => None
  | (k', v) :: props' =>
      match lookupLast k props' with
      | Some v' => Some v'
      | None => if eqb k' k then Some v else None
      end
  end.

(** [SerializeJSONProperty]: the text of a value, [None] for [undefined],
    which is left out of an object and written [null] in an array. *)
Fixpoint serializeJSON (v : value) : option jsstring :=
  match v with
  | VUndefined => None
  | VNull => Some (js "null")
  | VBool true => Some (js "true")
  | VBool false => Some (js "false")
  | VNum m e => Some (numberToString m e)
  | VStr s => Some (quoteJSONString s)
  | VArr elems =>
      Some (91 :: joinComma
                    (map (fun x => default (js "null") (serializeJSON x)) elems)
               ++ [93])
  | VObj props =>
      let written := map (fun kv => (fst kv, serializeJSON (snd kv))) props in
      Some (123 :: joinComma
                     (omap (fun k =>
                        text ← mjoin (lookupLast k written);
                        Some (quoteJSONString k ++ 58 :: text))
                        (ownKeys (map fst props)))
                ++ [125])
  end.

(** [JSON.stringify(v)] as [encodeURIComponent] reads it: the text, or the
    string [undefined] for a value that has none. *)
Definition JSON_stringify (v : value) : jsstring :=
  default (js "undefined") (serializeJSON v).

(** *** [unescape(encodeURIComponent(text))]: the UTF-8 bytes of the text,
    one character each.  [encodeURIComponent] writes the bytes of every code
    point but the unreserved ASCII characters as [%XX] and throws on a
    surrogate without its partner; [unescape] reads the [%XX] back. *)
Fixpoint utf8Encode (s : jsstring) : option jsstring :=
  match s with
  | [] => Some []
  | c :: rest =>
      if c <? 128 then bin ← utf8Encode rest; Some (c :: bin)
      else if c <? 2048 then
        bin ← utf8Encode rest;
        Some (192 + c / 64 :: 128 + c mod 64 :: bin)
      else if isLeadingSurrogate c then
        match rest with
        | d :: rest' =>
            if isTrailingSurrogate d then
              let cp := (c - 55296) * 1024 + (d - 56320) + 65536 in
              bin ← utf8Encode rest';
              Some (240 + cp / 262144 :: 128 + (cp / 4096) mod 64
                    :: 128 + (cp / 64) mod 64 :: 128 + cp mod 64 :: bin)
            else None
        | [] => None
        end
      else if isTrailingSurrogate c then None
      else
        bin ← utf8Encode rest;
        Some (224 + c / 4096 :: 128 + (c / 64) mod 64 :: 128 + c mod 64 :: bin)
  end.

(** *** [btoa] *)

Definition base64Char (n : Z) : Z :=
  if n <? 26 then 65 + n
  else if n <? 52 then 71 + n
  else if n <? 62 then n - 4
  else if n =? 62 then 43
  else 47.

Fixpoint encodeTriples (l : list Z) : jsstring :=
  match l with
  | a :: b :: c :: l' =>
      base64Char (a / 4) :: base64Char ((a mod 4) * 16 + b / 16)
      :: base64Char ((b mod 16) * 4 + c / 64) :: base64Char (c mod 64)
      :: encodeTriples l'
  | [a; b] =>
      [base64Char (a / 4); base64Char ((a mod 4) * 16 + b / 16);
       base64Char ((b mod 16) * 4); 61]
  | [a] => [base64Char (a / 4); base64Char ((a mod 4) * 16); 61; 61]
  | [] => []
  end.

(** [btoa] throws on a character above 255. *)
Definition btoa (bin : jsstring) : option jsstring :=
  if forallb (fun c => c <=? 255) bin then Some (encodeTriples bin) else None.

Definition encodeData (data : value) : jsstring :=
  default []
    (minified ← minifyTasks data;
     let json := JSON_stringify minified in
     bin ← utf8Encode json;
     btoa bin).

(** ** The collection as the values the snapshot code reads *)

(** [YYYY-MM-DD] of a date of the years 0 to 9999. *)
Definition pad (width : nat) (n : Z) : jsstring :=
  let ds := decimal n in repeat 48 (width - length ds) ++ ds.

Definition dateString (d : DateUtils.date) : jsstring :=
  let '(y, m, dd) := DateUtils.toISODate d in
  pad 4 y ++ js "-" ++ pad 2 m ++ js "-" ++ pad 2 dd.

Definition assignmentValue (a : Types.TaskAssignment) : value :=
  VObj [ (js "id", VStr (Types.assign_id a));
         (js "role", VStr (Types.role a));
         (js "subLabel",
          match Types.subLabel a with Some s => VStr s | None => VUndefined end);
         (js "startDate", VStr (dateString (Types.startDate a)));
         (js "endDate", VStr (dateString (Types.endDate a)));
         (js "progress", VNum (Types.progress a) 0);
         (js "color", VStr (Types.color a)) ].

Definition taskValue (t : Types.Task) : value :=
  VObj [ (js "id", VStr (Types.task_id t));
         (js "name", VStr (Types.name t));
         (js "assignments", VArr (map assignmentValue (Types.assignments t))) ].

Definition tasksValue (ts : list Types.Task) : value :=
  VArr (map taskValue ts).


(** ** What [JSON.parse(JSON.stringify(v))] makes of a value *)

(** An [undefined] in an array is written [null] and an [undefined]
    property is left out. *)
Fixpoint prune (v : value) : value :=
  match v with
  | VArr elems =>
      VArr (map (fun x => match x with VUndefined => VNull | _ => prune x end)
              elems)
  | VObj props =>
      VObj (omap (fun kv =>
              match snd kv with
              | VUndefined => None
              | _ => Some (fst kv, prune (snd kv))
              end) props)
  | _ => v
  end.

Definition isUnit (c : Z) : bool := (0 <=? c) && (c <? 65536).

(** The values the properties of the serialisation are stated for: the
    strings are strings of 16-bit code units, the numbers are integers
    below [2 ^ 53] in absolute value, which are Numbers and are written
    with all their digits, and the keys of an object are pairwise
    different and no array indices, so that they are enumerated in the
    order in which they were written. *)
Fixpoint plain (v : value) : bool :=
  match v with
  | VUndefined | VNull | VBool _ => true
  | VNum m e => (e =? 0) && (Z.abs m <? 2 ^ 53)
  | VStr s => forallb isUnit s
  | VArr elems => forallb plain elems
  | VObj props =>
      forallb (fun kv => forallb isUnit (fst kv)
                         && negb (GanttChart.isArrayIndex (fst kv))
                         && plain (snd kv)) props
      && bool_decide (NoDup (map fst props))
  end.

(** A feature collection whose strings are strings of code units and whose
    progress values are integers below [2 ^ 53] in absolute value. *)
Definition plainAssignment (a : Types.TaskAssignment) : bool :=
  forallb isUnit (Types.assign_id a) && forallb isUnit (Types.role a)
  && forallb isUnit (default [] (Types.subLabel a))
  && forallb isUnit (Types.color a)
  && (Z.abs (Types.progress a) <? 2 ^ 53).

Definition plainTask (t : Types.Task) : bool :=
  forallb isUnit (Types.task_id t) && forallb isUnit (Types.name t)
  && forallb plainAssignment (Types.assignments t).

(** [subLabel: a.sl || ''] *)
Definition withSubLabel (a : Types.TaskAssignment) : Types.TaskAssignment :=
  {| Types.assign_id := Types.assign_id a; Types.role := Types.role a;
     Types.subLabel := Some (default [] (Types.subLabel a));
     Types.startDate := Types.startDate a; Types.endDate := Types.endDate a;
     Types.progress := Types.progress a; Types.color := Types.color a |}.

Definition unminified (t : Types.Task) : Types.Task :=
  {| Types.task_id := Types.task_id t; Types.name := Types.name t;
     Types.assignments := map withSubLabel (Types.assignments t) |}.

(** [s.isWellFormed()]: no surrogate without its partner. *)
Fixpoint isWellFormed (s : jsstring) : bool :=
  match s with
  | [] => true
  | c :: rest =>
      if isLeadingSurrogate c then
        match rest with
        | d :: rest' => isTrailingSurrogate d && isWellFormed rest'
        | [] => false
        end
      else negb (isTrailingSurrogate c) && isWellFormed rest
  end.

(** A byte, as a character of a binary string. *)
Definition isByte (c : Z) : Prop := 0 <= c <= 255.

(** The six-bit groups of a byte string, and the padding [btoa] ends its
    text with. *)
Fixpoint sextets (l : list Z) : list Z :=
  match l with
  | a :: b :: c :: l' =>
      a / 4 :: (a mod 4) * 16 + b / 16 :: (b mod 16) * 4 + c / 64 :: c mod 64
      :: sextets l'
  | [a; b] => [a / 4; (a mod 4) * 16 + b / 16; (b mod 16) * 4]
  | [a] => [a / 4; (a mod 4) * 16]
  | [] => []
  end.

Definition padding (l : list Z) : jsstring :=
  match (length l mod 3)%nat with
  | 1%nat => [61; 61]
  | 2%nat => [61]
  | _ => []
  end.

Definition noSurrogate (c : Z) : bool :=
  negb (isLeadingSurrogate c) && negb (isTrailingSurrogate c).

(** What may follow a value in a JSON text: nothing, a comma or a closing
    bracket. *)
Definition delimited (rest : jsstring) : Prop :=
  match rest with
  | [] => True
  | c :: _ => c = 44 \/ c = 93 \/ c = 125
  end.

(** The text written for an element of an array. *)
Definition elementText (v : value) : jsstring :=
  default (js "null") (serializeJSON v).

(** The value read back from it. *)
Definition elementValue (v : value) : value :=
  match v with VUndefined => VNull | _ => prune v end.

Definition isUndefined (v : value) : bool :=
  match v with VUndefined => true | _ => false end.

(** The number of values and of array and object entries that are written
    for a value: it bounds the depth of the calls of the parser. *)
Fixpoint nodes (v : value) : nat :=
  match v with
  | VArr elems => S (list_sum (map (fun x => S (nodes x)) elems))
  | VObj props =>
      S (list_sum (map (fun kv =>
                     match snd kv with
                     | VUndefined => O
                     | _ => S (nodes (snd kv))
                     end) props))
  | _ => 1%nat
  end.

(** A text whose first character is no white space and closes no array or
    object. *)
Definition opens (text : jsstring) : Prop :=
  exists c text', text = c :: text' /\ isJsonWs c = false
                  /\ c <> 93 /\ c <> 125.

(** The text written for a property of an object. *)
Definition memberText (kv : jsstring * value) : jsstring :=
  quoteJSONString (fst kv) ++ 58 :: elementText (snd kv).

(** The properties that are written: those whose value is not
    [undefined]. *)
Definition definedProps (props : list (jsstring * value))
    : list (jsstring * value) :=
  List.filter (fun kv => negb (isUndefined (snd kv))) props.

(** The minified collection as values. *)
Definition minifiedAssignmentValue (a : Types.TaskAssignment) : value :=
  VObj [ (js "i", VStr (Types.assign_id a));
         (js "r", VStr (Types.role a));
         (js "sl",
          match Types.subLabel a with Some s => VStr s | None => VUndefined end);
         (js "s", VStr (dateString (Types.startDate a)));
         (js "e", VStr (dateString (Types.endDate a)));
         (js "p", VNum (Types.progress a) 0);
         (js "c", VStr (Types.color a)) ].

Definition minifiedTaskValue (t : Types.Task) : value :=
  VObj [ (js "i", VStr (Types.task_id t));
         (js "n", VStr (Types.name t));
         (js "a", VArr (map minifiedAssignmentValue (Types.assignments t))) ].

(** ** The board: the collection, the filter and the handlers *)

Record BoardState := {
  board_tasks : list Types.Task;
  isReadOnly : bool;
  filterText : jsstring;
  editingTask : option Types.Task
}.

(** A string that is not empty is truthy. *)
Definition nonEmpty (s : jsstring) : bool :=
  match s with [] => false | _ :: _ => true end.

Definition withColor (a : Types.TaskAssignment) (newColor : jsstring)
    : Types.TaskAssignment :=
  {| Types.assign_id := Types.assign_id a; Types.role := Types.role a;
     Types.subLabel := Types.subLabel a;
     Types.startDate := Types.startDate a; Types.endDate := Types.endDate a;
     Types.progress := Types.progress a; Types.color := newColor |}.

Section WithUnicode.
Context {U : Unicode}.

(** The test of [tasks.filter] in [filteredTasks]. *)
Definition matchesFilter (text : jsstring) (t : Types.Task) : bool :=
  let matchName :=
    includes (toLowerCase (Types.name t)) (toLowerCase text) in
  let matchRole :=
    existsb (fun a => includes (toLowerCase (Types.role a)) (toLowerCase text))
      (Types.assignments t) in
  matchName || matchRole.

Definition filteredTasks (st : BoardState) : list Types.Task :=
  List.filter (matchesFilter (filterText st)) (board_tasks st).

(** [avgProgress]; the progress values are Numbers that hold integers, and
    the sums and the quotient are those of Numbers. *)
Definition avgProgress (st : BoardState) : Z :=
  let totalAssignments :=
    fold_left (fun acc t => plus acc (Z.of_nat (length (Types.assignments t))))
      (filteredTasks st) 0 in
  let totalProgress :=
    fold_left (fun acc t =>
      let taskTotal :=
        fold_left (fun sum a => plus sum (Types.progress a))
          (Types.assignments t) 0 in
      plus acc taskTotal) (filteredTasks st) 0 in
  if totalAssignments >? 0
  then Math_round (divide totalProgress totalAssignments)
  else 0.

Definition withTasks (st : BoardState) (newTasks : list Types.Task)
    : BoardState :=
  {| board_tasks := newTasks; isReadOnly := isReadOnly st;
     filterText := filterText st; editingTask := editingTask st |}.

Definition handleTaskReorder (st : BoardState) (newTasks : list Types.Task)
    : BoardState :=
  if isReadOnly st then st else withTasks st newTasks.

(** The key under which [handleSaveTask] records and looks up a role. *)
Definition roleKey (role : jsstring) : jsstring := toLowerCase (trim role).

(** The [Map] filled by the first [forEach] of [handleSaveTask]. *)
Definition roleColorUpdates (task : Types.Task) : gmap jsstring jsstring :=
  fold_left (fun updates a =>
    if nonEmpty (Types.role a) && nonEmpty (Types.color a)
    then <[roleKey (Types.role a) := Types.color a]> updates
    else updates) (Types.assignments task) ∅.

Definition syncColor (updates : gmap jsstring jsstring)
    (a : Types.TaskAssignment) : Types.TaskAssignment :=
  match updates !! roleKey (Types.role a) with
  | Some newColor =>
      if nonEmpty newColor && negb (eqb (Types.color a) newColor)
      then withColor a newColor
      else a
  | None => a
  end.

Definition handleSaveTask (st : BoardState) (task : Types.Task) : BoardState :=
  if isReadOnly st then st
  else
    let updates := roleColorUpdates task in
    let newTasks :=
      match editingTask st with
      | Some _ =>
          map (fun t => if eqb (Types.task_id t) (Types.task_id task)
                        then task else t) (board_tasks st)
      | None => board_tasks st ++ [task]
      end in
    let newTasks :=
      if (0 <? size updates)%nat then
        map (fun t => GanttChart.withAssignments t
                        (map (syncColor updates) (Types.assignments t)))
          newTasks
      else newTasks in
    {| board_tasks := newTasks; isReadOnly := isReadOnly st;
       filterText := filterText st; editingTask := None |}.

(** [handleConfirmAction] for the action [DELETE_TASK] with the id
    [payload]. *)
Definition handleDeleteTask (st : BoardState) (payload : jsstring)
    : BoardState :=
  if isReadOnly st then st
  else
    {| board_tasks :=
         List.filter (fun t => negb (eqb (Types.task_id t) payload))
           (board_tasks st);
       isReadOnly := isReadOnly st; filterText := filterText st;
       editingTask := None |}.

(** The props the board passes to the chart. *)
Definition chartProps (st : BoardState) (groupBy : Types.GroupBy)
    : GanttChart.Props :=
  {| GanttChart.tasks := filteredTasks st;
     GanttChart.groupBy := groupBy;
     GanttChart.readOnly := isReadOnly st;
     GanttChart.hasOnTaskReorder := true |}.

(** An assignment that [handleSaveTask] records: its role and its colour
    are not empty. *)
Definition recorded (a : Types.TaskAssignment) : bool :=
  nonEmpty (Types.role a) && nonEmpty (Types.color a).

(** What the colour synchronisation may change of an assignment: the
    colour. *)
Definition sameButColor (a a' : Types.TaskAssignment) : Prop :=
  Types.assign_id a' = Types.assign_id a /\ Types.role a' = Types.role a
  /\ Types.subLabel a' = Types.subLabel a
  /\ Types.startDate a' = Types.startDate a
  /\ Types.endDate a' = Types.endDate a
  /\ Types.progress a' = Types.progress a.

(** The collection before the colours are synchronised: the saved feature
    takes the place of every feature with its id when a feature is being
    edited, and is appended otherwise. *)
Definition savedTasks (st : BoardState) (task : Types.Task)
    : list Types.Task :=
  match editingTask st with
  | Some _ =>
      map (fun t => if eqb (Types.task_id t) (Types.task_id task)
                    then task else t) (board_tasks st)
  | None => board_tasks st ++ [task]
  end.

End WithUnicode.

End ProjectBoard.

(* ===================================================================== *)
(** * Scenarios *)
(* ===================================================================== *)

(** Concrete boards on which the properties below are exercised. *)
Module Scenario.
Import JS DateUtils Types GanttChart.

Definition assignment (id_ role_ : string) (start end_ : date)
    : TaskAssignment :=
  {| assign_id := js id_; role := js role_; subLabel := None;
     startDate := start; endDate := end_;
     progress := 0; color := js "bg-blue-500" |}.

(** The feature of the specification's scenario: one assignment on
    Thursday 2025-01-02 and Friday 2025-01-03. *)
Definition loginAssign : TaskAssignment :=
  assignment "login-fe" "FE" (ymd 2025 1 2) (ymd 2025 1 3).

Definition loginTask : Task :=
  {| task_id := js "login"; name := js "登入"; assignments := [loginAssign] |}.

(** A bar of more than a year: Monday 2027-01-04 to Thursday 2028-07-20,
    404 working days in years without listed holidays. *)
Definition longAssign : TaskAssignment :=
  assignment "long-be" "BE" (ymd 2027 1 4) (ymd 2028 7 20).

Definition longTask : Task :=
  {| task_id := js "long"; name := js "Platform"; assignments := [longAssign] |}.

(** A feature with three assignments, one of them for the whole RD team
    and one for everybody. *)
Definition checkoutTask : Task :=
  {| task_id := js "checkout"; name := js "Checkout";
     assignments :=
       [ assignment "co-pm" "PM" (ymd 2025 1 6) (ymd 2025 1 7);
         assignment "co-rd" "rd" (ymd 2025 1 8) (ymd 2025 1 14);
         assignment "co-all" "ALL" (ymd 2025 1 15) (ymd 2025 1 15) ] |}.

(** A feature of a building project, with one assignment to the
    constructor. *)
Definition siteAssign : TaskAssignment :=
  assignment "site-1" "constructor" (ymd 2025 1 6) (ymd 2025 1 10).

Definition siteTask : Task :=
  {| task_id := js "site"; name := js "Site"; assignments := [siteAssign] |}.

Definition board (ts : list Task) (g : GroupBy) (ro : bool) : Props :=
  {| tasks := ts; groupBy := g; readOnly := ro; hasOnTaskReorder := true |}.

Definition editable : Props :=
  board [loginTask; longTask; checkoutTask] GroupBy_None false.

Definition snapshot : Props :=
  board [loginTask; longTask; checkoutTask] GroupBy_None true.

Definition loginHeader : RenderRow := featureHeader loginTask.
Definition loginBar : RenderRow := featureLeaf None loginTask loginAssign.
Definition longBar : RenderRow := featureLeaf None longTask longAssign.
Definition checkoutHeader : RenderRow := featureHeader checkoutTask.

(** The state after a pointer-down at x = 100 on a bar. *)
Definition armed (p : Props) (row : RenderRow) : State :=
  fst (handleBarMouseDown p initialState row 100).

(** A board under the filter text [check], with the feature [login] open
    in the form. *)
Definition savingBoard : ProjectBoard.BoardState :=
  {| ProjectBoard.board_tasks := [loginTask; checkoutTask];
     ProjectBoard.isReadOnly := false;
     ProjectBoard.filterText := js "check";
     ProjectBoard.editingTask := Some loginTask |}.

(** The feature [login] as the form saves it. *)
Definition savedLogin : Task :=
  {| task_id := js "login"; name := js "Sign in";
     assignments :=
       [ {| assign_id := js "login-pm"; role := js " pm "; subLabel := None;
            startDate := ymd 2025 1 2; endDate := ymd 2025 1 3;
            progress := 40; color := js "bg-rose-500" |} ] |}.

End Scenario.

(* ===================================================================== *)
(** * Properties of the calendar arithmetic *)
(* ===================================================================== *)

Import DateUtils.

(** The off-day test of [calculateWorkingDays] (weekday 0 or 6, or a
    holiday) and the one of [calculateEndDate] ([isWeekend] or [isHoliday])
    are the same test. *)
Lemma isOffDay_isWorkingDay d :
  negb ((getDay d =? 0) || (getDay d =? 6) || isHoliday d) = isWorkingDay d.
Proof. reflexivity. Qed.

Lemma countWorking_S n a :
  countWorking (S n) a = (if isWorkingDay a then 1 else 0) + countWorking n (a + 1).
Proof. reflexivity. Qed.

Lemma countWorking_bounds n a : 0 <= countWorking n a <= Z.of_nat n.
Proof.
  revert a. induction n as [|n IH]; intros a.
  - simpl. lia.
  - rewrite countWorking_S. specialize (IH (a + 1)).
    destruct (isWorkingDay a); lia.
Qed.

Lemma countWorking_app n m a :
  countWorking (n + m) a = countWorking n a + countWorking m (a + Z.of_nat n).
Proof.
  revert a. induction n as [|n IH]; intros a.
  - simpl. rewrite Z.add_0_r. reflexivity.
  - change (S n + m)%nat with (S (n + m)). rewrite !countWorking_S, IH.
    replace (a + 1 + Z.of_nat n) with (a + Z.of_nat (S n)) by lia. lia.
Qed.

Lemma countWorking_snoc n a :
  countWorking (S n) a =
  countWorking n a + (if isWorkingDay (a + Z.of_nat n) then 1 else 0).
Proof.
  replace (S n) with (n + 1)%nat by lia. rewrite countWorking_app.
  simpl. lia.
Qed.

Lemma countWorking_mono n m a :
  (n <= m)%nat -> countWorking n a <= countWorking m a.
Proof.
  intros H. replace m with (n + (m - n))%nat by lia.
  rewrite countWorking_app.
  pose proof (countWorking_bounds (m - n) (a + Z.of_nat n)). lia.
Qed.

(** When all [n] dates are working days, all of them count. *)
Lemma countWorking_all n a :
  (forall j, 0 <= j < Z.of_nat n -> isWorkingDay (a + j) = true) ->
  countWorking n a = Z.of_nat n.
Proof.
  revert a. induction n as [|n IH]; intros a H.
  - reflexivity.
  - rewrite countWorking_S, IH.
    + specialize (H 0). rewrite Z.add_0_r in H. rewrite H by lia. lia.
    + intros j Hj. replace (a + 1 + j) with (a + (j + 1)) by lia.
      apply H. lia.
Qed.

(** The while loop adds to [count] the working days among the dates it
    visits: the first [fuel] dates of [curDate..endDate]. *)
Lemma calculateWorkingDays_loop_count fuel curDate endDate count :
  calculateWorkingDays_loop fuel curDate endDate count =
  count + countWorking (Nat.min fuel (Z.to_nat (endDate - curDate + 1))) curDate.
Proof.
  revert curDate count. induction fuel as [|fuel IH]; intros curDate count.
  - simpl. lia.
  - cbn [calculateWorkingDays_loop].
    destruct (Z.leb_spec curDate endDate) as [Hle|Hgt].
    + rewrite IH.
      replace (Z.to_nat (endDate - curDate + 1))
        with (S (Z.to_nat (endDate - (curDate + 1) + 1))) by lia.
      rewrite <- Nat.succ_min_distr, countWorking_S.
      rewrite isOffDay_isWorkingDay.
      destruct (isWorkingDay curDate); lia.
    + replace (Z.to_nat (endDate - curDate + 1)) with 0%nat by lia.
      rewrite Nat.min_0_r. simpl. lia.
Qed.

(** The loop leaves through its condition, not through the bound of the
    model: any number of iterations from [end_ - start + 1] on gives the
    same count. *)
Lemma calculateWorkingDays_loop_enough fuel start end_ :
  (Z.to_nat (end_ - start + 1) <= fuel)%nat ->
  calculateWorkingDays_loop fuel start end_ 0 = calculateWorkingDays start end_.
Proof.
  intros H. unfold calculateWorkingDays.
  rewrite !calculateWorkingDays_loop_count.
  rewrite Nat.min_r by exact H. rewrite Nat.min_id. reflexivity.
Qed.

Lemma calculateWorkingDays_count start end_ :
  calculateWorkingDays start end_ =
  countWorking (Z.to_nat (end_ - start + 1)) start.
Proof.
  unfold calculateWorkingDays. rewrite calculateWorkingDays_loop_count.
  rewrite Nat.min_id. lia.
Qed.

(** The count over [start..start+k] in terms of [countWorking]. *)
Lemma calculateWorkingDays_offset start (k : nat) :
  calculateWorkingDays start (start + Z.of_nat k) = countWorking (S k) start.
Proof.
  rewrite calculateWorkingDays_count. f_equal. lia.
Qed.

(** What the for loop of [calculateEndDate] returns when it is entered with
    fewer worked days than required: either the first of the dates it scans
    at which the count reaches the requirement, or, when none of the
    [iters] dates does, the last date it scanned. *)
Lemma calculateEndDate_loop_spec iters currentDate workedDays required last :
  workedDays < required ->
  (exists k : nat,
      (k < iters)%nat /\
      calculateEndDate_loop iters currentDate workedDays required last
        = currentDate + Z.of_nat k /\
      workedDays + countWorking (S k) currentDate = required /\
      forall j : nat, (j < k)%nat ->
        workedDays + countWorking (S j) currentDate < required)
  \/ (workedDays + countWorking iters currentDate < required /\
      calculateEndDate_loop iters currentDate workedDays required last
        = match iters with
          | O => last
          | S n => currentDate + Z.of_nat n
          end).
Proof.
  revert currentDate workedDays last.
  induction iters as [|iters IH]; intros cur w last Hlt.
  - right. simpl. split; [lia | reflexivity].
  - cbn [calculateEndDate_loop].
    change (negb (isWeekend cur || isHoliday cur)) with (isWorkingDay cur).
    set (w' := if isWorkingDay cur then w + 1 else w).
    assert (Hw' : w' = w + countWorking 1 cur).
    { unfold w'. simpl. destruct (isWorkingDay cur); lia. }
    destruct (Z.geb_spec w' required) as [Hge|Hlt'].
    + left. exists 0%nat. repeat split; [lia | lia | | intros j Hj; lia].
      unfold w' in *. destruct (isWorkingDay cur); simpl in *; lia.
    + destruct (IH (cur + 1) w' cur Hlt') as
        [(k & Hk & Hres & Hcnt & Hmin) | (Hcnt & Hres)].
      * left. exists (S k). repeat split.
        -- lia.
        -- rewrite Hres. lia.
        -- rewrite (countWorking_S (S k)). simpl in Hw'. lia.
        -- intros [|j] Hj.
           ++ simpl in *. lia.
           ++ rewrite (countWorking_S (S j)).
              specialize (Hmin j ltac:(lia)). simpl in Hw'. lia.
      * right. split.
        -- rewrite countWorking_S. simpl in Hw'. lia.
        -- rewrite Hres. destruct iters; lia.
Qed.

(** Between 1970-01-01 and 2099-12-31 the day numbers and the dates of the
    calendar correspond one to one: a day number reads as a valid date that
    parses back to it. *)
Lemma readsBack_1970_2099 (z : date) :
  ymd 1970 1 1 <= z < ymd 2100 1 1 -> readsBack z = true.
Proof.
  assert (Hfrom : forall n a, readBackFrom n a = true ->
            forall k, a <= k < a + Z.of_nat n -> readsBack k = true).
  { induction n as [|n IH]; intros a H k Hk; [lia|].
    cbn [readBackFrom] in H. apply andb_true_iff in H as [Ha H].
    destruct (Z.eq_dec k a) as [->|Hne]; [exact Ha|].
    apply (IH (a + 1) H). lia. }
  assert (Hall : readBackFrom (Z.to_nat (ymd 2100 1 1)) (ymd 1970 1 1) = true)
    by (vm_compute; reflexivity).
  intros Hz. apply (Hfrom _ _ Hall).
  change (ymd 1970 1 1) with 0 in *. change (ymd 2100 1 1) with 47482 in *.
  lia.
Qed.

(** The holiday table, read back as dates. *)
Example TAIWAN_HOLIDAYS_dates :
  map toISODate TAIWAN_HOLIDAYS
  = [ (2025, 1, 1); (2025, 1, 27); (2025, 1, 28); (2025, 1, 29); (2025, 1, 30);
      (2025, 1, 31); (2025, 2, 28); (2025, 4, 3); (2025, 4, 4); (2025, 5, 30);
      (2025, 10, 6); (2025, 10, 10); (2026, 1, 1); (2026, 2, 16); (2026, 2, 17);
      (2026, 2, 18); (2026, 2, 19); (2026, 2, 20); (2026, 2, 27); (2026, 4, 3);
      (2026, 4, 6); (2026, 6, 19); (2026, 9, 25); (2026, 10, 9) ].
Proof. reflexivity. Qed.

(** [calculateWorkingDays d d] is 0 or 1, and the count does not decrease
    when the end advances by a day. *)
Lemma calculateWorkingDays_same_day d :
  calculateWorkingDays d d = if isWorkingDay d then 1 else 0.
Proof.
  rewrite calculateWorkingDays_count.
  replace (Z.to_nat (d - d + 1)) with 1%nat by lia.
  simpl. lia.
Qed.

Lemma calculateWorkingDays_monotone start end_ :
  calculateWorkingDays start end_ <= calculateWorkingDays start (end_ + 1).
Proof.
  rewrite !calculateWorkingDays_count. apply countWorking_mono. lia.
Qed.

(** When the 365 dates from [start] hold at least [required] working days,
    the scan stops at a working day, within those dates, up to which
    exactly [required] working days are counted. *)
Lemma calculateEndDate_reached start required :
  0 < required ->
  required <= countWorking 365 start ->
  exists k : nat,
    (k < 365)%nat /\
    calculateEndDate start required = start + Z.of_nat k /\
    countWorking (S k) start = required /\
    forall j : nat, (j < k)%nat -> countWorking (S j) start < required.
Proof.
  intros Hpos Hle. unfold calculateEndDate.
  destruct (Z.leb_spec required 0) as [?|_]; [lia|].
  destruct (calculateEndDate_loop_spec 365 start 0 required start Hpos)
    as [(k & Hk & Hres & Hcnt & Hmin) | (Hcnt & _)]; [|lia].
  exists k. repeat split; [exact Hk | exact Hres | lia |].
  intros j Hj. specialize (Hmin j Hj). lia.
Qed.

(** C5. The inclusive range 2025-05-28 .. 2025-05-30 holds two working
    days: Wednesday the 28th and Thursday the 29th count, and Friday the
    30th does not, because it is in the holiday table (it is no weekend
    day). *)
Theorem calculateWorkingDays_dragon_boat_2025 :
  calculateWorkingDays (ymd 2025 5 28) (ymd 2025 5 30) = 2
  /\ getDay (ymd 2025 5 28) = 3 /\ isWorkingDay (ymd 2025 5 28) = true
  /\ getDay (ymd 2025 5 29) = 4 /\ isWorkingDay (ymd 2025 5 29) = true
  /\ getDay (ymd 2025 5 30) = 5 /\ isWeekend (ymd 2025 5 30) = false
  /\ isHoliday (ymd 2025 5 30) = true
  /\ In (ymd 2025 5 30) TAIWAN_HOLIDAYS.
Proof.
  repeat split; try reflexivity.
  unfold TAIWAN_HOLIDAYS. do 9 right. left. reflexivity.
Qed.

(** C6. [calculateEndDate] returns for every start date and every
    requirement.  A requirement of zero or less gives the start date back.
    Otherwise the result is one of the 365 dates [start], ..., [start+364]
    that the loop scans: the first one up to which the count of working
    days reaches the requirement, or, when the count stays below it on all
    365 dates, the last date scanned, [start+364]. *)
Theorem calculateEndDate_total_bounded (start : date) (required : Z) :
  (required <= 0 /\ calculateEndDate start required = start)
  \/ (0 < required /\
      exists k : nat,
        (k < 365)%nat /\
        calculateEndDate start required = start + Z.of_nat k /\
        ((calculateWorkingDays start (start + Z.of_nat k) = required /\
          forall j : nat, (j < k)%nat ->
            calculateWorkingDays start (start + Z.of_nat j) < required)
         \/ (k = 364%nat /\
             calculateWorkingDays start (start + 364) < required))).
Proof.
  destruct (Z.leb_spec required 0) as [Hle|Hpos].
  - left. split; [exact Hle|]. unfold calculateEndDate.
    destruct (Z.leb_spec required 0); [reflexivity | lia].
  - right. split; [exact Hpos|]. unfold calculateEndDate.
    destruct (Z.leb_spec required 0) as [?|_]; [lia|].
    destruct (calculateEndDate_loop_spec 365 start 0 required start Hpos)
      as [(k & Hk & Hres & Hcnt & Hmin) | (Hcnt & Hres)].
    + exists k. split; [exact Hk|]. split; [exact Hres|]. left. split.
      * rewrite calculateWorkingDays_offset. lia.
      * intros j Hj. rewrite calculateWorkingDays_offset.
        specialize (Hmin j Hj). lia.
    + exists 364%nat. split; [lia|]. split; [exact Hres|]. right.
      split; [reflexivity|].
      change 364 with (Z.of_nat 364).
      rewrite calculateWorkingDays_offset. lia.
Qed.

(** The scan from [start] for the working days of [start..end_] stops at
    [end_] when [end_] is a working day among the 365 dates scanned. *)
Lemma calculateEndDate_finds_end (start end_ : date) :
  start <= end_ ->
  end_ - start <= 364 ->
  isWorkingDay end_ = true ->
  calculateEndDate start (calculateWorkingDays start end_) = end_.
Proof.
  intros Hle Hbound Hwork.
  set (k := Z.to_nat (end_ - start)).
  assert (Hend : end_ = start + Z.of_nat k) by (unfold k; lia).
  assert (HW : calculateWorkingDays start end_ = countWorking (S k) start).
  { rewrite Hend at 1. apply calculateWorkingDays_offset. }
  assert (Hsnoc : countWorking (S k) start = countWorking k start + 1).
  { rewrite countWorking_snoc, <- Hend, Hwork. reflexivity. }
  pose proof (countWorking_bounds k start) as Hk0.
  pose proof (countWorking_mono (S k) 365 start ltac:(unfold k; lia)) as Hmono.
  destruct (calculateEndDate_reached start (calculateWorkingDays start end_))
    as (k' & Hk' & Hres & Hcnt & Hmin); [lia | lia |].
  rewrite Hres, Hend. f_equal. f_equal.
  destruct (Nat.lt_trichotomy k' k) as [Hlt | [Heq | Hgt]].
  - pose proof (countWorking_mono (S k') k start ltac:(lia)). lia.
  - exact Heq.
  - specialize (Hmin k Hgt). lia.
Qed.

(** C2, as amended.  For start <= end with [end_] a working day and within
    the 365 dates the scan covers ([end_ - start <= 364]), projecting the
    end date from the working days of [start..end_] gives [end_] back. *)
Theorem calculateEndDate_calculateWorkingDays_roundtrip (start end_ : date) :
  start <= end_ ->
  end_ - start <= 364 ->
  isWorkingDay end_ = true ->
  calculateEndDate start (calculateWorkingDays start end_) = end_.
Proof. exact (calculateEndDate_finds_end start end_). Qed.

(** A witness of the round trip: Thursday 2025-01-02 to Wednesday
    2025-01-08, across a weekend. *)
Lemma calculateEndDate_calculateWorkingDays_roundtrip_witness :
  calculateEndDate (ymd 2025 1 2)
    (calculateWorkingDays (ymd 2025 1 2) (ymd 2025 1 8)) = ymd 2025 1 8.
Proof.
  apply calculateEndDate_calculateWorkingDays_roundtrip;
    [vm_compute; discriminate | vm_compute; discriminate | reflexivity].
Defined.

(** C2 as stated fails once [end_] lies beyond the 365 scanned dates: from
    2025-01-01 to the working day Friday 2026-01-02 there are 366 days, and
    the scan gives up on its last date, 2025-12-31. *)
Lemma roundtrip_fails_beyond_scan_bound :
  ymd 2025 1 1 <= ymd 2026 1 2
  /\ isWorkingDay (ymd 2026 1 2) = true
  /\ calculateEndDate (ymd 2025 1 1)
       (calculateWorkingDays (ymd 2025 1 1) (ymd 2026 1 2)) = ymd 2025 12 31
  /\ calculateEndDate (ymd 2025 1 1)
       (calculateWorkingDays (ymd 2025 1 1) (ymd 2026 1 2)) <> ymd 2026 1 2.
Proof.
  repeat split; try (vm_compute; discriminate); vm_compute; reflexivity.
Qed.

Lemma crossesNoBoundary_working d delta x :
  crossesNoBoundary d delta = true ->
  Z.min d (d + delta) <= x <= Z.max d (d + delta) ->
  isWorkingDay x = true.
Proof.
  unfold crossesNoBoundary, passedDates. intros H Hx.
  rewrite forallb_forall in H. apply H.
  apply in_map_iff. exists (Z.to_nat (x - Z.min d (d + delta))).
  split; [lia|]. apply in_seq. lia.
Qed.

(** Moving both ends of [start..end_] by [delta] over working days only
    neither drops nor adds a working day on balance. *)
Lemma calculateWorkingDays_shift start end_ delta :
  start <= end_ ->
  crossesNoBoundary start delta = true ->
  crossesNoBoundary end_ delta = true ->
  calculateWorkingDays (start + delta) (end_ + delta)
  = calculateWorkingDays start end_.
Proof.
  intros Hle Hs He. rewrite !calculateWorkingDays_count.
  set (n := Z.to_nat (end_ - start + 1)).
  replace (Z.to_nat (end_ + delta - (start + delta) + 1)) with n by lia.
  destruct (Z.le_gt_cases 0 delta) as [Hpos|Hneg].
  - (* forward: count start..end_+delta in two ways *)
    set (m := Z.to_nat delta).
    assert (H1 : countWorking (m + n) start
                 = countWorking m start + countWorking n (start + delta)).
    { rewrite countWorking_app. do 2 f_equal. lia. }
    assert (H2 : countWorking (n + m) start
                 = countWorking n start + countWorking m (end_ + 1)).
    { rewrite countWorking_app. do 2 f_equal. lia. }
    rewrite (Nat.add_comm n m) in H2.
    rewrite (countWorking_all m start) in H1.
    2:{ intros j Hj. apply (crossesNoBoundary_working start delta); [exact Hs | lia]. }
    rewrite (countWorking_all m (end_ + 1)) in H2.
    2:{ intros j Hj. apply (crossesNoBoundary_working end_ delta); [exact He | lia]. }
    lia.
  - (* backward: count start+delta..end_ in two ways *)
    set (m := Z.to_nat (- delta)).
    assert (H1 : countWorking (m + n) (start + delta)
                 = countWorking m (start + delta) + countWorking n start).
    { rewrite countWorking_app. do 2 f_equal. lia. }
    assert (H2 : countWorking (n + m) (start + delta)
                 = countWorking n (start + delta)
                   + countWorking m (end_ + delta + 1)).
    { rewrite countWorking_app. do 2 f_equal. lia. }
    rewrite (Nat.add_comm n m) in H2.
    rewrite (countWorking_all m (start + delta)) in H1.
    2:{ intros j Hj. apply (crossesNoBoundary_working start delta); [exact Hs | lia]. }
    rewrite (countWorking_all m (end_ + delta + 1)) in H2.
    2:{ intros j Hj. apply (crossesNoBoundary_working end_ delta); [exact He | lia]. }
    lia.
Qed.

(** A positive count means the range is not empty. *)
Lemma calculateWorkingDays_pos_le start end_ :
  0 < calculateWorkingDays start end_ -> start <= end_.
Proof.
  rewrite calculateWorkingDays_count. intros H.
  destruct (Z.le_gt_cases start end_) as [?|Hgt]; [assumption|].
  replace (Z.to_nat (end_ - start + 1)) with 0%nat in H by lia.
  simpl in H. lia.
Qed.

(** The end date projected from [start] spans exactly the required working
    days whenever the scan reaches them within its 365 dates. *)
Lemma calculateEndDate_span start required :
  0 < required ->
  required <= calculateWorkingDays start (start + 364) ->
  calculateWorkingDays start (calculateEndDate start required) = required.
Proof.
  intros Hpos Hle.
  change 364 with (Z.of_nat 364) in Hle.
  rewrite calculateWorkingDays_offset in Hle.
  destruct (calculateEndDate_reached start required Hpos Hle)
    as (k & _ & Hres & Hcnt & _).
  rewrite Hres, calculateWorkingDays_offset. exact Hcnt.
Qed.

(* ===================================================================== *)
(** * Properties of the drag/click state machine *)
(* ===================================================================== *)

Import JS Types GanttChart.

Lemma handleMouseMove_draggedItem p st clientX :
  draggedItem (handleMouseMove p st clientX) = draggedItem st.
Proof.
  unfold handleMouseMove. destruct (draggedBar st); [|reflexivity].
  destruct (readOnly p); [reflexivity|].
  destruct (_ =? 0); reflexivity.
Qed.

(** A read-only chart ignores the pointer-move. *)
Lemma handleMouseMove_readOnly p st clientX :
  readOnly p = true -> handleMouseMove p st clientX = st.
Proof.
  intros H. unfold handleMouseMove. rewrite H.
  destruct (draggedBar st); reflexivity.
Qed.

Lemma handleMouseMove_spanRecorded p st clientX :
  spanRecorded st -> spanRecorded (handleMouseMove p st clientX).
Proof.
  unfold spanRecorded, handleMouseMove. intros H bar'.
  destruct (draggedBar st) as [bar|] eqn:Hbar; [|rewrite Hbar; intros ?; congruence].
  specialize (H bar eq_refl).
  destruct (readOnly p); [rewrite Hbar; congruence|].
  destruct (_ =? 0); [rewrite Hbar; congruence|].
  simpl. intros [= <-]. simpl. exact H.
Qed.

Lemma step_spanRecorded p st ev :
  spanRecorded st -> spanRecorded (fst (step p st ev)).
Proof.
  intros H. destruct ev as [row|row|row x|x|]; simpl.
  - (* DragStart *)
    assert (Hstart : spanRecorded (fst (handleDragStart p st row))).
    { unfold handleDragStart.
      destruct (readOnly p || _); [exact H|].
      destruct (isHeader row); [exact H|].
      destruct (originalAssignment row); exact H. }
    destruct (isHeader row), (isDraggable p); try exact H; try exact Hstart.
    destruct (handleDragStart p st row). exact Hstart.
  - (* Drop *)
    destruct (isDraggable p); [|exact H]. unfold handleDrop.
    repeat match goal with
           | |- context [match ?x with _ => _ end] => destruct x
           end; exact H.
  - (* BarMouseDown *)
    destruct (isHeader row); [exact H|].
    destruct (row_startDate row) as [s|] eqn:Hs; [|exact H].
    destruct (row_endDate row) as [e|] eqn:He; [|exact H].
    unfold handleBarMouseDown. rewrite Hs, He.
    destruct (originalAssignment row); [|exact H].
    destruct (readOnly p); simpl; intros bar [= <-]; reflexivity.
  - (* MouseMove *)
    apply handleMouseMove_spanRecorded, H.
  - (* MouseUp *)
    unfold handleMouseUp. destruct (draggedBar st); [|exact H].
    simpl. intros bar; discriminate.
Qed.

Lemma run_spanRecorded evs : forall p st,
  spanRecorded st -> spanRecorded (snd (fst (run p st evs))).
Proof.
  induction evs as [|ev evs IH]; intros p st H; [exact H|].
  simpl. pose proof (step_spanRecorded p st ev H) as H'.
  destruct (step p st ev) as [st' effs]. simpl in H'.
  specialize (IH (fold_left receive effs p) st' H').
  destruct (run (fold_left receive effs p) st' evs) as [[p'' st''] effs'].
  exact IH.
Qed.

(** Every state the component reaches from its initial state records the
    span of the bar session it holds. *)
Lemma reachable_spanRecorded p evs :
  spanRecorded (snd (fst (run p initialState evs))).
Proof. apply run_spanRecorded. intros bar; discriminate. Qed.

(** C1, as amended.  In a chart that is not read-only, a pointer-move whose
    offset rounds to [deltaDays <> 0] days, on a bar session in flight whose
    working-day span is positive, sets the live start to
    [addDaysToDate originalStart deltaDays] and the live end to
    [calculateEndDate newStart originalWorkingDays] and marks the session
    moved.  The live range then holds as many working days as the original
    one whenever the 365 dates scanned from the new start hold that many,
    and that is so, in particular, when neither endpoint passes a weekend
    day or a holiday and the bar covers at most 365 dates; the new end is
    then the original end moved by [deltaDays]. *)
Theorem handleMouseMove_preserves_working_days
    (p : Props) (st : State) (bar : BarDragState) (clientX : Z) :
  readOnly p = false ->
  draggedBar st = Some bar ->
  originalWorkingDays bar
  = calculateWorkingDays (originalStart bar) (originalEnd bar) ->
  0 < originalWorkingDays bar ->
  roundDiv (clientX - startX bar) DAY_WIDTH <> 0 ->
  let deltaDays := roundDiv (clientX - startX bar) DAY_WIDTH in
  let newStart := addDaysToDate (originalStart bar) deltaDays in
  let newEnd := calculateEndDate newStart (originalWorkingDays bar) in
  draggedBar (handleMouseMove p st clientX)
  = Some {| assignmentId := assignmentId bar;
            parentId := parentId bar;
            startX := startX bar;
            originalStart := originalStart bar;
            originalEnd := originalEnd bar;
            originalWorkingDays := originalWorkingDays bar;
            currentStart := newStart;
            currentEnd := newEnd;
            hasMoved := true;
            taskReference := taskReference bar |}
  /\ (originalWorkingDays bar <= calculateWorkingDays newStart (newStart + 364) ->
      calculateWorkingDays newStart newEnd
      = calculateWorkingDays (originalStart bar) (originalEnd bar))
  /\ (crossesNoBoundary (originalStart bar) deltaDays = true ->
      crossesNoBoundary (originalEnd bar) deltaDays = true ->
      originalEnd bar - originalStart bar <= 364 ->
      newEnd = addDaysToDate (originalEnd bar) deltaDays
      /\ calculateWorkingDays newStart newEnd
         = calculateWorkingDays (originalStart bar) (originalEnd bar)).
Proof.
  intros Hro Hbar Hspan Hpos Hdelta deltaDays newStart newEnd.
  split; [|split].
  - unfold handleMouseMove. rewrite Hbar, Hro.
    fold deltaDays. destruct (Z.eqb_spec deltaDays 0) as [?|_]; [contradiction|].
    destruct (Z.gtb_spec (originalWorkingDays bar) 0) as [_|?]; [|lia].
    reflexivity.
  - intros Hreach. unfold newEnd.
    rewrite calculateEndDate_span by assumption. exact Hspan.
  - intros Hs He Hlen.
    pose proof (calculateWorkingDays_pos_le _ _ ltac:(rewrite <- Hspan; exact Hpos))
      as Hle.
    pose proof (calculateWorkingDays_shift _ _ deltaDays Hle Hs He) as Hshift.
    assert (Hend : newEnd = addDaysToDate (originalEnd bar) deltaDays).
    { unfold newEnd, newStart, addDaysToDate. rewrite Hspan, <- Hshift.
      apply calculateEndDate_finds_end; [lia | lia |].
      apply (crossesNoBoundary_working (originalEnd bar) deltaDays); [exact He | lia]. }
    split; [exact Hend|].
    rewrite Hend. exact Hshift.
Qed.

Import Scenario.

(** The specification's scenario as a witness of C1: the bar of 2025-01-02
    and 2025-01-03, grabbed at x = 100 and dragged to x = 350, five days
    on, becomes 2025-01-07 .. 2025-01-08 and keeps its two working days. *)
Lemma handleMouseMove_preserves_working_days_witness :
  draggedBar (handleMouseMove editable (armed editable loginBar) 350)
  = Some {| assignmentId := js "login-fe";
            parentId := js "login";
            startX := 100;
            originalStart := ymd 2025 1 2;
            originalEnd := ymd 2025 1 3;
            originalWorkingDays := 2;
            currentStart := ymd 2025 1 7;
            currentEnd := ymd 2025 1 8;
            hasMoved := true;
            taskReference := loginTask |}
  /\ calculateWorkingDays (ymd 2025 1 7) (ymd 2025 1 8)
     = calculateWorkingDays (ymd 2025 1 2) (ymd 2025 1 3).
Proof.
  destruct (handleMouseMove_preserves_working_days editable
              (armed editable loginBar)
              {| assignmentId := js "login-fe";
                 parentId := js "login";
                 startX := 100;
                 originalStart := ymd 2025 1 2;
                 originalEnd := ymd 2025 1 3;
                 originalWorkingDays := 2;
                 currentStart := ymd 2025 1 2;
                 currentEnd := ymd 2025 1 3;
                 hasMoved := false;
                 taskReference := loginTask |} 350)
    as (Hbar & Hspan & _).
  - reflexivity.
  - reflexivity.
  - reflexivity.
  - reflexivity.
  - vm_compute. discriminate.
  - split; [exact Hbar|]. apply Hspan. vm_compute. discriminate.
Defined.

(** C1 as stated fails in two ways.  In a read-only chart the session is in
    flight but the pointer-move is ignored: the live dates stay where they
    were.  And in an editable chart, the bar of Monday 2027-01-04 to
    Thursday 2028-07-20 (404 working days), moved by one day so that both
    endpoints stay on working days, gets the end date 2028-01-04, the last
    of the 365 dates scanned, and 261 working days. *)
Lemma handleMouseMove_span_counterexample :
  (draggedBar (armed snapshot loginBar) <> None
   /\ roundDiv (350 - 100) DAY_WIDTH = 5
   /\ handleMouseMove snapshot (armed snapshot loginBar) 350
      = armed snapshot loginBar
   /\ (currentStart <$> draggedBar (armed snapshot loginBar))
      = Some (ymd 2025 1 2))
  /\ (roundDiv (150 - 100) DAY_WIDTH = 1
      /\ (originalWorkingDays <$> draggedBar (armed editable longBar))
         = Some (calculateWorkingDays (ymd 2027 1 4) (ymd 2028 7 20))
      /\ calculateWorkingDays (ymd 2027 1 4) (ymd 2028 7 20) = 404
      /\ crossesNoBoundary (ymd 2027 1 4) 1 = true
      /\ crossesNoBoundary (ymd 2028 7 20) 1 = true
      /\ ((fun bar => (currentStart bar, currentEnd bar))
            <$> draggedBar (handleMouseMove editable (armed editable longBar) 150))
         = Some (ymd 2027 1 5, ymd 2028 1 4)
      /\ calculateWorkingDays (ymd 2027 1 5) (ymd 2028 1 4) = 261).
Proof.
  split.
  - repeat split; try reflexivity. discriminate.
  - repeat split; vm_compute; reflexivity.
Qed.

(** Pointer-moves whose offsets round to zero days, or that arrive in a
    read-only chart, leave the state as it is. *)
Lemma run_idle_moves p st bar moves rest :
  draggedBar st = Some bar ->
  Forall (fun x => readOnly p = true
                   \/ roundDiv (x - startX bar) DAY_WIDTH = 0) moves ->
  run p st (map MouseMove moves ++ rest) = run p st rest.
Proof.
  intros Hbar Hmoves. induction Hmoves as [|x moves Hx _ IH]; [reflexivity|].
  cbn [map app run step].
  assert (Hsame : handleMouseMove p st x = st).
  { unfold handleMouseMove. rewrite Hbar.
    destruct Hx as [-> | ->]; [reflexivity|].
    destruct (readOnly p); reflexivity. }
  rewrite Hsame. cbn [fold_left]. rewrite IH.
  destruct (run p st rest) as [[p' st'] effs]. reflexivity.
Qed.

(** C3. A pointer-down on a bar followed, after pointer-moves that all
    round to zero days (or that a read-only chart ignores), by the
    pointer-up is a click: the effects are the [stopPropagation] of the
    pointer-down and one call of [onTaskClick] on the row's feature; no
    collection is published, the props (and with them every assignment's
    dates) are what they were, and the session is closed. *)
Theorem bar_click_when_never_moved
    (p : Props) (st : State) (row : RenderRow) (assign : TaskAssignment)
    (start end_ : date) (clientX : Z) (moves : list Z) :
  isHeader row = false ->
  originalAssignment row = Some assign ->
  row_startDate row = Some start ->
  row_endDate row = Some end_ ->
  Forall (fun x => readOnly p = true
                   \/ roundDiv (x - clientX) DAY_WIDTH = 0) moves ->
  run p st (BarMouseDown row clientX :: map MouseMove moves ++ [MouseUp])
  = (p,
     {| draggedItem := draggedItem st; draggedBar := None |},
     [stopPropagation; onTaskClick (originalTask row)]).
Proof.
  intros Hleaf Hassign Hstart Hend Hmoves.
  cbn [run step]. rewrite Hleaf, Hstart, Hend.
  unfold handleBarMouseDown. rewrite Hassign, Hstart, Hend.
  set (bar := {| assignmentId := assign_id assign;
                 parentId := task_id (originalTask row);
                 startX := clientX;
                 originalStart := start; originalEnd := end_;
                 originalWorkingDays := calculateWorkingDays start end_;
                 currentStart := start; currentEnd := end_;
                 hasMoved := false;
                 taskReference := originalTask row |}).
  assert (Hrun : forall st1, draggedBar st1 = Some bar ->
            draggedItem st1 = draggedItem st ->
            run p st1 (map MouseMove moves ++ [MouseUp])
            = (p, {| draggedItem := draggedItem st; draggedBar := None |},
               [onTaskClick (originalTask row)])).
  { intros st1 Hbar Hitem.
    rewrite (run_idle_moves p st1 bar moves [MouseUp] Hbar Hmoves).
    cbn [run step]. unfold handleMouseUp. rewrite Hbar. cbn.
    rewrite Hitem. reflexivity. }
  destruct (readOnly p); cbn [fold_left receive];
    rewrite Hrun by reflexivity; reflexivity.
Qed.

(** A witness of C3: a press on the login bar at x = 100, a tremble to
    x = 110 and back to 95, and the release. *)
Lemma bar_click_when_never_moved_witness :
  run editable initialState
    (BarMouseDown loginBar 100 :: map MouseMove [110; 95] ++ [MouseUp])
  = (editable, initialState, [stopPropagation; onTaskClick loginTask]).
Proof.
  apply (bar_click_when_never_moved editable initialState loginBar loginAssign
           (ymd 2025 1 2) (ymd 2025 1 3) 100 [110; 95]);
    try reflexivity.
  constructor; [right; reflexivity|].
  constructor; [right; reflexivity|].
  constructor.
Defined.

(** While a bar session is open, no reorder drag starts: the drag is
    prevented and the state is unchanged. *)
Lemma handleDragStart_prevented_by_bar_session p st row :
  is_Some (draggedBar st) ->
  handleDragStart p st row = (st, [preventDefault]).
Proof.
  intros H. unfold handleDragStart.
  rewrite (bool_decide_eq_true_2 _ H), orb_true_r. reflexivity.
Qed.

(** [handleBarMouseDown] does not look at [draggedItem]: on a bar it opens
    a session whatever reorder session is recorded, and keeps that one. *)
Lemma handleBarMouseDown_ignores_draggedItem p st row assign start end_ x :
  originalAssignment row = Some assign ->
  row_startDate row = Some start ->
  row_endDate row = Some end_ ->
  draggedItem (fst (handleBarMouseDown p st row x)) = draggedItem st
  /\ is_Some (draggedBar (fst (handleBarMouseDown p st row x))).
Proof.
  intros Ha Hs He. unfold handleBarMouseDown. rewrite Ha, Hs, He.
  destruct (readOnly p); (split; [reflexivity | eexists; reflexivity]).
Qed.

(** C4, the failing run.  A header is dragged and dropped on itself:
    [handleDrop] returns before [setDraggedItem(null)], so the reorder
    session stays recorded.  A pointer-down on a bar then opens a bar
    session next to it: two sessions are held at once. *)
Theorem reorder_session_and_bar_session_both_open :
  let '(_, st, _) :=
    run editable initialState
      [DragStart loginHeader; Drop loginHeader; BarMouseDown loginBar 100] in
  draggedItem st
  = Some {| drag_type := TASK; drag_id := js "login"; drag_parentId := None |}
  /\ (assignmentId <$> draggedBar st) = Some (js "login-fe").
Proof. vm_compute. split; reflexivity. Qed.

(* ===================================================================== *)
(** * Properties of the reorder drop *)
(* ===================================================================== *)

Lemma findIndex_found {A} (f : A -> bool) (l : list A) :
  findIndex f l <> -1 ->
  0 <= findIndex f l
  /\ exists x, l !! Z.to_nat (findIndex f l) = Some x /\ f x = true.
Proof.
  induction l as [|y l IH]; simpl; [intros H; contradiction H; reflexivity|].
  destruct (f y) eqn:Hy.
  - intros _. split; [lia|]. exists y. split; [reflexivity | exact Hy].
  - destruct (Z.eqb_spec (findIndex f l) (-1)) as [Heq|Hne].
    + intros H. contradiction H. reflexivity.
    + intros _. destruct (IH Hne) as (H0 & x & Hx & Hfx).
      split; [lia|]. exists x. split; [|exact Hfx].
      replace (Z.to_nat (findIndex f l + 1)) with (S (Z.to_nat (findIndex f l)))
        by lia.
      exact Hx.
Qed.

(** Taking an element out and splicing it back in elsewhere permutes the
    list. *)
Lemma moveItem_Permutation {A} (fromIndex toIndex : nat) (l : list A) :
  moveItem fromIndex toIndex l ≡ₚ l.
Proof.
  unfold moveItem. destruct (l !! fromIndex) as [x|] eqn:Hx; [|reflexivity].
  rewrite <- Permutation_middle, take_drop.
  symmetry. apply delete_Permutation, Hx.
Qed.





(* ===================================================================== *)
(** * Properties of the row projection *)
(* ===================================================================== *)

Lemma sum_list_with_map {A B} (f : B -> nat) (g : A -> B) (l : list A) :
  sum_list_with f (map g l) = sum_list_with (fun x => f (g x)) l.
Proof. induction l as [|x l IH]; simpl; [reflexivity | rewrite IH; reflexivity]. Qed.

Lemma sum_list_with_ext_in {A} (f g : A -> nat) (l : list A) :
  (forall x, In x l -> f x = g x) -> sum_list_with f l = sum_list_with g l.
Proof.
  induction l as [|x l IH]; simpl; intros H; [reflexivity|].
  rewrite (H x) by (left; reflexivity).
  rewrite IH by (intros y Hy; apply H; right; exact Hy). reflexivity.
Qed.

(** A sum of terms that are each at least as large as those of another sum
    is at least as large, and equal only when all terms are. *)
Lemma sum_list_with_le_eq {A} (f g : A -> nat) (l : list A) :
  (forall x, In x l -> (g x <= f x)%nat) ->
  (sum_list_with g l <= sum_list_with f l)%nat
  /\ (sum_list_with f l = sum_list_with g l <->
      forall x, In x l -> f x = g x).
Proof.
  induction l as [|x l IH]; simpl; intros H.
  - split; [lia|]. split; [intros _ y [] | reflexivity].
  - destruct IH as [IHle IHeq]; [intros y Hy; apply H; right; exact Hy|].
    pose proof (H x (or_introl eq_refl)) as Hx.
    split; [lia|]. split.
    + intros Hsum y [<-|Hy]; [lia|]. apply IHeq; [lia | exact Hy].
    + intros Hall. rewrite (Hall x) by (left; reflexivity).
      f_equal. apply IHeq. intros y Hy. apply Hall. right. exact Hy.
Qed.

Lemma sum_list_with_ones {A} (l : list A) :
  sum_list_with (fun _ => 1%nat) l = length l.
Proof. induction l as [|x l IH]; simpl; [reflexivity | rewrite IH; reflexivity]. Qed.

Lemma sortInsert_Permutation {A} (cmp : A -> A -> Z) x (l : list A) :
  sortInsert cmp x l ≡ₚ x :: l.
Proof.
  induction l as [|y l IH]; simpl; [reflexivity|].
  destruct (cmp x y <? 0); [reflexivity|].
  rewrite IH. apply perm_swap.
Qed.

(** Sorting rearranges and neither loses nor invents a key. *)
Lemma sort_Permutation {A} (cmp : A -> A -> Z) (l : list A) :
  JS.sort cmp l ≡ₚ l.
Proof.
  unfold JS.sort.
  enough (H : forall acc,
             fold_left (fun acc x => sortInsert cmp x acc) l acc ≡ₚ l ++ acc).
  { rewrite H, app_nil_r. reflexivity. }
  induction l as [|x l IH]; intros acc; simpl; [reflexivity|].
  rewrite IH, sortInsert_Permutation. symmetry. apply Permutation_middle.
Qed.

Lemma Object_keys_Permutation (groups : Groups) :
  Object_keys groups ≡ₚ map fst groups.
Proof.
  unfold Object_keys. rewrite sort_Permutation.
  induction (map fst groups) as [|k keys IH]; [reflexivity|].
  rewrite !filter_cons.
  destruct (isArrayIndex k) eqn:Hk; simpl.
  - rewrite IH. reflexivity.
  - rewrite <- Permutation_middle, IH. reflexivity.
Qed.

Lemma eqb_eq (a b : jsstring) : eqb a b = true <-> a = b.
Proof. unfold eqb. apply bool_decide_eq_true. Qed.

Lemma eqb_neq (a b : jsstring) : eqb a b = false <-> a <> b.
Proof. unfold eqb. apply bool_decide_eq_false. Qed.

Lemma pushItem_keys k item groups x :
  In x (map fst (pushItem k item groups)) -> x = k \/ In x (map fst groups).
Proof.
  induction groups as [|[k' items] groups IH]; simpl.
  - intros [<-|[]]. left. reflexivity.
  - destruct (eqb k' k); simpl.
    + intros [<-|H]; right; [left; reflexivity | right; exact H].
    + intros [<-|H]; [right; left; reflexivity|].
      destruct (IH H) as [->|H']; [left; reflexivity | right; right; exact H'].
Qed.

Lemma pushItem_holds n k item groups :
  holds n groups -> holds (S n) (pushItem k item groups).
Proof.
  unfold holds, itemCount. revert n.
  induction groups as [|[k' items] groups IH]; intros n [Hnd Hn]; simpl in *.
  - split; [|lia]. apply NoDup_singleton.
  - apply NoDup_cons in Hnd as [Hnotin Hnd].
    destruct (eqb k' k) eqn:Hk; simpl.
    + split; [apply NoDup_cons; split; assumption|].
      rewrite length_app. simpl. lia.
    + destruct (IH _ (conj Hnd eq_refl)) as [Hnd' Hn'].
      split; [|lia]. apply NoDup_cons. split; [|exact Hnd'].
      rewrite list_elem_of_In in *.
      intros Hin. apply pushItem_keys in Hin as [->|Hin]; [|contradiction].
      apply eqb_neq in Hk. contradiction Hk. reflexivity.
Qed.

(** ** When filling the buckets throws *)

Lemma ownProperty_key k groups items :
  ownProperty k groups = Some items -> In k (map fst groups).
Proof.
  induction groups as [|[k' items'] groups IH]; simpl; [discriminate|].
  destruct (eqb k' k) eqn:Hk.
  - apply eqb_eq in Hk. intros _. left. exact Hk.
  - intros H. right. apply IH, H.
Qed.

(** [addToGroup] throws on the names [groups] inherits and on no other. *)
Lemma addToGroup_pushItem k item groups :
  ownOnly groups ->
  addToGroup k item groups
  = if inherited k then None else Some (pushItem k item groups).
Proof.
  intros Hown. unfold addToGroup.
  destruct (ownProperty k groups) as [items|] eqn:Hk; [|reflexivity].
  rewrite (Hown k (ownProperty_key _ _ _ Hk)). reflexivity.
Qed.

Lemma pushItem_ownOnly k item groups :
  ownOnly groups -> inherited k = false -> ownOnly (pushItem k item groups).
Proof.
  intros Hown Hk x Hx.
  apply pushItem_keys in Hx as [->|Hx]; [exact Hk | apply Hown, Hx].
Qed.

(** A [forEach] whose body throws on the elements [bad] marks, and
    otherwise updates the state as [f] does, throws when an element is
    marked and otherwise is the fold of [f]. *)
Lemma forEach_fold_left {A S} (body : A -> S -> option S) (f : S -> A -> S)
    (bad : A -> bool) (Inv : S -> Prop) (l : list A) :
  (forall x s, Inv s -> body x s = if bad x then None else Some (f s x)) ->
  (forall x s, Inv s -> bad x = false -> Inv (f s x)) ->
  forall s, Inv s ->
    forEach l body s = (if existsb bad l then None else Some (fold_left f l s))
    /\ (existsb bad l = false -> Inv (fold_left f l s)).
Proof.
  intros Hbody Hinv. induction l as [|x l IH]; intros s Hs; simpl.
  - split; [reflexivity | intros _; exact Hs].
  - rewrite (Hbody x s Hs). destruct (bad x) eqn:Hx; simpl.
    + split; [reflexivity | discriminate].
    + apply IH, Hinv; assumption.
Qed.

Lemma existsb_flat_map {A B} (p : B -> bool) (f : A -> list B) (l : list A) :
  existsb p (flat_map f l) = existsb (fun x => existsb p (f x)) l.
Proof.
  induction l as [|x l IH]; simpl; [reflexivity|].
  rewrite existsb_app, IH. reflexivity.
Qed.

Section RowProjection.
Context {U : Unicode}.

(** Filling the buckets throws exactly when one of the bucket names is a
    name [groups] inherits; otherwise the buckets are [filled]. *)
Lemma buildGroups_filled tasks :
  buildGroups tasks
  = if existsb inherited (bucketNames tasks) then None
    else Some (filled tasks).
Proof.
  unfold buildGroups, bucketNames, filled. rewrite existsb_flat_map.
  refine (proj1 (forEach_fold_left _ _ _ ownOnly tasks _ _ [] _)).
  - intros task groups Hown. rewrite existsb_flat_map.
    refine (proj1 (forEach_fold_left _ _ _ ownOnly (assignments task) _ _
                     groups Hown)).
    + intros assign groups' Hown'.
      refine (proj1 (forEach_fold_left _ _ _ ownOnly (bucketsOf assign) _ _
                       groups' Hown')).
      * intros k g Hg. apply addToGroup_pushItem, Hg.
      * intros k g Hg Hk. apply pushItem_ownOnly; assumption.
    + intros assign groups' Hown' Hbad.
      refine (proj2 (forEach_fold_left
                       (fun k g => addToGroup k (task, assign) g) _ inherited
                       ownOnly (bucketsOf assign) _ _ groups' Hown') Hbad).
      * intros k g Hg. apply addToGroup_pushItem, Hg.
      * intros k g Hg Hk. apply pushItem_ownOnly; assumption.
  - intros task groups Hown Hbad. rewrite existsb_flat_map in Hbad.
    refine (proj2 (forEach_fold_left
                     (fun assign g =>
                        forEach (bucketsOf assign)
                          (fun k g => addToGroup k (task, assign) g) g)
                     _ (fun assign => existsb inherited (bucketsOf assign))
                     ownOnly (assignments task) _ _ groups Hown) Hbad).
    + intros assign groups' Hown'.
      refine (proj1 (forEach_fold_left _ _ _ ownOnly (bucketsOf assign) _ _
                       groups' Hown')).
      * intros k g Hg. apply addToGroup_pushItem, Hg.
      * intros k g Hg Hk. apply pushItem_ownOnly; assumption.
    + intros assign groups' Hown' Hbad'.
      refine (proj2 (forEach_fold_left
                       (fun k g => addToGroup k (task, assign) g) _ inherited
                       ownOnly (bucketsOf assign) _ _ groups' Hown') Hbad').
      * intros k g Hg. apply addToGroup_pushItem, Hg.
      * intros k g Hg Hk. apply pushItem_ownOnly; assumption.
  - intros k [].
Qed.

(** The row projection throws exactly when an assignment is fanned out to
    a bucket whose name [groups] inherits. *)
Lemma rowsByRole_throws tasks bar :
  rowsByRole tasks bar = None
  <-> exists task assign k,
        In task tasks /\ In assign (assignments task)
        /\ In k (bucketsOf assign) /\ inherited k = true.
Proof.
  unfold rowsByRole. rewrite buildGroups_filled.
  destruct (existsb inherited (bucketNames tasks)) eqn:Hbad; simpl.
  - split; [intros _ | reflexivity].
    apply existsb_exists in Hbad as (k & Hk & Hin).
    apply in_flat_map in Hk as (task & Ht & Hk).
    apply in_flat_map in Hk as (assign & Ha & Hk).
    exists task, assign, k. auto.
  - split; [discriminate|]. intros (task & assign & k & Ht & Ha & Hk & Hin).
    assert (Hex : existsb inherited (bucketNames tasks) = true).
    { apply existsb_exists. exists k. split; [|exact Hin].
      apply in_flat_map. exists task. split; [exact Ht|].
      apply in_flat_map. exists assign. split; assumption. }
    rewrite Hex in Hbad. discriminate.
Qed.

(** The rows, when there are some, are those of the [filled] buckets. *)
Lemma rowsByRole_filled tasks bar rows :
  rowsByRole tasks bar = Some rows ->
  rows = flat_map (bucketRows bar (filled tasks)) (sortedKeys (filled tasks)).
Proof.
  unfold rowsByRole. rewrite buildGroups_filled.
  destruct (existsb inherited (bucketNames tasks)); simpl; [discriminate|].
  intros [= <-]. reflexivity.
Qed.

Lemma fold_buckets_holds item buckets : forall n groups,
  holds n groups ->
  holds (n + length buckets)
    (fold_left (fun groups targetRole => pushItem targetRole item groups)
       buckets groups).
Proof.
  induction buckets as [|k buckets IH]; intros n groups H; simpl.
  - rewrite Nat.add_0_r. exact H.
  - replace (n + S (length buckets))%nat with (S n + length buckets)%nat by lia.
    apply IH, pushItem_holds, H.
Qed.

Lemma fold_assignments_holds task assigns : forall n groups,
  holds n groups ->
  holds (n + sum_list_with (fun assign => length (bucketsOf assign)) assigns)
    (fold_left (fun groups assign =>
       fold_left (fun groups targetRole =>
         pushItem targetRole (task, assign) groups)
         (bucketsOf assign) groups)
       assigns groups).
Proof.
  induction assigns as [|a assigns IH]; intros n groups H; simpl.
  - rewrite Nat.add_0_r. exact H.
  - rewrite Nat.add_assoc. apply IH, fold_buckets_holds, H.
Qed.

(** The [filled] buckets have pairwise different names and hold one item
    per bucket an assignment is fanned out to. *)
Lemma filled_holds tasks : holds (fanOutTotal tasks) (filled tasks).
Proof.
  unfold filled, fanOutTotal.
  enough (H : forall n groups, holds n groups ->
    holds (n + sum_list_with (fun task =>
                 sum_list_with (fun assign => length (bucketsOf assign))
                   (assignments task)) tasks)
      (fold_left (fun groups task =>
         fold_left (fun groups assign =>
           fold_left (fun groups targetRole =>
             pushItem targetRole (task, assign) groups)
             (bucketsOf assign) groups)
           (assignments task) groups)
         tasks groups)).
  { apply (H 0%nat []). split; [constructor | reflexivity]. }
  induction tasks as [|t tasks IH]; intros n groups H; simpl.
  - rewrite Nat.add_0_r. exact H.
  - rewrite Nat.add_assoc. apply IH, fold_assignments_holds, H.
Qed.

Lemma leafCount_app l1 l2 :
  leafCount (l1 ++ l2) = (leafCount l1 + leafCount l2)%nat.
Proof. unfold leafCount. rewrite List.filter_app, length_app. reflexivity. Qed.

Lemma leafCount_roleLeaves bar roleName items :
  leafCount (map (roleLeaf bar roleName) items) = length items.
Proof.
  unfold leafCount.
  induction items as [|[task assign] items IH]; simpl; [reflexivity|].
  rewrite IH. reflexivity.
Qed.

(** A bucket contributes one leaf row per item. *)
Lemma leafCount_bucketRows bar groups roleName :
  leafCount (bucketRows bar groups roleName)
  = length (lookupGroup roleName groups).
Proof.
  unfold bucketRows. destruct (lookupGroup roleName groups) as [|[first a] items];
    [reflexivity|].
  change (leafCount (roleHeader roleName ((first, a) :: items) first
                     :: map (roleLeaf bar roleName) ((first, a) :: items)))
    with (leafCount (map (roleLeaf bar roleName) ((first, a) :: items))).
  apply leafCount_roleLeaves.
Qed.

Lemma leafCount_flat_map (f : jsstring -> list RenderRow) keys :
  leafCount (flat_map f keys) = sum_list_with (fun k => leafCount (f k)) keys.
Proof.
  induction keys as [|k keys IH]; simpl; [reflexivity|].
  rewrite leafCount_app, IH. reflexivity.
Qed.

(** Looking every key up once visits every item once. *)
Lemma sum_lookupGroup groups :
  NoDup (map fst groups) ->
  sum_list_with (fun k => length (lookupGroup k groups)) (map fst groups)
  = itemCount groups.
Proof.
  unfold itemCount.
  induction groups as [|[k items] groups IH]; simpl; intros Hnd; [reflexivity|].
  apply NoDup_cons in Hnd as [Hnotin Hnd].
  rewrite list_elem_of_In in Hnotin.
  rewrite (proj2 (eqb_eq k k) eq_refl). f_equal.
  rewrite <- IH by exact Hnd.
  apply sum_list_with_ext_in. intros k' Hk'.
  destruct (eqb k k') eqn:Heq; [|reflexivity].
  apply eqb_eq in Heq. subst k'. contradiction.
Qed.

Lemma sortedKeys_Permutation groups : sortedKeys groups ≡ₚ map fst groups.
Proof.
  unfold sortedKeys. rewrite sort_Permutation. apply Object_keys_Permutation.
Qed.

(** The leaf rows of the projection by role, when it produces rows, are as
    many as the bucket entries. *)
Lemma leafCount_rowsByRole tasks bar rows :
  rowsByRole tasks bar = Some rows -> leafCount rows = fanOutTotal tasks.
Proof.
  intros Hrows. rewrite (rowsByRole_filled _ _ _ Hrows).
  destruct (filled_holds tasks) as [Hnd Hcount].
  rewrite leafCount_flat_map.
  rewrite (sum_list_with_ext_in _
             (fun k => length (lookupGroup k (filled tasks))))
    by (intros k _; apply leafCount_bucketRows).
  rewrite sortedKeys_Permutation, sum_lookupGroup by exact Hnd.
  exact Hcount.
Qed.

(** An assignment goes to two buckets (RD), to five (ALL) or to one, and to
    one exactly when its role does not fan out. *)
Lemma bucketsOf_length assign :
  (1 <= length (bucketsOf assign))%nat
  /\ (length (bucketsOf assign) = 1%nat <-> fansOut assign = false).
Proof.
  unfold bucketsOf, fansOut.
  destruct (eqb _ (js "RD")); [simpl; split; [lia | split; [lia | discriminate]]|].
  destruct (eqb _ (js "ALL") || eqb _ (js "全體")) eqn:H.
  - rewrite orb_false_l, H. simpl. split; [lia | split; [lia | discriminate]].
  - rewrite orb_false_l, H. simpl. split; [lia | split; reflexivity].
Qed.

(** Whenever the projection by role produces rows, the leaf rows are at
    least as many as the assignments of the task list, and exactly as many
    if and only if no assignment has a role that, trimmed and upper-cased,
    is RD, ALL or the localized ALL: an RD assignment is counted in both FE
    and BE, an ALL assignment in each of FE, BE, UI, UX and PM, any other
    once. *)
Lemma leafCount_rowsByRole_assignments tasks bar rows :
  rowsByRole tasks bar = Some rows ->
  (totalAssignments tasks <= leafCount rows)%nat
  /\ (leafCount rows = totalAssignments tasks <->
      forall task assign,
        In task tasks -> In assign (assignments task) -> fansOut assign = false)
  /\ leafCount rows = fanOutTotal tasks.
Proof.
  intros Hrows. rewrite (leafCount_rowsByRole _ _ _ Hrows).
  unfold fanOutTotal, totalAssignments.
  assert (Hinner : forall task,
    (length (assignments task)
     <= sum_list_with (fun a => length (bucketsOf a)) (assignments task))%nat
    /\ (sum_list_with (fun a => length (bucketsOf a)) (assignments task)
        = length (assignments task) <->
        forall a, In a (assignments task) -> fansOut a = false)).
  { intros task.
    destruct (sum_list_with_le_eq (fun a => length (bucketsOf a))
                (fun _ => 1%nat) (assignments task)) as [Hle Heq].
    { intros a _. apply bucketsOf_length. }
    rewrite sum_list_with_ones in Hle, Heq. split; [exact Hle|].
    rewrite Heq. split; intros H a Ha; apply bucketsOf_length, H, Ha. }
  destruct (sum_list_with_le_eq
              (fun task => sum_list_with (fun a => length (bucketsOf a))
                             (assignments task))
              (fun task => length (assignments task)) tasks) as [Hle Heq].
  { intros task _. apply Hinner. }
  split; [exact Hle|]. split; [|reflexivity].
  rewrite Heq. split.
  - intros H task a Ht Ha. apply (Hinner task); [apply H, Ht | exact Ha].
  - intros H task Ht. apply Hinner. intros a Ha. apply (H task a Ht Ha).
Qed.

End RowProjection.

(** C7, the failing input.  A board with the one assignment of the role
    [constructor], grouped by role: the assignment goes to the bucket
    [constructor], a name the object of the buckets inherits from
    [Object.prototype], so [addToGroup] throws and the projection produces
    no rows at all, where the claim counts at least one leaf row.  Grouped
    by feature the same board has its leaf row. *)
Theorem rowsByRole_throws_on_inherited_role :
  totalAssignments [siteTask] = 1%nat
  /\ @bucketsOf asciiUnicode siteAssign = [js "constructor"]
  /\ addToGroup (js "constructor") (siteTask, siteAssign) [] = None
  /\ @rows asciiUnicode (board [siteTask] GroupBy_Assignee false) initialState
     = None
  /\ (leafCount
        <$> @rows asciiUnicode (board [siteTask] GroupBy_None false)
              initialState)
     = Some 1%nat.
Proof. repeat split; vm_compute; reflexivity. Qed.

(* ===================================================================== *)
(** * Properties of the role colours *)
(* ===================================================================== *)

Lemma toInt32_range z : -2147483648 <= toInt32 z < 2147483648.
Proof.
  unfold toInt32.
  pose proof (Z.mod_pos_bound (z + 2147483648) 4294967296 ltac:(lia)). lia.
Qed.

(** The hash grows by less than 2^31 + 2^16 per character, so that it is
    far below 2^53, and the sums of the loop are exact in the numbers of
    the platform, for every role of less than four million characters. *)
Lemma hashLoop_bound role : forall hash,
  Forall (fun c => 0 <= c < 65536) role ->
  Z.abs (hashLoop role hash)
  <= Z.abs hash + Z.of_nat (length role) * 2147549184.
Proof.
  induction role as [|c role IH]; intros hash Hunits; simpl hashLoop.
  - simpl. lia.
  - apply Forall_cons in Hunits as [Hc Hunits].
    specialize (IH (c + (shl hash 5 - hash)) Hunits).
    pose proof (toInt32_range (Z.shiftl (toInt32 hash) 5)) as Hshl.
    fold (shl hash 5) in Hshl.
    rewrite length_cons, Nat2Z.inj_succ. lia.
Qed.

Lemma colorAt_in_palette index :
  0 <= index < Z.of_nat (length TAILWIND_COLORS) ->
  exists c, colorAt index = Some c /\ In c TAILWIND_COLORS.
Proof.
  intros H. unfold colorAt.
  destruct (Z.ltb_spec index 0) as [?|_]; [lia|].
  destruct (nth_error TAILWIND_COLORS (Z.to_nat index)) as [c|] eqn:Hc.
  - exists c. split; [reflexivity|]. eapply nth_error_In, Hc.
  - apply nth_error_None in Hc. lia.
Qed.

Ltac in_palette :=
  eexists; split; [reflexivity|];
  vm_compute; repeat (first [left; reflexivity | right]).

(** C10. [getColorForRole] returns a colour of the palette for every role:
    each keyword branch returns a member of [TAILWIND_COLORS], and in the
    fallback the index [Math.abs(hash) % TAILWIND_COLORS.length] lies
    within the palette, so that the result is never [undefined]. *)
Theorem getColorForRole_in_palette {U : Unicode} (role : jsstring) :
  (exists c, getColorForRole role = Some c /\ In c TAILWIND_COLORS)
  /\ 0 <= Z.abs (hashLoop role 0) mod Z.of_nat (length TAILWIND_COLORS)
       < Z.of_nat (length TAILWIND_COLORS).
Proof.
  split.
  - unfold getColorForRole.
    repeat match goal with
           | |- context [if ?b then Some _ else _] => destruct b; [in_palette|]
           end.
    apply colorAt_in_palette. apply Z.mod_pos_bound. reflexivity.
  - apply Z.mod_pos_bound. reflexivity.
Qed.

Example getColorForRole_frontend :
  @getColorForRole asciiUnicode (js "Frontend") = Some (js "bg-blue-500").
Proof. reflexivity. Qed.

Example getColorForRole_hashed :
  hashLoop (js "Zebra") 0 = 86223590
  /\ @getColorForRole asciiUnicode (js "Zebra") = Some (js "bg-indigo-500").
Proof. split; reflexivity. Qed.

(* ===================================================================== *)
(** * Properties of the snapshot decoding *)
(* ===================================================================== *)

Import ProjectBoard.















(* ===================================================================== *)
(** * Worked examples *)
(* ===================================================================== *)

(** The scan gives up on its last date when the requirement is out of
    reach: 404 working days are not to be had in the 365 dates from
    2027-01-04, and the last of them is 2028-01-03. *)
Example calculateEndDate_exhausted :
  calculateEndDate (ymd 2027 1 4) 404 = ymd 2028 1 3
  /\ ymd 2028 1 3 = ymd 2027 1 4 + 364
  /\ calculateWorkingDays (ymd 2027 1 4) (ymd 2028 1 3) = 261.
Proof. repeat split; vm_compute; reflexivity. Qed.

(** A requirement of zero gives the start date back, also on a weekend. *)
Example calculateEndDate_zero :
  isWeekend (ymd 2025 1 4) = true
  /\ calculateEndDate (ymd 2025 1 4) 0 = ymd 2025 1 4.
Proof. split; reflexivity. Qed.

(** The board of the scenarios has five assignments; by role it shows ten
    leaf rows: FE holds three (login, the RD one, the ALL one), BE three,
    PM two, UI and UX one each. *)
Example rowsByRole_scenario :
  totalAssignments (tasks editable) = 5%nat
  /\ (leafCount <$> @rowsByRole asciiUnicode (tasks editable) None)
     = Some 10%nat
  /\ ((fun rows => map label (List.filter isHeader rows))
        <$> @rowsByRole asciiUnicode (tasks editable) None)
     = Some [js "PM"; js "UI"; js "UX"; js "FE"; js "BE"].
Proof. repeat split; vm_compute; reflexivity. Qed.

(** By feature every assignment is one leaf row. *)
Example rowsByFeature_scenario :
  leafCount (rowsByFeature (tasks editable) None) = 5%nat
  /\ length (rowsByFeature (tasks editable) None) = 8%nat.
Proof. split; reflexivity. Qed.

(** A leaf of Checkout dropped on another leaf of Checkout moves within
    that feature; dropped on the leaf of another feature it publishes
    nothing and the reorder session stays recorded. *)
Example handleDrop_leaf_scenario :
  let rows := rowsByFeature (tasks editable) None in
  let coPm := nth 5 rows loginHeader in
  let coAll := nth 7 rows loginHeader in
  let dragging := fst (handleDragStart editable initialState coAll) in
  (assign_id <$> originalAssignment coAll) = Some (js "co-all")
  /\ (exists newTasks,
        handleDrop editable dragging coPm
        = (initialState, [preventDefault; onTaskReorder newTasks])
        /\ map (fun t => map assign_id (assignments t)) newTasks
           = [ [js "login-fe"]; [js "long-be"];
               [js "co-all"; js "co-pm"; js "co-rd"] ])
  /\ handleDrop editable dragging loginBar = (dragging, [preventDefault]).
Proof.
  repeat split.
  eexists. split; vm_compute; reflexivity.
Qed.

(** A drag that moved is committed on the release: the live dates are
    written into the assignment and the board is published. *)
Example drag_commit_scenario :
  let '(p, st, effects) :=
    run editable initialState
      [BarMouseDown loginBar 100; MouseMove 350; MouseUp] in
  st = initialState
  /\ map (fun t => map (fun a => (toISODate (startDate a), toISODate (endDate a)))
                     (assignments t)) (firstn 1 (tasks p))
     = [ [ ((2025, 1, 7), (2025, 1, 8)) ] ]
  /\ effects = [stopPropagation; onTaskReorder (tasks p)].
Proof. vm_compute. repeat split; reflexivity. Qed.

(** In a read-only snapshot the same gesture is a click. *)
Example drag_in_snapshot_is_click :
  run snapshot initialState
    [BarMouseDown loginBar 100; MouseMove 350; MouseUp]
  = (snapshot, initialState, [stopPropagation; onTaskClick loginTask]).
Proof. vm_compute. reflexivity. Qed.

(** A snapshot of the older structure comes back as it was parsed. *)
Example decodeData_old_format :
  decodeData (js "W3siaWQiOiIxIiwibmFtZSI6IkEiLCJhc3NpZ25tZW50cyI6W119XQ==")
  = Some (VArr [VObj [ (js "id", VStr (js "1")); (js "name", VStr (js "A"));
                       (js "assignments", VArr []) ]]).
Proof. vm_compute. reflexivity. Qed.

(** Strings that are no base64, no UTF-8 or no JSON, and JSON that is no
    array, decode to [null]. *)
Example decodeData_malformed :
  decodeData (js "!!!") = Some VNull
  /\ decodeData (js "/w==") = Some VNull
  /\ decodeData (js "W3t9") = Some VNull
  /\ decodeData (js "eyJhIjoxfQ==") = Some VNull
  /\ decodeData (js "WzFd") = Some VNull.
Proof. repeat split; vm_compute; reflexivity. Qed.

(* ===================================================================== *)
(** * Further properties of the calendar arithmetic *)
(* ===================================================================== *)

Lemma countDays_app P n m a :
  countDays P (n + m) a = countDays P n a + countDays P m (a + Z.of_nat n).
Proof.
  revert a. induction n as [|n IH]; intros a.
  - simpl. rewrite Z.add_0_r. reflexivity.
  - change (S n + m)%nat with (S (n + m)). cbn [countDays]. rewrite IH.
    replace (a + 1 + Z.of_nat n) with (a + Z.of_nat (S n)) by lia. lia.
Qed.

Lemma countDays_bounds P n a : 0 <= countDays P n a <= Z.of_nat n.
Proof.
  revert a. induction n as [|n IH]; intros a; cbn [countDays]; [lia|].
  specialize (IH (a + 1)). destruct (P a); lia.
Qed.

Lemma countWorking_countDays n a : countWorking n a = countDays isWorkingDay n a.
Proof.
  revert a. induction n as [|n IH]; intros a; [reflexivity|].
  cbn [countDays]. rewrite countWorking_S, IH. reflexivity.
Qed.

(** A day is a working day unless it is a weekend day or a holiday, so the
    working days are at least the weekdays less the holidays. *)
Lemma countDays_working_ge n a :
  countDays (fun d => negb (isWeekend d)) n a - countDays isHoliday n a
  <= countDays isWorkingDay n a.
Proof.
  revert a. induction n as [|n IH]; intros a; cbn [countDays]; [lia|].
  specialize (IH (a + 1)). unfold isWorkingDay at 1.
  destruct (isWeekend a), (isHoliday a); simpl; lia.
Qed.

Lemma getDay_add a j : getDay (a + j) = (getDay a + j) mod 7.
Proof.
  unfold getDay. replace (a + j + 4) with (a + 4 + j) by lia.
  rewrite Z.add_mod_idemp_l by lia. reflexivity.
Qed.

Lemma getDay_range a : 0 <= getDay a < 7.
Proof. unfold getDay. apply Z.mod_pos_bound. lia. Qed.

(** Seven days in a row hold five weekdays, whatever the first one is. *)
Lemma countDays_weekdays_week a :
  countDays (fun d => negb (isWeekend d)) 7 a = 5.
Proof.
  cbn [countDays]. unfold isWeekend.
  replace (a + 1 + 1 + 1 + 1 + 1 + 1) with (a + 6) by lia.
  replace (a + 1 + 1 + 1 + 1 + 1) with (a + 5) by lia.
  replace (a + 1 + 1 + 1 + 1) with (a + 4) by lia.
  replace (a + 1 + 1 + 1) with (a + 3) by lia.
  replace (a + 1 + 1) with (a + 2) by lia.
  rewrite !getDay_add.
  pose proof (getDay_range a) as Hr.
  assert (Hcases : getDay a = 0 \/ getDay a = 1 \/ getDay a = 2 \/ getDay a = 3
                   \/ getDay a = 4 \/ getDay a = 5 \/ getDay a = 6) by lia.
  destruct Hcases as [H|[H|[H|[H|[H|[H|H]]]]]]; rewrite H; reflexivity.
Qed.

Lemma countDays_weekdays_weeks (k : nat) a :
  countDays (fun d => negb (isWeekend d)) (7 * k) a = 5 * Z.of_nat k.
Proof.
  revert a. induction k as [|k IH]; intros a; [reflexivity|].
  replace (7 * S k)%nat with (7 + 7 * k)%nat by lia.
  rewrite countDays_app, countDays_weekdays_week, IH. lia.
Qed.

(** At most one of the dates from [a] on is the date [h]. *)
Lemma countDays_one_date h n a : countDays (Z.eqb h) n a <= 1.
Proof.
  assert (Hpast : forall n a, h < a -> countDays (Z.eqb h) n a = 0).
  { clear. induction n as [|n IH]; intros a Ha; cbn [countDays]; [reflexivity|].
    rewrite IH by lia. destruct (Z.eqb_spec h a); lia. }
  revert a. induction n as [|n IH]; intros a; cbn [countDays]; [lia|].
  destruct (Z.eqb_spec h a) as [->|Hne].
  - rewrite Hpast by lia. lia.
  - specialize (IH (a + 1)). lia.
Qed.

(** A window of dates holds at most as many dates of a list as the list
    has entries. *)
Lemma countDays_listed (l : list date) n a :
  countDays (fun d => existsb (Z.eqb d) l) n a <= Z.of_nat (length l).
Proof.
  induction l as [|h l IH].
  - simpl. pose proof (countDays_bounds (fun _ => false) n a).
    assert (H0 : forall n a, countDays (fun _ => false) n a = 0).
    { clear. induction n; intros; cbn [countDays]; [reflexivity|]. rewrite IHn. reflexivity. }
    rewrite H0. lia.
  - assert (Hsplit : forall n a,
      countDays (fun d => existsb (Z.eqb d) (h :: l)) n a
      <= countDays (Z.eqb h) n a + countDays (fun d => existsb (Z.eqb d) l) n a).
    { clear. induction n as [|n IHn]; intros a; cbn [countDays]; [lia|].
      specialize (IHn (a + 1)). cbn [existsb] in *.
      rewrite (Z.eqb_sym a h).
      destruct (h =? a), (existsb (Z.eqb a) l); simpl; lia. }
    specialize (Hsplit n a). pose proof (countDays_one_date h n a).
    cbn [length]. lia.
Qed.

(** Any 365 dates in a row hold at least 236 working days: 260 weekdays
    less the 24 holidays of the table. *)
Lemma countWorking_year_ge a : 236 <= countWorking 365 a.
Proof.
  rewrite countWorking_countDays.
  pose proof (countDays_working_ge 365 a) as Hge.
  pose proof (countDays_listed TAIWAN_HOLIDAYS 365 a) as Hhol.
  change (countDays (fun d => existsb (Z.eqb d) TAIWAN_HOLIDAYS) 365 a)
    with (countDays isHoliday 365 a) in Hhol.
  change (Z.of_nat (length TAIWAN_HOLIDAYS)) with 24 in Hhol.
  assert (Hwk : 260 <= countDays (fun d => negb (isWeekend d)) 365 a).
  { change 365%nat with (7 * 52 + 1)%nat.
    rewrite countDays_app, countDays_weekdays_weeks.
    pose proof (countDays_bounds (fun d => negb (isWeekend d)) 1
                  (a + Z.of_nat (7 * 52))). lia. }
  lia.
Qed.

(** X1. For a requirement of 1 to 236 working days the scan of
    [calculateEndDate] always gets there, whatever the start date: the end
    date is a working day among the 365 dates from the start, and the range
    from the start to it holds exactly the required working days. *)
Theorem calculateEndDate_reaches_up_to_236 (start : date) (required : Z) :
  0 < required <= 236 ->
  start <= calculateEndDate start required <= start + 364
  /\ isWorkingDay (calculateEndDate start required) = true
  /\ calculateWorkingDays start (calculateEndDate start required) = required.
Proof.
  intros [Hpos Hle].
  pose proof (countWorking_year_ge start) as Hyear.
  destruct (calculateEndDate_reached start required Hpos ltac:(lia))
    as (k & Hk & Hres & Hcnt & Hmin).
  rewrite Hres. split; [lia|]. split.
  - destruct k as [|k].
    + simpl in Hcnt. rewrite Z.add_0_r.
      destruct (isWorkingDay start); [reflexivity | lia].
    + specialize (Hmin k ltac:(lia)).
      rewrite (countWorking_snoc (S k)) in Hcnt.
      destruct (isWorkingDay (start + Z.of_nat (S k))); [reflexivity | lia].
  - rewrite calculateWorkingDays_offset. exact Hcnt.
Qed.

Lemma calculateEndDate_reaches_up_to_236_witness :
  ymd 2025 1 24 <= calculateEndDate (ymd 2025 1 24) 3 <= ymd 2025 1 24 + 364
  /\ isWorkingDay (calculateEndDate (ymd 2025 1 24) 3) = true
  /\ calculateWorkingDays (ymd 2025 1 24) (calculateEndDate (ymd 2025 1 24) 3) = 3.
Proof. apply calculateEndDate_reaches_up_to_236. lia. Defined.

(** X2. The working days of a range are never negative and never more than
    its calendar days ([diffInDays]); a range whose end lies before its
    start holds none; and a range splits at any date into two ranges whose
    working days add up. *)
Theorem calculateWorkingDays_bounds_and_split (start mid end_ : date) :
  (end_ < start -> calculateWorkingDays start end_ = 0)
  /\ (start <= end_ ->
      0 <= calculateWorkingDays start end_ <= diffInDays start end_)
  /\ (start <= mid + 1 -> mid <= end_ ->
      calculateWorkingDays start end_
      = calculateWorkingDays start mid + calculateWorkingDays (mid + 1) end_).
Proof.
  rewrite !calculateWorkingDays_count. split; [|split].
  - intros H.
    replace (Z.to_nat (end_ - start + 1)) with 0%nat by lia. reflexivity.
  - intros H.
    pose proof (countWorking_bounds (Z.to_nat (end_ - start + 1)) start).
    unfold diffInDays. lia.
  - intros H1 H2.
    replace (Z.to_nat (end_ - start + 1))
      with (Z.to_nat (mid - start + 1) + Z.to_nat (end_ - (mid + 1) + 1))%nat
      by lia.
    rewrite countWorking_app. do 2 f_equal. lia.
Qed.

Lemma calculateWorkingDays_bounds_and_split_witness :
  calculateWorkingDays (ymd 2025 1 20) (ymd 2025 2 7)
  = calculateWorkingDays (ymd 2025 1 20) (ymd 2025 1 26)
    + calculateWorkingDays (ymd 2025 1 27) (ymd 2025 2 7).
Proof.
  apply (calculateWorkingDays_bounds_and_split
           (ymd 2025 1 20) (ymd 2025 1 26) (ymd 2025 2 7));
    vm_compute; discriminate.
Defined.


Lemma allDaysFrom_spec P n a :
  allDaysFrom P n a = true ->
  forall d, a <= d < a + Z.of_nat n -> P d = true.
Proof.
  revert a. induction n as [|n IH]; intros a H d Hd; [lia|].
  cbn [allDaysFrom] in H. apply andb_true_iff in H as [Ha H].
  destruct (Z.eq_dec d a) as [->|Hne]; [exact Ha|].
  apply (IH (a + 1) H). lia.
Qed.

(** For the dates of 1970 to 2099 the week number is between 1 and 53,
    and the week after has the next number or, after week 52 or 53, the
    number 1. *)
Lemma getWeekNumber_next_week (d : date) :
  ymd 1970 1 1 <= d < ymd 2100 1 1 ->
  1 <= getWeekNumber d <= 53
  /\ (getWeekNumber (d + 7) = getWeekNumber d + 1
      \/ (getWeekNumber (d + 7) = 1 /\ 52 <= getWeekNumber d)).
Proof.
  intros Hd.
  pose (ok := fun d =>
    let w := getWeekNumber d in
    let w' := getWeekNumber (d + 7) in
    (1 <=? w) && (w <=? 53)
    && ((w' =? w + 1) || ((w' =? 1) && (52 <=? w)))).
  assert (Hall : allDaysFrom ok (Z.to_nat (ymd 2100 1 1)) (ymd 1970 1 1) = true)
    by (vm_compute; reflexivity).
  pose proof (allDaysFrom_spec ok _ _ Hall d) as Hok.
  change (ymd 1970 1 1) with 0 in *. change (ymd 2100 1 1) with 47482 in *.
  specialize (Hok ltac:(lia)). unfold ok in Hok. cbv zeta in Hok.
  repeat (apply andb_true_iff in Hok as [Hok ?]).
  repeat split; lia.
Qed.



Example getWeekNumber_turn_of_2026 :
  map getWeekNumber [ymd 2025 12 28; ymd 2025 12 29; ymd 2026 1 1;
                     ymd 2026 1 4; ymd 2026 1 5; ymd 2026 12 31]
  = [52; 1; 1; 1; 2; 53].
Proof. reflexivity. Qed.

(* ===================================================================== *)
(** * Properties of the date range and of the week header *)
(* ===================================================================== *)

Lemma getDaysArray_loop_dates fuel dt end_ :
  getDaysArray_loop fuel dt end_
  = map (fun j => dt + Z.of_nat j)
      (seq 0 (Nat.min fuel (Z.to_nat (end_ - dt + 1)))).
Proof.
  revert dt. induction fuel as [|fuel IH]; intros dt; [reflexivity|].
  cbn [getDaysArray_loop].
  destruct (Z.leb_spec dt end_) as [Hle|Hgt].
  - rewrite IH.
    replace (Z.to_nat (end_ - dt + 1))
      with (S (Z.to_nat (end_ - (dt + 1) + 1))) by lia.
    rewrite <- Nat.succ_min_distr. cbn [seq map].
    rewrite Z.add_0_r. f_equal.
    rewrite <- seq_shift, map_map. apply map_ext. intros j. lia.
  - replace (Z.to_nat (end_ - dt + 1)) with 0%nat by lia.
    rewrite Nat.min_0_r. reflexivity.
Qed.

(** The loop of [getDaysArray] leaves through its condition: more
    iterations than [end_ - start + 1] change nothing. *)
Lemma getDaysArray_loop_enough fuel start end_ :
  (Z.to_nat (end_ - start + 1) <= fuel)%nat ->
  getDaysArray_loop fuel start end_ = getDaysArray start end_.
Proof.
  intros H. unfold getDaysArray. rewrite !getDaysArray_loop_dates.
  rewrite Nat.min_r by exact H. rewrite Nat.min_id. reflexivity.
Qed.

Lemma getDaysArray_dates start end_ :
  getDaysArray start end_
  = map (fun j => start + Z.of_nat j) (seq 0 (Z.to_nat (end_ - start + 1))).
Proof.
  unfold getDaysArray. rewrite getDaysArray_loop_dates, Nat.min_id. reflexivity.
Qed.

Lemma getDaysArray_length start end_ :
  length (getDaysArray start end_) = Z.to_nat (end_ - start + 1).
Proof. rewrite getDaysArray_dates, length_map, length_seq. reflexivity. Qed.

Lemma lookup_map {A B} (f : A -> B) (l : list A) (i : nat) :
  map f l !! i = f <$> (l !! i).
Proof.
  revert i. induction l as [|x l IH]; intros [|i]; simpl; try reflexivity.
  apply IH.
Qed.

Lemma getDaysArray_lookup start end_ d :
  start <= d <= end_ ->
  getDaysArray start end_ !! Z.to_nat (d - start) = Some d.
Proof.
  intros H. rewrite getDaysArray_dates, lookup_map.
  rewrite lookup_seq_lt by lia. simpl. f_equal. lia.
Qed.

Lemma fold_left_min_spec l : forall x,
  (fold_left Z.min l x = x \/ In (fold_left Z.min l x) l)
  /\ fold_left Z.min l x <= x
  /\ forall y, In y l -> fold_left Z.min l x <= y.
Proof.
  induction l as [|z l IH]; intros x; simpl.
  - split; [left; reflexivity|]. split; [lia | intros y []].
  - destruct (IH (Z.min x z)) as (Hin & Hle & Hall).
    split; [|split].
    + destruct Hin as [Heq|Hin]; [|right; right; exact Hin].
      rewrite Heq. destruct (Z.min_spec x z) as [[_ ->]|[_ ->]];
        [left; reflexivity | right; left; reflexivity].
    + lia.
    + intros y [<-|Hy]; [lia | apply Hall, Hy].
Qed.

Lemma fold_left_max_spec l : forall x,
  (fold_left Z.max l x = x \/ In (fold_left Z.max l x) l)
  /\ x <= fold_left Z.max l x
  /\ forall y, In y l -> y <= fold_left Z.max l x.
Proof.
  induction l as [|z l IH]; intros x; simpl.
  - split; [left; reflexivity|]. split; [lia | intros y []].
  - destruct (IH (Z.max x z)) as (Hin & Hle & Hall).
    split; [|split].
    + destruct Hin as [Heq|Hin]; [|right; right; exact Hin].
      rewrite Heq. destruct (Z.max_spec x z) as [[_ ->]|[_ ->]];
        [right; left; reflexivity | left; reflexivity].
    + lia.
    + intros y [<-|Hy]; [lia | apply Hall, Hy].
Qed.

(** [Math.min] of a list that is not empty is its least element, and
    [Math.max] its greatest. *)
Lemma Math_min_spec l :
  l <> [] -> In (Math_min l) l /\ forall y, In y l -> Math_min l <= y.
Proof.
  destruct l as [|x l]; [congruence|]. intros _. unfold Math_min.
  destruct (fold_left_min_spec l x) as (Hin & Hle & Hall). split.
  - destruct Hin as [->|Hin]; [left; reflexivity | right; exact Hin].
  - intros y [<-|Hy]; [exact Hle | apply Hall, Hy].
Qed.

Lemma Math_max_spec l :
  l <> [] -> In (Math_max l) l /\ forall y, In y l -> y <= Math_max l.
Proof.
  destruct l as [|x l]; [congruence|]. intros _. unfold Math_max.
  destruct (fold_left_max_spec l x) as (Hin & Hle & Hall). split.
  - destruct Hin as [->|Hin]; [left; reflexivity | right; exact Hin].
  - intros y [<-|Hy]; [exact Hle | apply Hall, Hy].
Qed.

(** X4. The visible range holds every bar with room to spare.  For a
    board with assignments the range starts three days before the earliest
    start date and ends seven days after the latest end date.  For every
    assignment of the board whose end is not before its start, the column
    of the grid under the left edge of its bar is the column of its start
    date, the last column under the bar is that of its end date, at least
    three columns lie to the left of the bar and at least seven to its
    right.  For a board without assignments the range is the seventeen
    dates from two days before today to fourteen days after. *)
Theorem dateRange_holds_every_bar (today : date) (ts : list Task) :
  (forall a, In a (allAssignments ts) -> startDate a <= endDate a ->
     let minDate := fst (dateRange today ts) in
     let dates := snd (dateRange today ts) in
     let left := getOffset minDate (startDate a) in
     let right := left + getWidth (startDate a) (endDate a) in
     dates !! Z.to_nat (left / DAY_WIDTH) = Some (startDate a)
     /\ dates !! Z.to_nat (right / DAY_WIDTH - 1) = Some (endDate a)
     /\ 3 * DAY_WIDTH <= left
     /\ right <= (Z.of_nat (length dates) - 7) * DAY_WIDTH)
  /\ (allAssignments ts <> [] ->
      exists first last,
        In first (allAssignments ts) /\ In last (allAssignments ts)
        /\ (forall a, In a (allAssignments ts) ->
            startDate first <= startDate a /\ endDate a <= endDate last)
        /\ fst (dateRange today ts) = startDate first - 3
        /\ snd (dateRange today ts)
           = getDaysArray (startDate first - 3) (endDate last + 7))
  /\ (allAssignments ts = [] ->
      dateRange today ts
      = (today - 2, map (fun j => today - 2 + Z.of_nat j) (seq 0 17))).
Proof.
  unfold dateRange.
  destruct (allAssignments ts) as [|a0 rest] eqn:Hall.
  - split; [intros a []|]. split; [congruence|]. intros _.
    rewrite getDaysArray_dates. do 3 f_equal. lia.
  - rewrite <- Hall.
    assert (Hne : allAssignments ts <> []) by (rewrite Hall; discriminate).
    assert (Hs : map startDate (allAssignments ts) <> [])
      by (rewrite Hall; discriminate).
    assert (He : map endDate (allAssignments ts) <> [])
      by (rewrite Hall; discriminate).
    destruct (Math_min_spec _ Hs) as [Hminin Hmin].
    destruct (Math_max_spec _ He) as [Hmaxin Hmax].
    set (lo := Math_min (map startDate (allAssignments ts))) in *.
    set (hi := Math_max (map endDate (allAssignments ts))) in *.
    cbn [fst snd]. split; [|split; [|congruence]].
    + intros a Ha Hle.
      assert (Hlo : lo <= startDate a) by (apply Hmin, in_map, Ha).
      assert (Hhi : endDate a <= hi) by (apply Hmax, in_map, Ha).
      unfold getOffset, getWidth, DAY_WIDTH.
      rewrite getDaysArray_length.
      replace ((startDate a - (lo - 3)) * 50
               + (endDate a - startDate a + 1) * 50)
        with ((endDate a - (lo - 3) + 1) * 50) by lia.
      rewrite !Z.div_mul by lia.
      replace (endDate a - (lo - 3) + 1 - 1) with (endDate a - (lo - 3)) by lia.
      rewrite !getDaysArray_lookup by lia.
      repeat split; lia.
    + intros _. apply in_map_iff in Hminin as (first & Hf & Hfin).
      apply in_map_iff in Hmaxin as (last & Hl & Hlin).
      exists first, last. rewrite Hf, Hl.
      split; [exact Hfin|]. split; [exact Hlin|]. split; [|split; reflexivity].
      intros a Ha. split; [apply Hmin | apply Hmax]; apply in_map, Ha.
Qed.

Lemma dateRange_holds_every_bar_witness :
  let minDate := fst (dateRange 0 (tasks editable)) in
  let dates := snd (dateRange 0 (tasks editable)) in
  let left := getOffset minDate (ymd 2025 1 2) in
  let right := left + getWidth (ymd 2025 1 2) (ymd 2025 1 3) in
  dates !! Z.to_nat (left / DAY_WIDTH) = Some (ymd 2025 1 2)
  /\ dates !! Z.to_nat (right / DAY_WIDTH - 1) = Some (ymd 2025 1 3)
  /\ 3 * DAY_WIDTH <= left
  /\ right <= (Z.of_nat (length dates) - 7) * DAY_WIDTH.
Proof.
  apply (proj1 (dateRange_holds_every_bar 0 (tasks editable)) loginAssign).
  - left. reflexivity.
  - vm_compute. discriminate.
Defined.

Lemma weekChunks_loop_spec dates : forall cur,
  fold_right Z.add 0 (map days (weekChunks_loop dates cur))
  = days cur + Z.of_nat (length dates)
  /\ (exists c rest,
        weekChunks_loop dates cur = c :: rest
        /\ week c = week cur /\ year c = year cur /\ days cur <= days c
        /\ (forall d dates', dates = d :: dates' ->
              getWeekNumber d = week cur -> days cur + 1 <= days c)
        /\ Forall (fun c => 1 <= days c) rest)
  /\ (forall i c1 c2,
        weekChunks_loop dates cur !! i = Some c1 ->
        weekChunks_loop dates cur !! S i = Some c2 ->
        week c1 <> week c2).
Proof.
  induction dates as [|d dates IH]; intros cur; cbn [weekChunks_loop].
  - split; [simpl; lia|]. split.
    + exists cur, []. repeat split; try lia; [discriminate | constructor].
    + intros [|i] c1 c2 H1 H2; discriminate.
  - destruct (Z.eqb_spec (getWeekNumber d) (week cur)) as [Heq|Hne]; cbn [negb].
    + destruct (IH {| week := week cur; year := year cur;
                      days := days cur + 1 |})
        as (Hsum & (c & rest & Hcs & Hw & Hy & Hd & _ & Hrest) & Hadj).
      cbn [week year days] in *.
      split; [rewrite Hsum, length_cons; lia|]. split; [|exact Hadj].
      exists c, rest. repeat split; try assumption; try lia.
    + destruct (IH {| week := getWeekNumber d; year := getFullYear d;
                      days := 0 + 1 |})
        as (Hsum & (c & rest & Hcs & Hw & Hy & Hd & _ & Hrest) & Hadj).
      cbn [week year days] in *.
      split; [cbn [map fold_right]; rewrite Hsum, length_cons; lia|]. split.
      * exists cur, (weekChunks_loop dates
                       {| week := getWeekNumber d; year := getFullYear d;
                          days := 0 + 1 |}).
        repeat split; try lia.
        -- intros d' dates' [= <- <-] Hweek. contradiction.
        -- rewrite Hcs. constructor; [lia | exact Hrest].
      * intros [|i] c1 c2 H1 H2.
        -- rewrite Hcs in H2. cbn in H1, H2.
           injection H1 as <-. injection H2 as <-. congruence.
        -- apply (Hadj i c1 c2); assumption.
Qed.

(** X5. The cells of the week header cover the dates exactly: the day
    counts of the chunks add up to the number of dates, every chunk holds
    at least one date, two chunks in a row have different week numbers,
    the first chunk is that of the first date, and there is no chunk only
    when there is no date. *)
Theorem weekChunks_cover_dates (dates : list date) :
  fold_right Z.add 0 (map days (weekChunks dates)) = Z.of_nat (length dates)
  /\ Forall (fun c => 1 <= days c) (weekChunks dates)
  /\ (forall i c1 c2,
        weekChunks dates !! i = Some c1 -> weekChunks dates !! S i = Some c2 ->
        week c1 <> week c2)
  /\ (forall d dates', dates = d :: dates' ->
        exists c rest, weekChunks dates = c :: rest
          /\ week c = getWeekNumber d /\ year c = getFullYear d)
  /\ (weekChunks dates = [] <-> dates = []).
Proof.
  destruct dates as [|d0 dates].
  - repeat split; try reflexivity; try constructor.
    + intros [|i] c1 c2 H; discriminate.
    + intros d dates'; discriminate.
  - unfold weekChunks.
    destruct (weekChunks_loop_spec (d0 :: dates)
                {| week := getWeekNumber d0; year := getFullYear d0; days := 0 |})
      as (Hsum & (c & rest & Hcs & Hw & Hy & _ & Hfirst & Hrest) & Hadj).
    cbn [week year days] in *.
    specialize (Hfirst d0 dates eq_refl eq_refl).
    split; [rewrite Hsum; lia|]. split; [rewrite Hcs; constructor; [lia | exact Hrest]|].
    split; [exact Hadj|]. split.
    + intros d dates' [= <- <-]. exists c, rest. repeat split; assumption.
    + rewrite Hcs. split; discriminate.
Qed.

Example weekChunks_scenario :
  map (fun c => (week c, year c, days c))
    (weekChunks (snd (dateRange 0 [loginTask])))
  = [ (1, 2024, 7); (2, 2025, 5) ].
Proof. vm_compute. reflexivity. Qed.

(** On dates that follow one another a chunk never outgrows a week: the
    chunk being filled holds the [k <= 7] dates before [a], which all have
    its week number. *)
Lemma weekChunks_loop_at_most_week (n : nat) : forall a cur,
  0 <= days cur <= 7 ->
  ymd 1970 1 1 <= a - days cur ->
  a + Z.of_nat n <= ymd 2100 1 1 ->
  (forall j, 1 <= j <= days cur -> getWeekNumber (a - j) = week cur) ->
  Forall (fun c => days c <= 7)
    (weekChunks_loop (map (fun j => a + Z.of_nat j) (seq 0 n)) cur).
Proof.
  induction n as [|n IH]; intros a cur Hk Hlo Hhi Hrun.
  - cbn. constructor; [lia | constructor].
  - cbn [seq map weekChunks_loop]. rewrite Z.add_0_r.
    assert (Htail : map (fun j => a + Z.of_nat j) (seq 1 n)
                    = map (fun j => a + 1 + Z.of_nat j) (seq 0 n)).
    { rewrite <- seq_shift, map_map. apply map_ext. intros j. lia. }
    rewrite Htail.
    destruct (Z.eqb_spec (getWeekNumber a) (week cur)) as [Heq|Hne]; cbn [negb].
    + assert (Hk' : days cur < 7).
      { destruct (Z.eq_dec (days cur) 7) as [H7|]; [|lia].
        pose proof (Hrun 7 ltac:(lia)) as Hback.
        destruct (getWeekNumber_next_week (a - 7) ltac:(lia)) as [Hr Hnext].
        replace (a - 7 + 7) with a in Hnext by lia. lia. }
      apply IH; cbn [week days]; try lia.
      intros j Hj. destruct (Z.eq_dec j 1) as [->|Hj1].
      * replace (a + 1 - 1) with a by lia. exact Heq.
      * replace (a + 1 - j) with (a - (j - 1)) by lia. apply Hrun. lia.
    + constructor; [lia|].
      apply IH; cbn [week days]; try lia.
      intros j Hj. replace j with 1 by lia.
      replace (a + 1 - 1) with a by lia. reflexivity.
Qed.

(** X6. On the dates of a range, as [getDaysArray] lists them, every cell
    of the week header covers one to seven days (for ranges within 1970 to
    2099). *)
Theorem weekChunks_at_most_seven_days (start end_ : date) :
  ymd 1970 1 1 <= start -> end_ < ymd 2100 1 1 ->
  Forall (fun c => 1 <= days c <= 7) (weekChunks (getDaysArray start end_)).
Proof.
  intros Hlo Hhi. rewrite getDaysArray_dates.
  set (n := Z.to_nat (end_ - start + 1)).
  assert (Hmin : Forall (fun c => 1 <= days c)
                   (weekChunks (map (fun j => start + Z.of_nat j) (seq 0 n)))).
  { clearbody n. clear. destruct n as [|m]; [constructor|].
    set (dates := map (fun j => start + Z.of_nat j) (seq 0 (S m))).
    assert (Hd : dates = (start + 0) :: tl dates) by reflexivity.
    unfold weekChunks. rewrite Hd. rewrite <- Hd.
    destruct (weekChunks_loop_spec dates
                {| week := getWeekNumber (start + 0);
                   year := getFullYear (start + 0); days := 0 |})
      as (_ & (c & rest & Hcs & _ & _ & _ & Hfirst & Hrest) & _).
    cbn [week year days] in *.
    specialize (Hfirst _ _ Hd eq_refl).
    rewrite Hcs. constructor; [lia | exact Hrest]. }
  assert (Hmax : Forall (fun c => days c <= 7)
                   (weekChunks (map (fun j => start + Z.of_nat j) (seq 0 n)))).
  { destruct n as [|m] eqn:Hn; [constructor|].
    unfold weekChunks. cbn [seq map].
    change (start + Z.of_nat 0 :: map (fun j => start + Z.of_nat j) (seq 1 m))
      with (map (fun j => start + Z.of_nat j) (seq 0 (S m))).
    apply weekChunks_loop_at_most_week; cbn [week days]; lia. }
  rewrite Forall_forall in *. intros c Hc.
  specialize (Hmin c Hc). specialize (Hmax c Hc). cbv beta in *. lia.
Qed.

Lemma weekChunks_at_most_seven_days_witness :
  Forall (fun c => 1 <= days c <= 7)
    (weekChunks (getDaysArray (ymd 2024 12 30) (ymd 2025 1 10))).
Proof.
  apply weekChunks_at_most_seven_days; vm_compute; [discriminate | reflexivity].
Defined.

(* ===================================================================== *)
(** * Further properties of the drag/click state machine *)
(* ===================================================================== *)

Lemma findIndex_none {A} (f : A -> bool) (l : list A) :
  findIndex f l = -1 -> forall x, In x l -> f x = false.
Proof.
  induction l as [|y l IH]; simpl; [intros _ x []|].
  destruct (f y) eqn:Hy; [discriminate|].
  destruct (Z.eqb_spec (findIndex f l) (-1)) as [Heq|Hne].
  - intros _ x [<-|Hx]; [exact Hy | apply IH; assumption].
  - pose proof (findIndex_found f l Hne). lia.
Qed.

(** [findIndex] finds the first element that satisfies the test. *)
Lemma findIndex_first {A} (f : A -> bool) (l : list A) :
  findIndex f l <> -1 ->
  forall (j : nat) x, (j < Z.to_nat (findIndex f l))%nat ->
    l !! j = Some x -> f x = false.
Proof.
  induction l as [|y l IH]; simpl; [intros H; contradiction H; reflexivity|].
  destruct (f y) eqn:Hy; [intros _ j x Hj; simpl in Hj; lia|].
  destruct (Z.eqb_spec (findIndex f l) (-1)) as [Heq|Hne];
    [intros H; contradiction H; reflexivity|].
  intros _ [|j] x Hj Hx.
  - injection Hx as <-. exact Hy.
  - pose proof (findIndex_found f l Hne) as [H0 _].
    apply (IH Hne j x); [lia | exact Hx].
Qed.

Lemma commitBar_committed bar a : committed bar a (commitBar bar a).
Proof.
  unfold committed, commitBar, sameButDates.
  destruct (eqb (assign_id a) (assignmentId bar)) eqn:Hid.
  - apply eqb_eq in Hid. cbn. repeat split; try reflexivity. congruence.
  - apply eqb_neq in Hid. repeat split; try reflexivity; congruence.
Qed.

Lemma Forall2_map_r {A B} (R : A -> B -> Prop) (f : A -> B) (l : list A) :
  (forall x, R x (f x)) -> Forall2 R l (map f l).
Proof. intros H. induction l; simpl; constructor; auto. Qed.

Lemma map_insert_same {A B} (f : A -> B) (l : list A) (i : nat) (x y : A) :
  l !! i = Some y -> f x = f y -> map f (<[i := x]> l) = map f l.
Proof.
  revert i. induction l as [|z l IH]; intros [|i] Hi Hf; try discriminate.
  - injection Hi as ->. simpl. rewrite Hf. reflexivity.
  - simpl. f_equal. apply IH; assumption.
Qed.

(** A collection is published only by a chart that may be edited and has
    the callback, only out of an open session, and it holds the features of
    the board, none more and none less. *)
Lemma handleDrop_publish p st targetRow ts :
  In (onTaskReorder ts) (snd (handleDrop p st targetRow)) ->
  readOnly p = false /\ hasOnTaskReorder p = true
  /\ is_Some (draggedItem st)
  /\ map task_id ts ≡ₚ map task_id (tasks p).
Proof.
  unfold handleDrop. intros Hin.
  destruct (draggedItem st) as [item|]; [|simpl in Hin; intuition discriminate].
  destruct (readOnly p) eqn:Hro; [simpl in Hin; intuition discriminate|].
  destruct (hasOnTaskReorder p) eqn:Hcb; [|simpl in Hin; intuition discriminate].
  cbn [orb negb] in Hin.
  split; [reflexivity|]. split; [reflexivity|]. split; [eexists; reflexivity|].
  destruct (drag_type item), (isHeader targetRow).
  - destruct (eqb _ _); [simpl in Hin; intuition discriminate|].
    destruct (_ || _); [simpl in Hin; intuition discriminate|].
    simpl in Hin. destruct Hin as [Hin|[Hin|[]]]; [discriminate|].
    injection Hin as <-. apply Permutation_map, moveItem_Permutation.
  - destruct (originalAssignment targetRow); simpl in Hin; intuition discriminate.
  - destruct (originalAssignment targetRow); simpl in Hin; intuition discriminate.
  - destruct (originalAssignment targetRow) as [targetAssign|];
      [|simpl in Hin; intuition discriminate].
    destruct (negb _); [simpl in Hin; intuition discriminate|].
    destruct (eqb (drag_id item) _); [simpl in Hin; intuition discriminate|].
    revert Hin.
    destruct (Z.eqb_spec
                (findIndex (fun t => bool_decide (Some (task_id t)
                                                  = drag_parentId item))
                   (tasks p)) (-1)) as [|Hfound];
      [simpl; intuition discriminate|].
    destruct (findIndex_found _ _ Hfound) as (_ & task & Htask & Hid).
    rewrite Htask. intros Hin.
    destruct (_ || _); [simpl in Hin; intuition discriminate|].
    simpl in Hin. destruct Hin as [Hin|[Hin|[]]]; [discriminate|].
    injection Hin as <-.
    rewrite (map_insert_same task_id _ _ _ task Htask); reflexivity.
Qed.

Lemma handleMouseUp_publish p st ts :
  In (onTaskReorder ts) (snd (handleMouseUp p st)) ->
  readOnly p = false /\ hasOnTaskReorder p = true
  /\ (exists bar, draggedBar st = Some bar /\ hasMoved bar = true)
  /\ map task_id ts = map task_id (tasks p).
Proof.
  unfold handleMouseUp. intros Hin.
  destruct (draggedBar st) as [bar|]; [|simpl in Hin; contradiction].
  cbn [snd] in Hin.
  destruct (hasMoved bar) eqn:Hmoved; cbn [negb] in Hin;
    [|simpl in Hin; intuition discriminate].
  destruct (hasOnTaskReorder p) eqn:Hcb; [|simpl in Hin; contradiction].
  destruct (readOnly p) eqn:Hro; [simpl in Hin; contradiction|].
  cbn [andb negb] in Hin.
  split; [reflexivity|]. split; [reflexivity|].
  split; [exists bar; split; [reflexivity | exact Hmoved]|].
  revert Hin.
  destruct (Z.eqb_spec
              (findIndex (fun t => eqb (task_id t) (parentId bar)) (tasks p))
              (-1)) as [|Hfound]; [intros []|].
  destruct (findIndex_found _ _ Hfound) as (_ & task & Htask & Hid).
  cbn [negb]. rewrite Htask. intros Hin.
  simpl in Hin. destruct Hin as [Hin|[]]. injection Hin as <-.
  apply (map_insert_same task_id _ _ _ task Htask). reflexivity.
Qed.

Lemma handleDragStart_quiet p st row ts :
  ~ In (onTaskReorder ts) (snd (handleDragStart p st row)).
Proof.
  unfold handleDragStart.
  destruct (readOnly p || _); [simpl; intuition discriminate|].
  destruct (isHeader row); [simpl; tauto|].
  destruct (originalAssignment row); simpl; tauto.
Qed.

Lemma handleBarMouseDown_quiet p st row x ts :
  ~ In (onTaskReorder ts) (snd (handleBarMouseDown p st row x)).
Proof.
  unfold handleBarMouseDown.
  destruct (originalAssignment row), (row_startDate row), (row_endDate row);
    try (simpl; tauto).
  destruct (readOnly p); simpl; intuition discriminate.
Qed.

(** Only a drop and a pointer-up publish. *)
Lemma step_quiet p st ev ts :
  In (onTaskReorder ts) (snd (step p st ev)) ->
  (ev = MouseUp /\ In (onTaskReorder ts) (snd (handleMouseUp p st)))
  \/ (exists targetRow, ev = Drop targetRow /\ isDraggable p = true
       /\ In (onTaskReorder ts) (snd (handleDrop p st targetRow))).
Proof.
  destruct ev as [row|row|row x|x|]; cbn [step]; intros Hin.
  - exfalso. destruct (isDraggable p), (isHeader row);
      try (simpl in Hin; intuition discriminate).
    + exact (handleDragStart_quiet _ _ _ _ Hin).
    + pose proof (handleDragStart_quiet p st row ts) as Hq.
      destruct (handleDragStart p st row) as [st' effs].
      simpl in Hin, Hq. destruct Hin as [Hin|Hin]; [discriminate | tauto].
  - destruct (isDraggable p) eqn:Hd; [|simpl in Hin; contradiction].
    right. exists row. repeat split; assumption.
  - exfalso. destruct (isHeader row), (row_startDate row), (row_endDate row);
      try (simpl in Hin; contradiction).
    exact (handleBarMouseDown_quiet _ _ _ _ _ Hin).
  - simpl in Hin. contradiction.
  - left. split; [reflexivity | exact Hin].
Qed.

(** X7. The chart publishes a collection on two occasions only: the
    pointer-up of a bar session that has moved, and a drop while a reorder
    session is open in a chart grouped by feature.  In both the chart is
    not read-only and has the callback, and the collection published holds
    the features of the board, none added and none lost.  A pointer-down,
    a pointer-move and a drag start never publish. *)
Theorem step_publishes_only_on_commit
    (p : Props) (st : State) (ev : Event) (ts : list Task) :
  In (onTaskReorder ts) (snd (step p st ev)) ->
  readOnly p = false /\ hasOnTaskReorder p = true
  /\ map task_id ts ≡ₚ map task_id (tasks p)
  /\ ((ev = MouseUp
       /\ exists bar, draggedBar st = Some bar /\ hasMoved bar = true)
      \/ (exists targetRow, ev = Drop targetRow
          /\ groupBy p = GroupBy_None /\ is_Some (draggedItem st))).
Proof.
  intros Hin. apply step_quiet in Hin as [[-> Hin]|(row & -> & Hd & Hin)].
  - destruct (handleMouseUp_publish _ _ _ Hin) as (Hro & Hcb & Hbar & Hids).
    repeat split; try assumption; [rewrite Hids; reflexivity|].
    left. split; [reflexivity | exact Hbar].
  - destruct (handleDrop_publish _ _ _ _ Hin) as (Hro & Hcb & Hitem & Hperm).
    repeat split; try assumption. right. exists row.
    repeat split; try assumption.
    unfold isDraggable in Hd. destruct (groupBy p); [reflexivity|discriminate].
Qed.

Lemma step_publishes_only_on_commit_witness :
  readOnly editable = false /\ hasOnTaskReorder editable = true
  /\ map task_id [checkoutTask; loginTask; longTask]
     ≡ₚ map task_id (tasks editable).
Proof.
  destruct (step_publishes_only_on_commit editable
              (fst (handleDragStart editable initialState checkoutHeader))
              (Drop loginHeader) [checkoutTask; loginTask; longTask])
    as (Hro & Hcb & Hperm & _).
  - right. left. reflexivity.
  - repeat split; assumption.
Defined.

(** X8. A chart that is read-only, or that was given no [onTaskReorder],
    never publishes and never changes the board, whatever the events. *)
Theorem run_never_publishes_when_locked
    (evs : list Event) (p : Props) (st : State) :
  readOnly p = true \/ hasOnTaskReorder p = false ->
  fst (fst (run p st evs)) = p
  /\ forall ts, ~ In (onTaskReorder ts) (snd (run p st evs)).
Proof.
  intros Hlocked. revert st.
  induction evs as [|ev evs IH]; intros st; cbn [run].
  - split; [reflexivity | intros ts []].
  - assert (Hquiet : forall ts, ~ In (onTaskReorder ts) (snd (step p st ev))).
    { intros ts Hin.
      assert (Hguard : readOnly p = false /\ hasOnTaskReorder p = true).
      { apply step_quiet in Hin as [[_ Hin]|(row & _ & _ & Hin)].
        - destruct (handleMouseUp_publish _ _ _ Hin) as (? & ? & _). tauto.
        - destruct (handleDrop_publish _ _ _ _ Hin) as (? & ? & _). tauto. }
      destruct Hlocked, Hguard; congruence. }
    destruct (step p st ev) as [st' effs]. cbn [snd] in Hquiet.
    assert (Hsame : fold_left receive effs p = p).
    { clear IH. induction effs as [|e effs IHe]; [reflexivity|].
      cbn [fold_left].
      assert (He : receive p e = p).
      { destruct e; try reflexivity.
        exfalso. apply (Hquiet newTasks). left. reflexivity. }
      rewrite He. apply IHe. intros ts Hin. apply (Hquiet ts). right. exact Hin. }
    rewrite Hsame. specialize (IH st').
    destruct (run p st' evs) as [[p'' st''] effs']. cbn [fst snd] in *.
    destruct IH as [Hp Hnone]. split; [exact Hp|].
    intros ts Hin. apply in_app_or in Hin as [Hin|Hin].
    + apply (Hquiet ts Hin).
    + apply (Hnone ts Hin).
Qed.

Lemma run_never_publishes_when_locked_witness :
  fst (fst (run snapshot initialState
              [BarMouseDown loginBar 100; MouseMove 350; MouseUp;
               DragStart loginHeader; Drop checkoutHeader]))
  = snapshot.
Proof.
  apply (run_never_publishes_when_locked _ snapshot initialState).
  left. reflexivity.
Defined.

(** The commit of a moved bar: the collection published differs from the
    board in one feature only, the first whose id is the session's
    [parentId], and in that feature in the dates of the dragged assignment
    only. *)
Lemma handleMouseUp_frame p st bar ts :
  draggedBar st = Some bar ->
  In (onTaskReorder ts) (snd (handleMouseUp p st)) ->
  exists (i : nat) (task task' : Task),
    tasks p !! i = Some task
    /\ task_id task = parentId bar
    /\ (forall (j : nat) t, (j < i)%nat -> tasks p !! j = Some t ->
          task_id t <> parentId bar)
    /\ length ts = length (tasks p)
    /\ (forall j : nat, j <> i -> ts !! j = tasks p !! j)
    /\ ts !! i = Some task'
    /\ task_id task' = task_id task /\ name task' = name task
    /\ Forall2 (committed bar) (assignments task) (assignments task').
Proof.
  unfold handleMouseUp. intros Hbar. rewrite Hbar. cbn [snd].
  destruct (hasMoved bar); cbn [negb]; [|simpl; intuition discriminate].
  destruct (hasOnTaskReorder p && negb (readOnly p)); [|intros []].
  destruct (Z.eqb_spec
              (findIndex (fun t => eqb (task_id t) (parentId bar)) (tasks p))
              (-1)) as [|Hfound]; [intros []|].
  pose proof (findIndex_first _ _ Hfound) as Hfirst.
  destruct (findIndex_found _ _ Hfound) as (_ & task & Htask & Hid).
  cbn [negb]. rewrite Htask. intros [Hin|[]]. injection Hin as <-.
  set (i := Z.to_nat _) in *.
  exists i, task,
    (withAssignments task (map (commitBar bar) (assignments task))).
  split; [exact Htask|]. split; [apply eqb_eq; exact Hid|].
  split.
  { intros j t Hj Ht. apply eqb_neq. exact (Hfirst j t Hj Ht). }
  split; [apply length_insert|].
  split; [intros j Hj; apply list_lookup_insert_ne; congruence|].
  split; [apply list_lookup_insert_eq; eapply lookup_lt_Some; exact Htask|].
  split; [reflexivity|]. split; [reflexivity|].
  apply Forall2_map_r, commitBar_committed.
Qed.

(** X9. The commit of a moved bar touches one assignment's dates and nothing
    else: the collection published is as long as the board, every feature
    but one is the one of the board at the same place, and that one, the
    first feature whose id is the session's, keeps its id, its name and its
    assignments in order, each unchanged unless it has the dragged id, in
    which case it takes the live dates of the session and keeps role,
    sub-label, progress and colour. *)
Theorem handleMouseUp_commits_only_dragged_bar
    (p : Props) (st : State) (bar : BarDragState) (ts : list Task) :
  draggedBar st = Some bar ->
  In (onTaskReorder ts) (snd (handleMouseUp p st)) ->
  exists (i : nat) (task task' : Task),
    tasks p !! i = Some task
    /\ task_id task = parentId bar
    /\ (forall (j : nat) t, (j < i)%nat -> tasks p !! j = Some t ->
          task_id t <> parentId bar)
    /\ length ts = length (tasks p)
    /\ (forall j : nat, j <> i -> ts !! j = tasks p !! j)
    /\ ts !! i = Some task'
    /\ task_id task' = task_id task /\ name task' = name task
    /\ Forall2 (committed bar) (assignments task) (assignments task').
Proof. exact (handleMouseUp_frame p st bar ts). Qed.

Lemma handleMouseUp_commits_only_dragged_bar_witness :
  let st := handleMouseMove editable (armed editable loginBar) 150 in
  exists bar ts,
    draggedBar st = Some bar
    /\ In (onTaskReorder ts) (snd (handleMouseUp editable st))
    /\ length ts = length (tasks editable)
    /\ exists (i : nat) (task task' : Task),
         ts !! i = Some task' /\ tasks editable !! i = Some task
         /\ Forall2 (committed bar) (assignments task) (assignments task').
Proof.
  intros st. eexists. eexists.
  split; [reflexivity|]. split; [left; reflexivity|].
  edestruct (handleMouseUp_commits_only_dragged_bar editable st)
    as (i & task & task' & Htask & _ & _ & Hlen & _ & Htask' & _ & _ & Hall);
    [reflexivity | left; reflexivity |].
  split; [exact Hlen|]. exists i, task, task'. auto.
Defined.

(** X10. A whole drag of a bar, pointer-down at [x0], one pointer-move to
    [x1], pointer-up, in a chart that may be edited, on a leaf row whose
    feature is on the board, for an offset that rounds to [delta <> 0] days
    and a bar of 1 to 236 working days: the chart stops the propagation of
    the pointer-down and publishes one collection, which becomes the board;
    no click is reported and the session is closed.  The collection differs
    from the board in the first feature with the row's feature id only, and
    there every assignment with the row's assignment id starts [delta] days
    after the start the row showed and spans as many working days as the
    row showed; every other assignment is unchanged. *)
Theorem bar_drag_moves_and_keeps_working_days
    (p : Props) (row : RenderRow) (a : TaskAssignment) (s e : date)
    (x0 x1 : Z) :
  readOnly p = false -> hasOnTaskReorder p = true ->
  isHeader row = false ->
  originalAssignment row = Some a ->
  row_startDate row = Some s -> row_endDate row = Some e ->
  In (originalTask row) (tasks p) ->
  roundDiv (x1 - x0) DAY_WIDTH <> 0 ->
  0 < calculateWorkingDays s e <= 236 ->
  let delta := roundDiv (x1 - x0) DAY_WIDTH in
  let result := run p initialState [BarMouseDown row x0; MouseMove x1; MouseUp] in
  exists (ts : list Task) (i : nat) (task task' : Task),
    snd result = [stopPropagation; onTaskReorder ts]
    /\ tasks (fst (fst result)) = ts
    /\ snd (fst result) = initialState
    /\ tasks p !! i = Some task
    /\ task_id task = task_id (originalTask row)
    /\ (forall (j : nat) t, (j < i)%nat -> tasks p !! j = Some t ->
          task_id t <> task_id (originalTask row))
    /\ length ts = length (tasks p)
    /\ (forall j : nat, j <> i -> ts !! j = tasks p !! j)
    /\ ts !! i = Some task'
    /\ task_id task' = task_id task /\ name task' = name task
    /\ Forall2 (fun b b' =>
         sameButDates b b'
         /\ (assign_id b = assign_id a ->
             startDate b' = s + delta
             /\ calculateWorkingDays (startDate b') (endDate b')
                = calculateWorkingDays s e)
         /\ (assign_id b <> assign_id a -> b' = b))
         (assignments task) (assignments task').
Proof.
  intros Hro Hcb Hleaf Ha Hs He Hon Hdelta [Hpos Hle] delta result.
  set (wd := calculateWorkingDays s e) in *.
  set (bar := {| assignmentId := assign_id a;
                 parentId := task_id (originalTask row);
                 startX := x0;
                 originalStart := s; originalEnd := e;
                 originalWorkingDays := wd;
                 currentStart := addDaysToDate s delta;
                 currentEnd := calculateEndDate (addDaysToDate s delta) wd;
                 hasMoved := true;
                 taskReference := originalTask row |}).
  set (st2 := {| draggedItem := None; draggedBar := Some bar |}).
  assert (Hdown : step p initialState (BarMouseDown row x0)
                  = ({| draggedItem := None;
                        draggedBar := Some
                          {| assignmentId := assign_id a;
                             parentId := task_id (originalTask row);
                             startX := x0;
                             originalStart := s; originalEnd := e;
                             originalWorkingDays := wd;
                             currentStart := s; currentEnd := e;
                             hasMoved := false;
                             taskReference := originalTask row |} |},
                     [stopPropagation])).
  { cbn [step]. rewrite Hleaf, Hs, He. unfold handleBarMouseDown.
    rewrite Ha, Hs, He, Hro. reflexivity. }
  assert (Hmove : forall st1, step p st1 (MouseMove x1)
                              = (handleMouseMove p st1 x1, [])) by reflexivity.
  assert (Hst2 : handleMouseMove p (fst (step p initialState (BarMouseDown row x0))) x1
                 = st2).
  { rewrite Hdown. unfold handleMouseMove. cbn [fst draggedBar startX].
    rewrite Hro. fold delta.
    destruct (Z.eqb_spec delta 0) as [?|_]; [contradiction|].
    cbn [originalWorkingDays originalStart].
    destruct (Z.gtb_spec wd 0) as [_|?]; [|lia]. reflexivity. }
  assert (Hfound : findIndex (fun t => eqb (task_id t) (parentId bar)) (tasks p)
                   <> -1).
  { intros Hnone. pose proof (findIndex_none _ _ Hnone _ Hon) as Hno.
    cbv beta in Hno. apply eqb_neq in Hno. apply Hno. reflexivity. }
  destruct (findIndex_found _ _ Hfound) as (_ & task0 & Htask0 & _).
  assert (Hup : exists ts, handleMouseUp p st2 = (initialState, [onTaskReorder ts])).
  { unfold handleMouseUp. cbn [st2 draggedBar draggedItem hasMoved bar negb].
    rewrite Hcb, Hro. cbn [andb negb].
    fold bar.
    destruct (Z.eqb_spec
                (findIndex (fun t => eqb (task_id t) (parentId bar)) (tasks p))
                (-1)) as [|_]; [contradiction|].
    cbn [negb]. cbn [parentId bar] in Htask0 |- *. rewrite Htask0.
    eexists. reflexivity. }
  destruct Hup as [ts Hup].
  destruct (handleMouseUp_frame p st2 bar ts eq_refl
              ltac:(rewrite Hup; left; reflexivity))
    as (i & task & task' & Htask & Hid & Hfirst & Hlen & Hrest & Htask'
        & Hid' & Hname & Hall).
  exists ts, i, task, task'.
  assert (Hrun : result = ({| tasks := ts; groupBy := groupBy p;
                              readOnly := readOnly p;
                              hasOnTaskReorder := hasOnTaskReorder p |},
                           initialState,
                           [stopPropagation; onTaskReorder ts])).
  { unfold result. cbn [run]. rewrite Hdown. cbn [fold_left receive].
    rewrite Hmove. cbn [fold_left].
    rewrite Hdown in Hst2. cbn [fst] in Hst2. rewrite Hst2.
    cbn [step]. rewrite Hup. cbn [fold_left receive]. rewrite Hro.
    reflexivity. }
  rewrite Hrun. cbn [fst snd tasks].
  repeat (split; [first [reflexivity | assumption]|]).
  eapply Forall2_impl; [exact Hall|].
  intros b b' (Hsame & Hdragged & Hother). cbn [assignmentId bar] in *.
  split; [exact Hsame|]. split; [|exact Hother].
  intros Hb. destruct (Hdragged Hb) as [-> ->].
  cbn [currentStart currentEnd bar]. split; [reflexivity|].
  apply calculateEndDate_span; [exact Hpos|].
  change 364 with (Z.of_nat 364).
  rewrite calculateWorkingDays_offset.
  pose proof (countWorking_year_ge (addDaysToDate s delta)). lia.
Qed.

Lemma bar_drag_moves_and_keeps_working_days_witness :
  exists (ts : list Task) (i : nat) (task task' : Task),
    snd (run editable initialState
           [BarMouseDown loginBar 100; MouseMove 150; MouseUp])
    = [stopPropagation; onTaskReorder ts]
    /\ ts !! i = Some task'
    /\ tasks editable !! i = Some task
    /\ Forall2 (fun b b' =>
         sameButDates b b'
         /\ (assign_id b = assign_id loginAssign ->
             startDate b' = ymd 2025 1 2 + 1
             /\ calculateWorkingDays (startDate b') (endDate b') = 2)
         /\ (assign_id b <> assign_id loginAssign -> b' = b))
         (assignments task) (assignments task').
Proof.
  destruct (bar_drag_moves_and_keeps_working_days editable loginBar loginAssign
              (ymd 2025 1 2) (ymd 2025 1 3) 100 150)
    as (ts & i & task & task' & Heffs & _ & _ & Htask & _ & _ & _ & _
        & Htask' & _ & _ & Hall);
    try reflexivity.
  - left. reflexivity.
  - vm_compute. discriminate.
  - vm_compute. split; [reflexivity | discriminate].
  - exists ts, i, task, task'. repeat split; assumption.
Defined.

(* ===================================================================== *)
(** * Further properties of the row projection *)
(* ===================================================================== *)

(** X11. Grouped by feature, the chart shows the board in its order: the
    header rows are the features, the leaf rows are the assignments, both
    in the order of the board.  A leaf shows the stored dates of
    its assignment unless a bar session is open on the assignment's id, in
    which case it shows the live dates of the session. *)
Theorem rowsByFeature_in_board_order
    (ts : list Task) (bar : option BarDragState) :
  map originalTask (List.filter isHeader (rowsByFeature ts bar)) = ts
  /\ omap originalAssignment (rowsByFeature ts bar) = allAssignments ts
  /\ (forall task assign,
        In task ts -> In assign (assignments task) ->
        let row := featureLeaf bar task assign in
        In row (rowsByFeature ts bar)
        /\ originalTask row = task
        /\ match bar with
           | Some b =>
               if bool_decide (assignmentId b = assign_id assign)
               then row_startDate row = Some (currentStart b)
                    /\ row_endDate row = Some (currentEnd b)
               else row_startDate row = Some (startDate assign)
                    /\ row_endDate row = Some (endDate assign)
           | None => row_startDate row = Some (startDate assign)
                     /\ row_endDate row = Some (endDate assign)
           end).
Proof.
  split; [|split].
  - unfold rowsByFeature. induction ts as [|task ts IH]; [reflexivity|].
    cbn [flat_map]. rewrite List.filter_app, map_app, IH.
    cbn [List.filter featureHeader isHeader map app originalTask].
    f_equal.
    induction (assignments task) as [|a l IHl]; [reflexivity|].
    cbn [map List.filter featureLeaf isHeader]. exact IHl.
  - unfold rowsByFeature, allAssignments.
    induction ts as [|task ts IH]; [reflexivity|].
    cbn [flat_map]. rewrite omap_app, IH. f_equal.
    simpl. induction (assignments task) as [|a l IHl]; [reflexivity|].
    simpl. f_equal. exact IHl.
  - intros task assign Htask Hassign row. split; [|split; [reflexivity|]].
    + unfold rowsByFeature. apply in_flat_map. exists task.
      split; [exact Htask|]. right. apply in_map. exact Hassign.
    + unfold row, featureLeaf, liveStart, liveEnd, isDragging, eqb.
      cbn [row_startDate row_endDate].
      destruct bar as [b|]; [|split; reflexivity].
      destruct (bool_decide (assignmentId b = assign_id assign));
        split; reflexivity.
Qed.

Lemma rowsByFeature_in_board_order_witness :
  In loginBar (rowsByFeature (tasks editable) None)
  /\ row_startDate loginBar = Some (ymd 2025 1 2).
Proof.
  destruct (rowsByFeature_in_board_order (tasks editable) None)
    as (_ & _ & Hleaf).
  destruct (Hleaf loginTask loginAssign) as (Hin & _ & Hstart & _).
  - left. reflexivity.
  - left. reflexivity.
  - split; [exact Hin | exact Hstart].
Defined.

Section RowMembership.
Context {U : Unicode}.

Lemma pushItem_lookup k item groups k' :
  lookupGroup k' (pushItem k item groups)
  = if eqb k k' then lookupGroup k' groups ++ [item]
    else lookupGroup k' groups.
Proof.
  induction groups as [|[k0 items] groups IH]; simpl.
  - destruct (eqb k k'); reflexivity.
  - destruct (eqb k0 k) eqn:H0k; simpl.
    + apply eqb_eq in H0k. subst k0.
      destruct (eqb k k'); reflexivity.
    + rewrite IH. destruct (eqb k0 k') eqn:H0k'; [|reflexivity].
      apply eqb_eq in H0k'. apply eqb_neq in H0k.
      destruct (eqb k k') eqn:Hkk'; [|reflexivity].
      apply eqb_eq in Hkk'. congruence.
Qed.

Lemma fold_buckets_lookup item buckets k x : forall groups,
  In x (lookupGroup k
          (fold_left (fun groups targetRole => pushItem targetRole item groups)
             buckets groups))
  <-> In x (lookupGroup k groups) \/ (x = item /\ In k buckets).
Proof.
  induction buckets as [|b buckets IH]; intros groups; cbn [fold_left].
  - simpl. tauto.
  - rewrite IH, pushItem_lookup. cbn [In].
    destruct (eqb b k) eqn:Hb.
    + apply eqb_eq in Hb. subst b. rewrite in_app_iff. simpl. intuition.
    + apply eqb_neq in Hb. intuition congruence.
Qed.

Lemma fold_assignments_lookup task l k x : forall groups,
  In x (lookupGroup k
          (fold_left (fun groups assign =>
             fold_left (fun groups targetRole =>
               pushItem targetRole (task, assign) groups)
               (bucketsOf assign) groups) l groups))
  <-> In x (lookupGroup k groups)
      \/ exists assign, x = (task, assign) /\ In assign l
                        /\ In k (bucketsOf assign).
Proof.
  induction l as [|a l IH]; intros groups; cbn [fold_left].
  - split; [tauto|]. intros [H|(? & _ & [] & _)]. exact H.
  - rewrite IH, fold_buckets_lookup. split.
    + intros [[H|[-> Hk]]|(a' & -> & Ha' & Hk)].
      * left. exact H.
      * right. exists a. repeat split; [left; reflexivity | exact Hk].
      * right. exists a'. repeat split; [right; exact Ha' | exact Hk].
    + intros [H|(a' & -> & [<-|Ha'] & Hk)].
      * left. left. exact H.
      * left. right. split; [reflexivity | exact Hk].
      * right. exists a'. repeat split; assumption.
Qed.

(** The items of a bucket are the pairs of a feature of the board and one
    of its assignments that fans out to the bucket's name. *)
Lemma filled_lookup ts k x :
  In x (lookupGroup k (filled ts))
  <-> exists task assign, x = (task, assign) /\ In task ts
        /\ In assign (assignments task) /\ In k (bucketsOf assign).
Proof.
  unfold filled.
  enough (H : forall groups,
    In x (lookupGroup k
            (fold_left (fun groups task =>
               fold_left (fun groups assign =>
                 fold_left (fun groups targetRole =>
                   pushItem targetRole (task, assign) groups)
                   (bucketsOf assign) groups)
                 (assignments task) groups) ts groups))
    <-> In x (lookupGroup k groups)
        \/ exists task assign, x = (task, assign) /\ In task ts
             /\ In assign (assignments task) /\ In k (bucketsOf assign)).
  { rewrite H. simpl. tauto. }
  induction ts as [|t ts IH]; intros groups; cbn [fold_left].
  - split; [tauto|]. intros [H|(? & ? & _ & [] & _)]. exact H.
  - rewrite IH, fold_assignments_lookup. split.
    + intros [[H|(a & -> & Ha & Hk)]|(t' & a & -> & Ht' & Ha & Hk)].
      * left. exact H.
      * right. exists t, a. repeat split; [left; reflexivity | | ]; assumption.
      * right. exists t', a. repeat split; [right| | ]; assumption.
    + intros [H|(t' & a & -> & [<-|Ht'] & Ha & Hk)].
      * left. left. exact H.
      * left. right. exists a. repeat split; assumption.
      * right. exists t', a. repeat split; assumption.
Qed.

Lemma lookupGroup_key k groups x :
  In x (lookupGroup k groups) -> In k (map fst groups).
Proof.
  induction groups as [|[k0 items] groups IH]; simpl; [intros []|].
  destruct (eqb k0 k) eqn:Hk.
  - apply eqb_eq in Hk. intros _. left. exact Hk.
  - intros H. right. apply IH. exact H.
Qed.

Lemma bucketRows_leaf bar groups k row :
  In row (bucketRows bar groups k) -> isHeader row = false ->
  exists item, In item (lookupGroup k groups) /\ row = roleLeaf bar k item.
Proof.
  unfold bucketRows. destruct (lookupGroup k groups) as [|[first a0] items];
    [intros []|].
  intros [<-|Hin]; [discriminate|]. intros _.
  apply in_map_iff in Hin as (item & <- & Hitem). exists item. auto.
Qed.

Lemma bucketRows_header bar groups k row :
  In row (bucketRows bar groups k) -> isHeader row = true ->
  exists first a0 items,
    lookupGroup k groups = (first, a0) :: items
    /\ row = roleHeader k ((first, a0) :: items) first.
Proof.
  unfold bucketRows. destruct (lookupGroup k groups) as [|[first a0] items];
    [intros []|].
  intros [<-|Hin] Hh; [eauto|].
  apply in_map_iff in Hin as ([t a] & <- & _). discriminate.
Qed.

(** X12. Grouped by role, and with no bucket name among the names the
    object of the buckets inherits, the chart has its rows, and the leaf
    rows are the bucket entries of the board and nothing else: a row is a
    leaf of the chart if and only if it is the leaf of an assignment of a
    feature of the board under one of the bucket names the assignment's
    role fans out to.  Every header row carries the name of a bucket that
    is not empty, counts its entries in its sub-label and refers to a
    feature of the board. *)
Theorem rowsByRole_leaves_are_bucket_entries
    (ts : list Task) (bar : option BarDragState) :
  existsb inherited (bucketNames ts) = false ->
  exists rows,
    rowsByRole ts bar = Some rows
    /\ forall row,
        (In row rows /\ isHeader row = false
         <-> exists task assign k,
               In task ts /\ In assign (assignments task)
               /\ In k (bucketsOf assign)
               /\ row = roleLeaf bar k (task, assign))
        /\ (In row rows -> isHeader row = true ->
            exists k assign n,
              label row = k /\ In (originalTask row) ts
              /\ In assign (assignments (originalTask row))
              /\ In k (bucketsOf assign)
              /\ (0 < n)%nat
              /\ row_subLabel row = Some (ofNat n ++ js " 項任務")).
Proof.
  intros Hnames. unfold rowsByRole. rewrite buildGroups_filled, Hnames.
  eexists. split; [reflexivity|]. intros row. split; [split|].
  - intros [Hin Hleaf]. apply in_flat_map in Hin as (k & _ & Hin).
    destruct (bucketRows_leaf _ _ _ _ Hin Hleaf) as (item & Hitem & ->).
    apply filled_lookup in Hitem as (task & assign & -> & Ht & Ha & Hk).
    exists task, assign, k. auto.
  - intros (task & assign & k & Ht & Ha & Hk & ->).
    split; [|reflexivity].
    assert (Hitem : In (task, assign) (lookupGroup k (filled ts))).
    { apply filled_lookup. exists task, assign. auto. }
    apply in_flat_map. exists k. split.
    + apply (Permutation_in k (Permutation_sym (sortedKeys_Permutation _))).
      eapply lookupGroup_key. exact Hitem.
    + unfold bucketRows.
      destruct (lookupGroup k (filled ts)) as [|[first a0] items];
        [destruct Hitem|].
      right. apply in_map. exact Hitem.
  - intros Hin Hh. apply in_flat_map in Hin as (k & _ & Hin).
    destruct (bucketRows_header _ _ _ _ Hin Hh)
      as (first & a0 & items & Hlook & ->).
    assert (Hitem : In (first, a0) (lookupGroup k (filled ts)))
      by (rewrite Hlook; left; reflexivity).
    apply filled_lookup in Hitem as (task & assign & Heq & Ht & Ha & Hk).
    injection Heq as -> ->.
    exists k, assign, (length ((task, assign) :: items)).
    cbn [roleHeader label originalTask row_subLabel].
    repeat split; try assumption. simpl. lia.
Qed.

End RowMembership.

Lemma rowsByRole_leaves_are_bucket_entries_witness :
  exists rows,
    @rowsByRole asciiUnicode (tasks editable) None = Some rows
    /\ In (@roleLeaf asciiUnicode None (js "BE") (checkoutTask,
             assignment "co-rd" "rd" (ymd 2025 1 8) (ymd 2025 1 14))) rows.
Proof.
  destruct (@rowsByRole_leaves_are_bucket_entries asciiUnicode
              (tasks editable) None) as (rows & Hrows & Hspec);
    [reflexivity|].
  exists rows. split; [exact Hrows|]. apply Hspec.
  exists checkoutTask,
    (assignment "co-rd" "rd" (ymd 2025 1 8) (ymd 2025 1 14)), (js "BE").
  split; [simpl; auto|].
  split; [simpl; auto|].
  split; [vm_compute; auto | reflexivity].
Defined.

(* ===================================================================== *)
(** * Properties of the snapshot encoding *)
(* ===================================================================== *)

(** ** Base64 *)

Lemma list_ind3 {A} (P : list A -> Prop) :
  P [] -> (forall a, P [a]) -> (forall a b, P [a; b]) ->
  (forall a b c l, P l -> P (a :: b :: c :: l)) ->
  forall l, P l.
Proof.
  intros H0 H1 H2 H3 l.
  enough (H : P l /\ (forall a, P (a :: l)) /\ (forall a b, P (a :: b :: l)))
    by apply H.
  induction l as [|x l (IH0 & IH1 & IH2)].
  - auto.
  - split; [apply IH1|]. split; [intros a; apply IH2|].
    intros a b. apply H3. exact IH0.
Qed.

(** Linear arithmetic with the quotients and remainders by constants. *)
Ltac dlia := Z.to_euclidean_division_equations; lia.

Lemma sextet_base64Char n : 0 <= n < 64 -> sextet (base64Char n) = Some n.
Proof.
  intros Hn. unfold base64Char, sextet.
  repeat match goal with
  | |- context [if ?a <? ?b then _ else _] => destruct (Z.ltb_spec a b)
  | |- context [if ?a =? ?b then _ else _] => destruct (Z.eqb_spec a b)
  | |- context [?a <=? ?b] => destruct (Z.leb_spec a b)
  | |- _ => progress cbn [andb]
  end; try (f_equal; lia); try lia.
Qed.

Lemma base64Char_plain n :
  0 <= n < 64 -> isAsciiWs (base64Char n) = false /\ base64Char n <> 61.
Proof.
  intros Hn. unfold base64Char, isAsciiWs.
  repeat match goal with
  | |- context [if ?a <? ?b then _ else _] => destruct (Z.ltb_spec a b)
  | |- context [if ?a =? ?b then _ else _] => destruct (Z.eqb_spec a b)
  | |- context [?a =? ?b] => destruct (Z.eqb_spec a b)
  end; cbn [orb]; split; try reflexivity; try lia.
Qed.

Lemma encodeTriples_sextets l :
  encodeTriples l = map base64Char (sextets l) ++ padding l.
Proof.
  induction l as [|a|a b|a b c l IH] using list_ind3; try reflexivity.
  cbn [encodeTriples sextets map app]. rewrite IH. do 4 f_equal.
  unfold padding. cbn [length].
  replace (S (S (S (length l)))) with (length l + 1 * 3)%nat by lia.
  rewrite Nat.Div0.mod_add. reflexivity.
Qed.

Lemma sextets_range l : Forall isByte l -> Forall (fun n => 0 <= n < 64) (sextets l).
Proof.
  unfold isByte.
  induction l as [|a|a b|a b c l IH] using list_ind3; intros Hl; cbn [sextets].
  - apply Forall_nil_2.
  - inversion_clear Hl.
    repeat (apply Forall_cons_2; [cbv beta; dlia|]). apply Forall_nil_2.
  - inversion_clear Hl as [|? ? Ha Hl']. inversion_clear Hl'.
    repeat (apply Forall_cons_2; [cbv beta; dlia|]). apply Forall_nil_2.
  - inversion_clear Hl as [|? ? Ha Hl']. inversion_clear Hl' as [|? ? Hb Hl].
    inversion_clear Hl as [|? ? Hc Hl'].
    repeat (apply Forall_cons_2; [cbv beta; dlia|]). apply IH. assumption.
Qed.

Lemma decodeSextets_sextets l : Forall isByte l -> decodeSextets (sextets l) = l.
Proof.
  unfold isByte.
  induction l as [|a|a b|a b c l IH] using list_ind3; intros Hl;
    cbn [sextets decodeSextets].
  - reflexivity.
  - inversion_clear Hl. f_equal. dlia.
  - inversion_clear Hl as [|? ? Ha Hl']. inversion_clear Hl'.
    f_equal; [dlia|]. f_equal. dlia.
  - inversion_clear Hl as [|? ? Ha Hl']. inversion_clear Hl' as [|? ? Hb Hl].
    inversion_clear Hl as [|? ? Hc Hl'].
    rewrite IH by assumption.
    destruct (sextets l) eqn:Hs; cbv zeta; (f_equal; [dlia|]; f_equal; [dlia|]; f_equal; dlia).
Qed.

Lemma length_sextets_padding l :
  (length (sextets l) + length (padding l) = 4 * ((length l + 2) / 3))%nat
  /\ (l <> [] -> sextets l <> []).
Proof.
  induction l as [|a|a b|a b c l [IH _]] using list_ind3;
    try (split; [reflexivity | intros; discriminate]).
  - split; [reflexivity | congruence].
  - split; [|intros; discriminate].
    cbn [sextets length]. unfold padding in *. cbn [length].
    replace (S (S (S (length l)))) with (length l + 1 * 3)%nat by lia.
    rewrite Nat.Div0.mod_add.
    replace (length l + 1 * 3 + 2)%nat with (length l + 2 + 1 * 3)%nat by lia.
    rewrite Nat.div_add by lia. lia.
Qed.

(** [stripPadding] with its pattern matching written as tests. *)
Lemma stripPadding_tests s :
  stripPadding s =
  if Z.of_nat (length s) mod 4 =? 0 then
    match rev s with
    | a :: r =>
        if a =? 61 then
          match r with
          | b :: r' => if b =? 61 then rev r' else rev r
          | [] => rev r
          end
        else s
    | [] => s
    end
  else s.
Proof.
  unfold stripPadding. destruct (_ =? 0); [|reflexivity].
  destruct (rev s) as [|a r]; [reflexivity|].
  destruct a as [|p|p]; try reflexivity.
  do 6 (destruct p as [p|p|]; try reflexivity).
  destruct r as [|b r']; [reflexivity|].
  destruct b as [|p|p]; try reflexivity.
  do 6 (destruct p as [p|p|]; try reflexivity).
Qed.

Lemma stripPadding_encodeTriples l :
  Forall isByte l ->
  stripPadding (encodeTriples l) = map base64Char (sextets l).
Proof.
  intros Hl. rewrite stripPadding_tests, encodeTriples_sextets.
  destruct (length_sextets_padding l) as [Hlen Hne].
  rewrite length_app, length_map, Hlen.
  replace (Z.of_nat (4 * ((length l + 2) / 3)) mod 4) with 0
    by (rewrite Nat2Z.inj_mul, Z.mul_comm, Z.mod_mul by lia; reflexivity).
  cbn [Z.eqb]. rewrite rev_app_distr.
  pose proof (sextets_range l Hl) as Hrange.
  assert (Hlast : forall x r, rev (map base64Char (sextets l)) = x :: r ->
                              (x =? 61) = false).
  { intros x r Hrev. apply Z.eqb_neq.
    assert (Hin : In x (map base64Char (sextets l))).
    { apply in_rev. rewrite Hrev. left. reflexivity. }
    apply in_map_iff in Hin as (n & <- & Hn).
    rewrite Forall_forall in Hrange. apply base64Char_plain, Hrange, list_elem_of_In, Hn. }
  unfold padding. destruct (length l mod 3)%nat as [|[|[|k]]] eqn:Hmod.
  - cbn [rev app]. rewrite app_nil_r.
    destruct (rev (map base64Char (sextets l))) as [|x r] eqn:Hrev;
      [reflexivity|].
    rewrite (Hlast x r eq_refl). reflexivity.
  - cbn [rev app Z.eqb Pos.eqb]. apply rev_involutive.
  - cbn [rev app Z.eqb Pos.eqb].
    destruct (rev (map base64Char (sextets l))) as [|x r] eqn:Hrev.
    + rewrite <- Hrev. apply rev_involutive.
    + rewrite (Hlast x r eq_refl). rewrite <- Hrev. apply rev_involutive.
  - cbn [rev app]. rewrite app_nil_r.
    destruct (rev (map base64Char (sextets l))) as [|x r] eqn:Hrev;
      [reflexivity|].
    rewrite (Hlast x r eq_refl). reflexivity.
Qed.

Lemma filter_encodeTriples l :
  Forall isByte l ->
  filter (fun c => negb (isAsciiWs c)) (encodeTriples l) = encodeTriples l.
Proof.
  intros Hl. rewrite encodeTriples_sextets.
  pose proof (sextets_range l Hl) as Hrange.
  unfold jsstring. rewrite filter_app. f_equal.
  - induction Hrange as [|n ns Hn _ IH]; [reflexivity|].
    cbn [map]. rewrite filter_cons.
    destruct (base64Char_plain n Hn) as [-> _]. simpl. f_equal. exact IH.
  - unfold padding. destruct (length l mod 3)%nat as [|[|[|k]]]; reflexivity.
Qed.

Lemma mapM_sextet ns :
  Forall (fun n => 0 <= n < 64) ns -> mapM sextet (map base64Char ns) = Some ns.
Proof.
  induction 1 as [|n ns Hn _ IH]; [reflexivity|].
  cbn [map mapM]. rewrite sextet_base64Char by exact Hn.
  cbn. rewrite IH. reflexivity.
Qed.

Lemma atob_encodeTriples l : Forall isByte l -> atob (encodeTriples l) = Some l.
Proof.
  intros Hl. unfold atob.
  rewrite filter_encodeTriples, stripPadding_encodeTriples by assumption.
  destruct (length_sextets_padding l) as [Hlen _].
  assert (Hmod : Z.of_nat (length (map base64Char (sextets l))) mod 4 <> 1).
  { rewrite length_map. unfold padding in Hlen.
    pose proof (Nat.div_mod_eq (length l) 3).
    destruct (length l mod 3)%nat as [|[|[|k]]] eqn:Hm; cbn [length] in Hlen.
    - replace (Z.of_nat (length (sextets l)))
        with (Z.of_nat ((length l + 2) / 3) * 4) by lia.
      rewrite Z.mod_mul by lia. lia.
    - replace (Z.of_nat (length (sextets l)))
        with (2 + (Z.of_nat ((length l + 2) / 3) - 1) * 4) by lia.
      rewrite Z.mod_add by lia. discriminate.
    - replace (Z.of_nat (length (sextets l)))
        with (3 + (Z.of_nat ((length l + 2) / 3) - 1) * 4) by lia.
      rewrite Z.mod_add by lia. discriminate.
    - pose proof (Nat.mod_upper_bound (length l) 3). lia. }
  destruct (Z.eqb_spec (Z.of_nat (length (map base64Char (sextets l))) mod 4) 1)
    as [?|_]; [contradiction|].
  rewrite mapM_sextet by (apply sextets_range; assumption).
  cbn. rewrite decodeSextets_sextets by assumption. reflexivity.
Qed.

(** X13. Base64 round trip: [btoa] succeeds exactly on the strings whose
    characters are all at most 255, writes four characters for every three
    of the string, the last group padded, and [atob] reads the string back
    from the result. *)
Theorem atob_btoa_roundtrip (bin : jsstring) :
  Forall (fun c => 0 <= c) bin ->
  (btoa bin = None <-> Exists (fun c => 255 < c) bin)
  /\ forall b64, btoa bin = Some b64 ->
       atob b64 = Some bin
       /\ length b64 = (4 * ((length bin + 2) / 3))%nat.
Proof.
  intros Hpos. unfold btoa.
  destruct (forallb (fun c => c <=? 255) bin) eqn:Hall.
  - rewrite forallb_forall in Hall. split.
    + split; [discriminate|]. intros Hex.
      apply Exists_exists in Hex as (c & Hc & Hbig).
      apply list_elem_of_In, Hall, Z.leb_le in Hc. lia.
    + intros b64 [= <-].
      assert (Hbytes : Forall isByte bin).
      { rewrite Forall_forall in *. intros c Hc. split.
        - apply Hpos. exact Hc.
        - apply Z.leb_le, Hall, list_elem_of_In, Hc. }
      split; [apply atob_encodeTriples; exact Hbytes|].
      rewrite encodeTriples_sextets, length_app, length_map.
      apply length_sextets_padding.
  - split; [|discriminate]. split; [intros _|reflexivity].
    induction bin as [|c bin IH]; [discriminate|].
    cbn [forallb] in Hall. destruct (Z.leb_spec c 255); cbn [andb] in Hall.
    + apply Exists_cons_tl, IH; [inversion Hpos; assumption | exact Hall].
    + apply Exists_cons_hd. lia.
Qed.

Lemma atob_btoa_roundtrip_witness :
  atob (js "5pel5pys") = Some [230; 151; 165; 230; 156; 172].
Proof.
  apply (atob_btoa_roundtrip [230; 151; 165; 230; 156; 172]).
  - repeat constructor; lia.
  - reflexivity.
Defined.

(** ** UTF-8 *)

Lemma forallb_isUnit_cons c s :
  forallb isUnit (c :: s) = true -> 0 <= c < 65536 /\ forallb isUnit s = true.
Proof.
  cbn [forallb]. unfold isUnit at 1. intros H.
  apply andb_true_iff in H as [H Hs]. apply andb_true_iff in H as [H1 H2].
  apply Z.leb_le in H1. apply Z.ltb_lt in H2. auto.
Qed.

(** Induction on a list, one element or two at a time. *)
Lemma list_ind2 {A} (P : list A -> Prop) :
  P [] ->
  (forall c s, P s -> (forall d s', s = d :: s' -> P s') -> P (c :: s)) ->
  forall s, P s.
Proof.
  intros H0 H1 s.
  enough (H : P s /\ forall d s', s = d :: s' -> P s') by apply H.
  induction s as [|c s [IH IH']].
  - split; [exact H0 | discriminate].
  - split; [apply H1; assumption|]. intros d s' [= -> ->]. exact IH.
Qed.

Lemma utf8Decode_utf8Encode s :
  forallb isUnit s = true ->
  forall bin, utf8Encode s = Some bin ->
    Forall isByte bin
    /\ forall fuel, (length bin <= fuel)%nat -> utf8Decode fuel bin = Some s.
Proof.
  induction s as [|c s IH IH2] using list_ind2; intros Hs bin.
  - intros [= <-]. split; [constructor|]. intros [|fuel] _; reflexivity.
  - apply forallb_isUnit_cons in Hs as [Hc Hs].
    cbn [utf8Encode].
    destruct (Z.ltb_spec c 128) as [H128|H128];
      [|destruct (Z.ltb_spec c 2048) as [H2048|H2048]].
    + destruct (utf8Encode s) as [bin'|] eqn:Hbin'; [|discriminate].
      intros [= <-]. destruct (IH Hs bin' eq_refl) as [Hbytes Hdec].
      split; [constructor; [unfold isByte; lia | exact Hbytes]|].
      intros [|fuel] Hfuel; [simpl in Hfuel; lia|].
      cbn [utf8Decode]. destruct (Z.ltb_spec c 128); [|lia].
      rewrite Hdec by (simpl in Hfuel; lia). reflexivity.
    + destruct (utf8Encode s) as [bin'|] eqn:Hbin'; [|discriminate].
      intros [= <-]. destruct (IH Hs bin' eq_refl) as [Hbytes Hdec].
      split; [repeat (apply Forall_cons_2; [unfold isByte; dlia|]); exact Hbytes|].
      intros [|fuel] Hfuel; [simpl in Hfuel; lia|].
      cbn [utf8Decode]. unfold isCont.
      destruct (Z.ltb_spec (192 + c / 64) 128); [dlia|].
      destruct (Z.leb_spec 194 (192 + c / 64)); [|dlia].
      destruct (Z.leb_spec (192 + c / 64) 223); [|dlia].
      destruct (Z.leb_spec 128 (128 + c mod 64)); [|dlia].
      destruct (Z.leb_spec (128 + c mod 64) 191); [|dlia].
      cbn [andb]. rewrite Hdec by (simpl in Hfuel; lia).
      cbn. do 2 f_equal. dlia.
    + unfold isLeadingSurrogate, isTrailingSurrogate.
      destruct (Z.leb_spec 55296 c) as [Hlo|Hlo];
        [destruct (Z.leb_spec c 56319) as [Hhi|Hhi]|]; cbn [andb].
      * (* a surrogate pair *)
        destruct s as [|d s']; [discriminate|].
        apply forallb_isUnit_cons in Hs as [Hd Hs'].
        destruct (Z.leb_spec 56320 d) as [Hdlo|Hdlo];
          [destruct (Z.leb_spec d 57343) as [Hdhi|Hdhi]|]; cbn [andb];
          try discriminate.
        cbv zeta. set (cp := (c - 55296) * 1024 + (d - 56320) + 65536).
        destruct (utf8Encode s') as [bin'|] eqn:Hbin'; [|discriminate].
        intros [= <-].
        destruct (IH2 d s' eq_refl Hs' bin' Hbin') as [Hbytes Hdec].
        assert (Hcp : 65536 <= cp <= 1114111) by (unfold cp; lia).
        split;
          [repeat (apply Forall_cons_2; [unfold isByte; dlia|]); exact Hbytes|].
        intros [|fuel] Hfuel; [simpl in Hfuel; lia|].
        cbn [utf8Decode]. unfold isCont.
        destruct (Z.ltb_spec (240 + cp / 262144) 128); [dlia|].
        destruct (Z.leb_spec 194 (240 + cp / 262144)); [|dlia].
        destruct (Z.leb_spec (240 + cp / 262144) 223); [dlia|].
        destruct (Z.leb_spec 224 (240 + cp / 262144)); [|dlia].
        destruct (Z.leb_spec (240 + cp / 262144) 239); [dlia|].
        destruct (Z.leb_spec 240 (240 + cp / 262144)); [|dlia].
        destruct (Z.leb_spec (240 + cp / 262144) 244); [|dlia].
        destruct (Z.leb_spec 128 (128 + (cp / 4096) mod 64)); [|dlia].
        destruct (Z.leb_spec (128 + (cp / 4096) mod 64) 191); [|dlia].
        destruct (Z.leb_spec 128 (128 + (cp / 64) mod 64)); [|dlia].
        destruct (Z.leb_spec (128 + (cp / 64) mod 64) 191); [|dlia].
        destruct (Z.leb_spec 128 (128 + cp mod 64)); [|dlia].
        destruct (Z.leb_spec (128 + cp mod 64) 191); [|dlia].
        cbn [andb].
        assert (Hback : (((240 + cp / 262144 - 240) * 64
                          + (128 + (cp / 4096) mod 64 - 128)) * 64
                         + (128 + (cp / 64) mod 64 - 128)) * 64
                        + (128 + cp mod 64 - 128) = cp) by dlia.
        rewrite Hback.
        destruct (Z.leb_spec 65536 cp); [|lia].
        destruct (Z.leb_spec cp 1114111); [|lia].
        cbn [andb]. rewrite Hdec by (simpl in Hfuel; lia).
        cbn. f_equal. unfold utf16.
        destruct (Z.ltb_spec cp 65536); [lia|].
        cbn [app]. f_equal; [unfold cp; dlia|]. f_equal. unfold cp; dlia.
      * (* a code unit above the surrogates *)
        destruct (Z.leb_spec 56320 c) as [Htlo|Htlo];
          [destruct (Z.leb_spec c 57343) as [Hthi|Hthi]|]; cbn [andb];
          try discriminate; try lia.
        destruct (utf8Encode s) as [bin'|] eqn:Hbin'; [|discriminate].
        intros [= <-]. destruct (IH Hs bin' eq_refl) as [Hbytes Hdec].
        split;
          [repeat (apply Forall_cons_2; [unfold isByte; dlia|]); exact Hbytes|].
        intros [|fuel] Hfuel; [simpl in Hfuel; lia|].
        cbn [utf8Decode]. unfold isCont.
        destruct (Z.ltb_spec (224 + c / 4096) 128); [dlia|].
        destruct (Z.leb_spec 194 (224 + c / 4096)); [|dlia].
        destruct (Z.leb_spec (224 + c / 4096) 223); [dlia|].
        destruct (Z.leb_spec 224 (224 + c / 4096)); [|dlia].
        destruct (Z.leb_spec (224 + c / 4096) 239); [|dlia].
        destruct (Z.leb_spec 128 (128 + (c / 64) mod 64)); [|dlia].
        destruct (Z.leb_spec (128 + (c / 64) mod 64) 191); [|dlia].
        destruct (Z.leb_spec 128 (128 + c mod 64)); [|dlia].
        destruct (Z.leb_spec (128 + c mod 64) 191); [|dlia].
        cbn [andb].
        assert (Hback : ((224 + c / 4096 - 224) * 64
                         + (128 + (c / 64) mod 64 - 128)) * 64
                        + (128 + c mod 64 - 128) = c) by dlia.
        rewrite Hback.
        destruct (Z.leb_spec 2048 c); [|lia].
        destruct (Z.leb_spec 55296 c); [|lia].
        destruct (Z.leb_spec c 57343); [lia|].
        cbn [andb negb]. rewrite Hdec by (simpl in Hfuel; lia). reflexivity.
      * (* a code unit below the surrogates *)
        destruct (Z.leb_spec 56320 c) as [Htlo|Htlo]; [lia|]. cbn [andb].
        destruct (utf8Encode s) as [bin'|] eqn:Hbin'; [|discriminate].
        intros [= <-]. destruct (IH Hs bin' eq_refl) as [Hbytes Hdec].
        split;
          [repeat (apply Forall_cons_2; [unfold isByte; dlia|]); exact Hbytes|].
        intros [|fuel] Hfuel; [simpl in Hfuel; lia|].
        cbn [utf8Decode]. unfold isCont.
        destruct (Z.ltb_spec (224 + c / 4096) 128); [dlia|].
        destruct (Z.leb_spec 194 (224 + c / 4096)); [|dlia].
        destruct (Z.leb_spec (224 + c / 4096) 223); [dlia|].
        destruct (Z.leb_spec 224 (224 + c / 4096)); [|dlia].
        destruct (Z.leb_spec (224 + c / 4096) 239); [|dlia].
        destruct (Z.leb_spec 128 (128 + (c / 64) mod 64)); [|dlia].
        destruct (Z.leb_spec (128 + (c / 64) mod 64) 191); [|dlia].
        destruct (Z.leb_spec 128 (128 + c mod 64)); [|dlia].
        destruct (Z.leb_spec (128 + c mod 64) 191); [|dlia].
        cbn [andb].
        assert (Hback : ((224 + c / 4096 - 224) * 64
                         + (128 + (c / 64) mod 64 - 128)) * 64
                        + (128 + c mod 64 - 128) = c) by dlia.
        rewrite Hback.
        destruct (Z.leb_spec 2048 c); [|lia].
        destruct (Z.leb_spec 55296 c); [lia|].
        cbn [andb negb]. rewrite Hdec by (simpl in Hfuel; lia). reflexivity.
Qed.

Lemma utf8Encode_isWellFormed s :
  is_Some (utf8Encode s) <-> isWellFormed s = true.
Proof.
  induction s as [|c s IH IH2] using list_ind2; [split; eauto|].
  cbn [utf8Encode isWellFormed].
  unfold isLeadingSurrogate, isTrailingSurrogate.
  destruct (Z.ltb_spec c 128) as [H128|H128];
    [|destruct (Z.ltb_spec c 2048) as [H2048|H2048]].
  - destruct (Z.leb_spec 55296 c); [lia|].
    destruct (Z.leb_spec 56320 c); [lia|]. cbn [andb negb].
    rewrite <- IH. destruct (utf8Encode s); cbn; split;
      eauto; intros []; discriminate.
  - destruct (Z.leb_spec 55296 c); [lia|].
    destruct (Z.leb_spec 56320 c); [lia|]. cbn [andb negb].
    rewrite <- IH. destruct (utf8Encode s); cbn; split;
      eauto; intros []; discriminate.
  - destruct (Z.leb_spec 55296 c) as [Hlo|Hlo];
      [destruct (Z.leb_spec c 56319) as [Hhi|Hhi]|]; cbn [andb].
    + destruct s as [|d s']; [split; [intros []|]; discriminate|].
      destruct (Z.leb_spec 56320 d) as [Hdlo|Hdlo];
        [destruct (Z.leb_spec d 57343) as [Hdhi|Hdhi]|]; cbn [andb];
        try (split; [intros []|]; discriminate).
      rewrite <- (IH2 d s' eq_refl). cbv zeta.
      destruct (utf8Encode s'); cbn; split; eauto; intros []; discriminate.
    + destruct (Z.leb_spec 56320 c) as [Htlo|Htlo];
        [destruct (Z.leb_spec c 57343) as [Hthi|Hthi]|]; cbn [andb negb];
        try lia; try (split; [intros []|]; discriminate).
      rewrite <- IH. destruct (utf8Encode s); cbn; split;
        eauto; intros []; discriminate.
    + destruct (Z.leb_spec 56320 c) as [Htlo|Htlo]; [lia|]. cbn [andb negb].
      rewrite <- IH. destruct (utf8Encode s); cbn; split;
        eauto; intros []; discriminate.
Qed.

(** X14. UTF-8 round trip: [unescape(encodeURIComponent(s))] fails exactly
    on a string with a surrogate that has no partner; otherwise it gives a
    string of bytes, which [btoa] accepts and from which
    [decodeURIComponent(escape(bin))] reads [s] back. *)
Theorem decodeURIComponent_escape_roundtrip (s : jsstring) :
  forallb isUnit s = true ->
  (is_Some (utf8Encode s) <-> isWellFormed s = true)
  /\ forall bin, utf8Encode s = Some bin ->
       Forall isByte bin
       /\ is_Some (btoa bin)
       /\ decodeURIComponent_escape bin = Some s.
Proof.
  intros Hs. split; [apply utf8Encode_isWellFormed|].
  intros bin Hbin.
  destruct (utf8Decode_utf8Encode s Hs bin Hbin) as [Hbytes Hdec].
  split; [exact Hbytes|]. split.
  - unfold btoa.
    replace (forallb (fun c => c <=? 255) bin) with true; [eauto|].
    symmetry. apply forallb_forall. intros c Hc. apply Z.leb_le.
    rewrite Forall_forall in Hbytes. apply Hbytes, list_elem_of_In, Hc.
  - apply Hdec. reflexivity.
Qed.

Lemma decodeURIComponent_escape_roundtrip_witness :
  decodeURIComponent_escape [231; 153; 187; 240; 159; 152; 128]
  = Some (js "登😀").
Proof.
  apply (decodeURIComponent_escape_roundtrip (js "登😀")); reflexivity.
Defined.

(** ** JSON texts *)

Lemma hexDigit_hexChar n : 0 <= n < 16 -> hexDigit (hexChar n) = Some n.
Proof.
  intros Hn. unfold hexDigit, hexChar, isDigit.
  destruct (Z.ltb_spec n 10).
  - destruct (Z.leb_spec 48 (48 + n)); [|lia].
    destruct (Z.leb_spec (48 + n) 57); [|lia]. cbn. f_equal. lia.
  - destruct (Z.leb_spec 48 (87 + n)); [|lia].
    destruct (Z.leb_spec (87 + n) 57); [lia|]. cbn [andb].
    destruct (Z.leb_spec 97 (87 + n)); [|lia].
    destruct (Z.leb_spec (87 + n) 102); [|lia]. cbn. f_equal. lia.
Qed.

Lemma parseStringBody_escape fuel e u rest :
  unescape e = Some u ->
  parseStringBody (S fuel) (92 :: e :: rest)
  = '(str, r) ← parseStringBody fuel rest; Some (u :: str, r).
Proof.
  intros Hu. cbn [parseStringBody].
  change (92 =? 34) with false. change (92 =? 92) with true. cbv iota.
  destruct (Z.eqb_spec e 117) as [->|_]; [discriminate|].
  rewrite Hu. reflexivity.
Qed.

Lemma parseStringBody_unicodeEscape fuel c rest :
  0 <= c < 65536 ->
  parseStringBody (S fuel) (unicodeEscape c ++ rest)
  = '(str, r) ← parseStringBody fuel rest; Some (c :: str, r).
Proof.
  intros Hc. unfold unicodeEscape. cbn [app parseStringBody].
  change (92 =? 34) with false. change (92 =? 92) with true.
  change (117 =? 117) with true. cbv iota.
  rewrite !hexDigit_hexChar by dlia. cbn [mbind option_bind].
  replace (((c / 4096 * 16 + (c / 256) mod 16) * 16 + (c / 16) mod 16) * 16
           + c mod 16) with c by dlia.
  reflexivity.
Qed.

Lemma parseStringBody_plain fuel c rest :
  c <> 34 -> c <> 92 -> 32 <= c ->
  parseStringBody (S fuel) (c :: rest)
  = '(str, r) ← parseStringBody fuel rest; Some (c :: str, r).
Proof.
  intros H34 H92 H32. cbn [parseStringBody].
  destruct (Z.eqb_spec c 34); [contradiction|].
  destruct (Z.eqb_spec c 92); [contradiction|].
  destruct (Z.ltb_spec c 32); [lia|]. reflexivity.
Qed.

(** The text [QuoteJSONString] writes is read back as the string. *)
Lemma parseStringBody_quoteBody s :
  forallb isUnit s = true ->
  forall rest fuel, (length s < fuel)%nat ->
    parseStringBody fuel (quoteBody s ++ 34 :: rest) = Some (s, rest).
Proof.
  induction s as [|c s IH IH2] using list_ind2; intros Hs rest fuel Hfuel.
  - destruct fuel; [simpl in Hfuel; lia|]. reflexivity.
  - apply forallb_isUnit_cons in Hs as [Hc Hs].
    destruct fuel as [|fuel]; [simpl in Hfuel; lia|].
    assert (Hrec : parseStringBody fuel (quoteBody s ++ 34 :: rest)
                   = Some (s, rest))
      by (apply IH; [exact Hs | simpl in Hfuel; lia]).
    cbn [quoteBody].
    destruct (Z.eqb_spec c 8) as [->|H8];
      [cbn [app]; rewrite (parseStringBody_escape _ _ 8) by reflexivity;
       rewrite Hrec; reflexivity|].
    destruct (Z.eqb_spec c 9) as [->|H9];
      [cbn [app]; rewrite (parseStringBody_escape _ _ 9) by reflexivity;
       rewrite Hrec; reflexivity|].
    destruct (Z.eqb_spec c 10) as [->|H10];
      [cbn [app]; rewrite (parseStringBody_escape _ _ 10) by reflexivity;
       rewrite Hrec; reflexivity|].
    destruct (Z.eqb_spec c 12) as [->|H12];
      [cbn [app]; rewrite (parseStringBody_escape _ _ 12) by reflexivity;
       rewrite Hrec; reflexivity|].
    destruct (Z.eqb_spec c 13) as [->|H13];
      [cbn [app]; rewrite (parseStringBody_escape _ _ 13) by reflexivity;
       rewrite Hrec; reflexivity|].
    destruct (Z.eqb_spec c 34) as [->|H34];
      [cbn [app]; rewrite (parseStringBody_escape _ _ 34) by reflexivity;
       rewrite Hrec; reflexivity|].
    destruct (Z.eqb_spec c 92) as [->|H92];
      [cbn [app]; rewrite (parseStringBody_escape _ _ 92) by reflexivity;
       rewrite Hrec; reflexivity|].
    destruct (Z.ltb_spec c 32) as [H32|H32].
    { rewrite <- app_assoc, parseStringBody_unicodeEscape by exact Hc.
      rewrite Hrec. reflexivity. }
    unfold isLeadingSurrogate, isTrailingSurrogate.
    destruct (Z.leb_spec 55296 c) as [Hlo|Hlo];
      [destruct (Z.leb_spec c 56319) as [Hhi|Hhi]|]; cbn [andb].
    + destruct s as [|d s'].
      { rewrite parseStringBody_unicodeEscape by exact Hc.
        cbn [quoteBody app] in Hrec. rewrite Hrec. reflexivity. }
      destruct (Z.leb_spec 56320 d) as [Hdlo|Hdlo];
        [destruct (Z.leb_spec d 57343) as [Hdhi|Hdhi]|]; cbn [andb].
      * cbn [app]. rewrite parseStringBody_plain by lia.
        destruct fuel as [|fuel]; [simpl in Hfuel; lia|].
        rewrite parseStringBody_plain by lia.
        apply forallb_isUnit_cons in Hs as [Hd Hs'].
        rewrite (IH2 d s' eq_refl Hs') by (simpl in Hfuel; lia).
        reflexivity.
      * rewrite <- app_assoc, parseStringBody_unicodeEscape by exact Hc.
        rewrite Hrec. reflexivity.
      * rewrite <- app_assoc, parseStringBody_unicodeEscape by exact Hc.
        rewrite Hrec. reflexivity.
    + destruct (Z.leb_spec 56320 c) as [Htlo|Htlo];
        [destruct (Z.leb_spec c 57343) as [Hthi|Hthi]|]; cbn [andb]; try lia.
      * rewrite <- app_assoc, parseStringBody_unicodeEscape by exact Hc.
        rewrite Hrec. reflexivity.
      * cbn [app]. rewrite parseStringBody_plain by lia.
        rewrite Hrec. reflexivity.
    + destruct (Z.leb_spec 56320 c) as [Htlo|Htlo]; [lia|]. cbn [andb].
      cbn [app]. rewrite parseStringBody_plain by lia.
      rewrite Hrec. reflexivity.
Qed.

Lemma isWellFormed_app s t :
  isWellFormed s = true -> isWellFormed (s ++ t) = isWellFormed t.
Proof.
  induction s as [|c s IH IH2] using list_ind2; [reflexivity|].
  cbn [isWellFormed app].
  destruct (isLeadingSurrogate c).
  - destruct s as [|d s']; [discriminate|]. cbn [app].
    destruct (isTrailingSurrogate d); [|discriminate]. cbn [andb].
    apply (IH2 d s' eq_refl).
  - destruct (isTrailingSurrogate c); [discriminate|]. cbn [andb negb].
    exact IH.
Qed.

Lemma isWellFormed_noSurrogate s :
  forallb noSurrogate s = true -> isWellFormed s = true.
Proof.
  induction s as [|c s IH]; [reflexivity|].
  cbn [forallb isWellFormed]. unfold noSurrogate at 1.
  destruct (isLeadingSurrogate c), (isTrailingSurrogate c); try discriminate.
  cbn [andb negb]. exact IH.
Qed.

Lemma isWellFormed_unicodeEscape c t :
  0 <= c < 65536 -> isWellFormed (unicodeEscape c ++ t) = isWellFormed t.
Proof.
  intros Hc. apply isWellFormed_app, isWellFormed_noSurrogate.
  unfold unicodeEscape, hexChar, noSurrogate, isLeadingSurrogate,
    isTrailingSurrogate.
  cbn [forallb].
  repeat match goal with
  | |- context [if ?a <? ?b then _ else _] => destruct (Z.ltb_spec a b)
  end;
  repeat match goal with
  | |- context [?a <=? ?b] => destruct (Z.leb_spec a b); try dlia
  end; reflexivity.
Qed.

Lemma isWellFormed_quoteBody s :
  forallb isUnit s = true -> isWellFormed (quoteBody s) = true.
Proof.
  induction s as [|c s IH IH2] using list_ind2; intros Hs; [reflexivity|].
  apply forallb_isUnit_cons in Hs as [Hc Hs]. specialize (IH Hs).
  cbn [quoteBody].
  repeat match goal with
  | |- context [if ?a =? ?b then _ else _] =>
      destruct (Z.eqb_spec a b) as [->|?]; [exact IH|]
  end.
  destruct (Z.ltb_spec c 32) as [H32|H32];
    [rewrite isWellFormed_unicodeEscape by exact Hc; exact IH|].
  destruct (isLeadingSurrogate c) eqn:Hlead.
  - destruct s as [|d s'].
    + rewrite <- (app_nil_r (unicodeEscape c)).
      rewrite isWellFormed_unicodeEscape by exact Hc. reflexivity.
    + destruct (isTrailingSurrogate d) eqn:Htrail.
      * cbn [isWellFormed]. rewrite Hlead, Htrail. cbn [andb].
        apply forallb_isUnit_cons in Hs as [Hd Hs'].
        apply (IH2 d s' eq_refl Hs').
      * rewrite isWellFormed_unicodeEscape by exact Hc. exact IH.
  - destruct (isTrailingSurrogate c) eqn:Htrail.
    + rewrite isWellFormed_unicodeEscape by exact Hc. exact IH.
    + cbn [isWellFormed]. rewrite Hlead, Htrail. exact IH.
Qed.

(** *** Numbers *)

Lemma parseDigits_snoc ds c : parseDigits (ds ++ [c]) = parseDigits ds * 10 + (c - 48).
Proof. unfold parseDigits. rewrite fold_left_app. reflexivity. Qed.

Lemma parseDigits_zeros ds (k : nat) :
  parseDigits (ds ++ repeat 48 k) = parseDigits ds * 10 ^ Z.of_nat k.
Proof.
  induction k as [|k IH].
  - simpl. rewrite app_nil_r. lia.
  - cbn [repeat]. rewrite repeat_cons, app_assoc, parseDigits_snoc, IH.
    rewrite Nat2Z.inj_succ, Z.pow_succ_r by lia. lia.
Qed.

(** [digits] writes decimal digits, whatever the number and the fuel. *)
Lemma digits_isDigit fuel : forall n acc,
  exists ds, digits fuel n acc = ds ++ acc /\ forallb isDigit ds = true.
Proof.
  induction fuel as [|fuel IH]; intros n acc; cbn [digits].
  - exists []. auto.
  - assert (Hd : isDigit (48 + n mod 10) = true).
    { unfold isDigit. apply andb_true_iff. split; [apply Z.leb_le | apply Z.leb_le]; dlia. }
    destruct (n <? 10).
    + exists [48 + n mod 10]. cbn [forallb app]. rewrite Hd. auto.
    + destruct (IH (n / 10) ((48 + n mod 10) :: acc)) as (ds & -> & Hds).
      exists (ds ++ [48 + n mod 10]). rewrite <- app_assoc. split; [reflexivity|].
      rewrite forallb_app, Hds. cbn [forallb]. rewrite Hd. reflexivity.
Qed.

(** With enough fuel they are the digits of the number. *)
Lemma digits_spec fuel : forall n acc,
  0 <= n < 10 ^ Z.of_nat (S fuel) ->
  exists d ds,
    digits (S fuel) n acc = (d :: ds) ++ acc
    /\ forallb isDigit (d :: ds) = true
    /\ parseDigits (d :: ds) = n
    /\ (0 < n -> d <> 48)
    /\ (0 < n -> 10 ^ Z.of_nat (length ds) <= n).
Proof.
  induction fuel as [|fuel IH]; intros n acc Hn.
  - change (10 ^ Z.of_nat 1) with 10 in Hn. cbn [digits].
    destruct (Z.ltb_spec n 10) as [_|?]; [|lia].
    exists (48 + n mod 10), []. repeat split.
    + cbn [forallb]. unfold isDigit.
      rewrite andb_true_r. apply andb_true_iff. split; apply Z.leb_le; dlia.
    + unfold parseDigits. cbn [fold_left]. dlia.
    + intros Hpos. dlia.
    + intros Hpos. simpl. lia.
  - remember (S fuel) as fuel' eqn:Hfuel'. cbn [digits].
    assert (Hd : isDigit (48 + n mod 10) = true).
    { unfold isDigit. apply andb_true_iff. split; apply Z.leb_le; dlia. }
    destruct (Z.ltb_spec n 10) as [Hlt|Hge].
    + exists (48 + n mod 10), []. cbn [forallb app length]. rewrite Hd.
      repeat split; try reflexivity.
      * unfold parseDigits. cbn [fold_left]. dlia.
      * intros Hpos. dlia.
      * intros Hpos. simpl. lia.
    + rewrite Nat2Z.inj_succ, Z.pow_succ_r in Hn by lia.
      destruct (IH (n / 10) ((48 + n mod 10) :: acc) ltac:(dlia))
        as (d & ds & -> & Hds & Hval & Hlead & Hlow).
      exists d, (ds ++ [48 + n mod 10]).
      split; [cbn [app]; rewrite <- app_assoc; reflexivity|].
      split.
      { change (d :: ds ++ [48 + n mod 10]) with ((d :: ds) ++ [48 + n mod 10]).
        rewrite forallb_app, Hds. cbn [forallb]. rewrite Hd. reflexivity. }
      split.
      { change (d :: ds ++ [48 + n mod 10]) with ((d :: ds) ++ [48 + n mod 10]).
        rewrite parseDigits_snoc, Hval. dlia. }
      split; [intros _; apply Hlead; dlia|].
      intros _. rewrite length_app. cbn [length].
      rewrite Nat2Z.inj_add, Z.pow_add_r by lia.
      specialize (Hlow ltac:(dlia)). change (10 ^ Z.of_nat 1) with 10. dlia.
Qed.

Lemma decimal_spec n :
  0 <= n ->
  exists d ds,
    decimal n = d :: ds
    /\ forallb isDigit (d :: ds) = true
    /\ parseDigits (d :: ds) = n
    /\ (0 < n -> d <> 48)
    /\ (0 < n -> 10 ^ Z.of_nat (length ds) <= n).
Proof.
  intros Hn. unfold decimal.
  destruct (digits_spec (Z.to_nat (Z.log2 n)) n []) as (d & ds & Heq & H).
  - split; [exact Hn|].
    rewrite Nat2Z.inj_succ, Z2Nat.id by apply Z.log2_nonneg.
    destruct (Z.eq_dec n 0) as [->|Hne]; [reflexivity|].
    pose proof (Z.log2_spec n ltac:(lia)) as [_ Hup].
    eapply Z.lt_le_trans; [exact Hup|].
    apply Z.pow_le_mono_l. pose proof (Z.log2_nonneg n). lia.
  - exists d, ds. rewrite app_nil_r in Heq. auto.
Qed.

Lemma decimal_isDigit n : forallb isDigit (decimal n) = true.
Proof.
  unfold decimal.
  destruct (digits_isDigit (S (Z.to_nat (Z.log2 n))) n []) as (ds & -> & Hds).
  rewrite app_nil_r. exact Hds.
Qed.

Lemma stripZeros_spec fuel : forall s k,
  0 < s ->
  exists (z : nat),
    0 < fst (stripZeros fuel s k)
    /\ snd (stripZeros fuel s k) = k + Z.of_nat z
    /\ fst (stripZeros fuel s k) * 10 ^ Z.of_nat z = s.
Proof.
  induction fuel as [|fuel IH]; intros s k Hs; cbn [stripZeros].
  - exists 0%nat. cbn [fst snd]. split; [exact Hs|]. split; lia.
  - destruct (Z.eqb_spec (s mod 10) 0) as [Hmod|Hmod].
    + destruct (IH (s / 10) (k + 1) ltac:(dlia)) as (z & Hpos & Hk & Hval).
      exists (S z). split; [exact Hpos|]. split; [lia|].
      rewrite Nat2Z.inj_succ, Z.pow_succ_r by lia. dlia.
    + exists 0%nat. cbn [fst snd]. split; [exact Hs|]. split; lia.
Qed.

(** An integer below [2 ^ 53] has at most 21 digits. *)
Lemma below_2_53 m : Z.abs m < 2 ^ 53 -> Z.abs m < 10 ^ 21.
Proof. intros H. eapply Z.lt_trans; [exact H | reflexivity]. Qed.

(** An integer of at most 21 digits is written as its digits, with a minus
    sign when it is negative. *)
Lemma numberToString_integer m :
  Z.abs m < 10 ^ 21 ->
  exists d ds,
    numberToString m 0 = (if m <? 0 then [45] else []) ++ d :: ds
    /\ forallb isDigit (d :: ds) = true
    /\ parseDigits (d :: ds) = Z.abs m
    /\ (d = 48 -> ds = []).
Proof.
  intros Hm. unfold numberToString.
  destruct (Z.eqb_spec m 0) as [->|Hne].
  { exists 48, []. repeat split; reflexivity. }
  destruct (stripZeros_spec (S (Z.to_nat (Z.log2 (Z.abs m)))) (Z.abs m) 0
              ltac:(lia)) as (z & Hpos & Hk & Hval).
  destruct (stripZeros _ (Z.abs m) 0) as [s e]. cbn [fst snd] in *.
  destruct (decimal_spec s ltac:(lia)) as (d & ds & Hdec & Hds & Hvalue & Hlead & Hlow).
  rewrite Hdec. specialize (Hlead Hpos). specialize (Hlow Hpos).
  set (k := Z.of_nat (length (d :: ds))).
  assert (Hk21 : k + e <= 21).
  { subst e. unfold k. cbn [length]. rewrite Nat2Z.inj_succ.
    destruct (Z_le_gt_dec (Z.succ (Z.of_nat (length ds)) + (0 + Z.of_nat z)) 21)
      as [|Hgt]; [assumption|exfalso].
    assert (10 ^ 21 <= 10 ^ (Z.of_nat (length ds) + Z.of_nat z))
      by (apply Z.pow_le_mono_r; lia).
    rewrite Z.pow_add_r in H by lia.
    assert (10 ^ Z.of_nat (length ds) * 10 ^ Z.of_nat z <= s * 10 ^ Z.of_nat z)
      by (apply Z.mul_le_mono_nonneg_r; [apply Z.pow_nonneg|]; lia).
    lia. }
  destruct (Z.leb_spec k (k + e)) as [_|?]; [|lia].
  destruct (Z.leb_spec (k + e) 21) as [_|?]; [|lia].
  cbn [andb]. replace (Z.to_nat (k + e - k)) with z by lia.
  exists d, (ds ++ repeat 48 z).
  split; [destruct (m <? 0); reflexivity|].
  split.
  { change (d :: ds ++ repeat 48 z) with ((d :: ds) ++ repeat 48 z).
    rewrite forallb_app, Hds. cbn [andb].
    clear. induction z; [reflexivity | exact IHz]. }
  split.
  { change (d :: ds ++ repeat 48 z) with ((d :: ds) ++ repeat 48 z).
    rewrite parseDigits_zeros, Hvalue. exact Hval. }
  intros ->. contradiction.
Qed.

Lemma takeDigits_delimited ds rest :
  forallb isDigit ds = true -> delimited rest ->
  takeDigits (ds ++ rest) = (ds, rest).
Proof.
  intros Hds Hrest. induction ds as [|d ds IH].
  - destruct rest as [|c rest]; [reflexivity|]. cbn [app takeDigits].
    destruct Hrest as [->|[->| ->]]; reflexivity.
  - cbn [forallb] in Hds. apply andb_true_iff in Hds as [Hd Hds].
    cbn [app takeDigits]. rewrite Hd, (IH Hds). reflexivity.
Qed.

Lemma parseNumber_digits (negative : bool) d ds rest :
  forallb isDigit (d :: ds) = true -> (d = 48 -> ds = []) -> delimited rest ->
  parseNumber ((if negative then [45] else []) ++ (d :: ds) ++ rest)
  = Some (VNum (if negative then - parseDigits (d :: ds)
                else parseDigits (d :: ds)) 0, rest).
Proof.
  intros Hds Hzero Hrest.
  assert (Hd : isDigit d = true)
    by (cbn [forallb] in Hds; apply andb_true_iff in Hds; apply Hds).
  assert (Hd45 : (d =? 45) = false).
  { apply Z.eqb_neq. unfold isDigit in Hd.
    apply andb_true_iff in Hd as [H1 H2]. apply Z.leb_le in H1. lia. }
  assert (Hlead : (d =? 48) && negb (bool_decide (ds = [])) = false).
  { destruct (Z.eqb_spec d 48) as [H48|]; [|reflexivity].
    rewrite (Hzero H48). reflexivity. }
  unfold parseNumber.
  destruct negative; cbn [app].
  - change (45 =? 45) with true. cbv iota.
    change (d :: ds ++ rest) with ((d :: ds) ++ rest).
    rewrite takeDigits_delimited by assumption. rewrite Hlead.
    destruct rest as [|c rest].
    + cbn -[parseDigits]. rewrite app_nil_r. reflexivity.
    + destruct Hrest as [->|[->| ->]]; cbn -[parseDigits];
        rewrite app_nil_r; reflexivity.
  - rewrite Hd45.
    change (d :: ds ++ rest) with ((d :: ds) ++ rest).
    rewrite takeDigits_delimited by assumption. rewrite Hlead.
    destruct rest as [|c rest].
    + cbn -[parseDigits]. rewrite app_nil_r. reflexivity.
    + destruct Hrest as [->|[->| ->]]; cbn -[parseDigits];
        rewrite app_nil_r; reflexivity.
Qed.

Lemma parseNumber_numberToString m rest :
  Z.abs m < 10 ^ 21 -> delimited rest ->
  parseNumber (numberToString m 0 ++ rest) = Some (VNum m 0, rest).
Proof.
  intros Hm Hrest.
  destruct (numberToString_integer m Hm) as (d & ds & -> & Hds & Hval & Hzero).
  rewrite <- app_assoc.
  rewrite (parseNumber_digits (m <? 0)) by assumption.
  rewrite Hval. do 3 f_equal.
  destruct (Z.ltb_spec m 0); lia.
Qed.

(** *** Values *)

(** Induction on a value, with the property for the elements of an array
    and for the property values of an object. *)
Lemma value_ind (P : value -> Prop) :
  P VUndefined -> P VNull -> (forall b, P (VBool b)) ->
  (forall m e, P (VNum m e)) -> (forall s, P (VStr s)) ->
  (forall elems, Forall P elems -> P (VArr elems)) ->
  (forall props, Forall (fun kv => P (snd kv)) props -> P (VObj props)) ->
  forall v, P v.
Proof.
  intros Hundef Hnull Hbool Hnum Hstr Harr Hobj.
  fix IH 1. intros [| |b|m e|s|elems|props].
  - exact Hundef.
  - exact Hnull.
  - apply Hbool.
  - apply Hnum.
  - apply Hstr.
  - apply Harr.
    induction elems as [|x elems IHelems]; constructor; [apply IH | exact IHelems].
  - apply Hobj.
    induction props as [|[k x] props IHprops]; constructor;
      [apply IH | exact IHprops].
Qed.

Lemma length_quoteBody s : (length s <= length (quoteBody s))%nat.
Proof.
  induction s as [|c s IH IH2] using list_ind2; [reflexivity|].
  cbn [quoteBody].
  repeat match goal with
  | |- context [if ?a =? ?b then _ else _] =>
      destruct (a =? b); [cbn [length]; lia|]
  end.
  destruct (c <? 32); [rewrite length_app; cbn [length unicodeEscape]; lia|].
  destruct (isLeadingSurrogate c).
  - destruct s as [|d s']; [cbn [length unicodeEscape]; lia|].
    destruct (isTrailingSurrogate d).
    + cbn [length]. specialize (IH2 d s' eq_refl). lia.
    + rewrite length_app; cbn [length unicodeEscape] in *; lia.
  - destruct (isTrailingSurrogate c);
      [rewrite length_app; cbn [length unicodeEscape]; lia | cbn [length]; lia].
Qed.

(** A string literal, after [skipWs]. *)
Lemma parseString_quoteJSONString s rest :
  forallb isUnit s = true ->
  parseStringBody (S (length (quoteBody s ++ 34 :: rest)))
    (quoteBody s ++ 34 :: rest) = Some (s, rest).
Proof.
  intros Hs. apply parseStringBody_quoteBody; [exact Hs|].
  rewrite length_app. pose proof (length_quoteBody s). lia.
Qed.

Lemma serializeJSON_defined v :
  isUndefined v = false -> serializeJSON v = Some (elementText v).
Proof.
  unfold elementText.
  destruct v as [| |[|]|m e|s|elems|props]; try reflexivity. discriminate.
Qed.

Lemma elementValue_defined v : isUndefined v = false -> elementValue v = prune v.
Proof. destruct v; try reflexivity. discriminate. Qed.

Lemma isDigit_opens d ds :
  isDigit d = true -> opens (d :: ds).
Proof.
  intros Hd. exists d, ds. unfold isDigit in Hd.
  apply andb_true_iff in Hd as [H1 H2]. apply Z.leb_le in H1, H2.
  split; [reflexivity|]. split; [|lia].
  unfold isJsonWs.
  destruct (Z.eqb_spec d 32), (Z.eqb_spec d 9), (Z.eqb_spec d 10),
    (Z.eqb_spec d 13); try lia; reflexivity.
Qed.

Lemma elementText_opens v : plain v = true -> opens (elementText v).
Proof.
  unfold elementText.
  destruct v as [| |[|]|m e|s|elems|props]; cbn [serializeJSON default plain];
    intros Hplain;
    try (eexists _, _; split; [reflexivity|]; split; [reflexivity|]; split;
         discriminate).
  apply andb_true_iff in Hplain as [He Hm].
  apply Z.eqb_eq in He. apply Z.ltb_lt, below_2_53 in Hm. subst e.
  destruct (numberToString_integer m Hm) as (d & ds & -> & Hds & _).
  destruct (m <? 0).
  - eexists _, _. split; [reflexivity|]. split; [reflexivity|]. split; discriminate.
  - cbn [forallb] in Hds. apply andb_true_iff in Hds as [Hd _].
    apply isDigit_opens. exact Hd.
Qed.

Lemma skipWs_opens text rest : opens text -> skipWs (text ++ rest) = text ++ rest.
Proof.
  intros (c & text' & -> & Hws & _). cbn [app skipWs]. rewrite Hws. reflexivity.
Qed.

Lemma skipWs_delimiter c rest :
  c = 44 \/ c = 93 \/ c = 125 \/ c = 58 -> skipWs (c :: rest) = c :: rest.
Proof. intros [->|[->|[->| ->]]]; reflexivity. Qed.

Lemma list_sum_cons a l : list_sum (a :: l) = (a + list_sum l)%nat.
Proof. reflexivity. Qed.

Lemma length_joinComma parts :
  parts <> [] ->
  S (length (joinComma parts)) = list_sum (map (fun p => S (length p)) parts).
Proof.
  induction parts as [|p parts IH]; [congruence|]. intros _.
  destruct parts as [|q parts].
  - cbn. lia.
  - specialize (IH ltac:(discriminate)).
    change (joinComma (p :: q :: parts))
      with (p ++ 44 :: joinComma (q :: parts)).
    rewrite length_app. cbn [length map] in *.
    rewrite !list_sum_cons in *. lia.
Qed.

Lemma joinComma_cons p q parts :
  joinComma (p :: q :: parts) = p ++ 44 :: joinComma (q :: parts).
Proof. reflexivity. Qed.

(** The elements of an array, after the opening bracket. *)
Lemma parseElements_joinComma elems :
  Forall (fun x => forall rest fuel, delimited rest -> (nodes x <= fuel)%nat ->
            parseValue fuel (elementText x ++ rest)
            = Some (elementValue x, rest)) elems ->
  elems <> [] ->
  forall rest fuel,
    (list_sum (map (fun x => S (nodes x)) elems) <= fuel)%nat ->
    parseElements fuel (joinComma (map elementText elems) ++ 93 :: rest)
    = Some (map elementValue elems, rest).
Proof.
  induction 1 as [|x elems Hx _ IH]; [congruence|]. intros _ rest fuel Hfuel.
  cbn [map] in Hfuel. rewrite list_sum_cons in Hfuel.
  destruct fuel as [|fuel]; [lia|]. cbn [parseElements].
  destruct elems as [|y elems].
  - cbn [map joinComma]. rewrite Hx by (simpl; auto; lia).
    cbn. reflexivity.
  - cbn [map]. rewrite joinComma_cons, <- app_assoc. cbn [app].
    rewrite Hx by (simpl; auto; lia). cbn [mbind option_bind].
    cbn [skipWs isJsonWs Z.eqb Pos.eqb orb]. change (44 =? 44) with true.
    cbv iota.
    change (elementText y :: map elementText elems)
      with (map elementText (y :: elems)).
    rewrite IH by (try discriminate; lia). reflexivity.
Qed.

(** The members of an object, after the opening brace. *)
Lemma parseMembers_joinComma props :
  Forall (fun kv => forall rest fuel, delimited rest ->
            (nodes (snd kv) <= fuel)%nat ->
            parseValue fuel (elementText (snd kv) ++ rest)
            = Some (elementValue (snd kv), rest)) props ->
  Forall (fun kv => forallb isUnit (fst kv) = true
                    /\ plain (snd kv) = true) props ->
  props <> [] ->
  forall rest fuel,
    (list_sum (map (fun kv => S (nodes (snd kv))) props) <= fuel)%nat ->
    parseMembers fuel (joinComma (map memberText props) ++ 125 :: rest)
    = Some (map (fun kv => (fst kv, elementValue (snd kv))) props, rest).
Proof.
  induction 1 as [|[k x] props Hx _ IH]; [congruence|].
  intros Hplain _ rest fuel Hfuel.
  inversion_clear Hplain as [|? ? [Hk Hplainx] Hplain'].
  cbn [fst snd] in *. cbn [map] in Hfuel. rewrite list_sum_cons in Hfuel.
  cbn [fst snd] in Hfuel.
  destruct fuel as [|fuel]; [lia|]. cbn [parseMembers].
  assert (Hmember : forall more,
    delimited more ->
    match skipWs (memberText (k, x) ++ more) with
    | q :: s1 =>
        if q =? 34 then
          '(k', s2) ← parseStringBody (S (length s1)) s1;
          match skipWs s2 with
          | colon :: s3 =>
              if colon =? 58 then
                '(v, r) ← parseValue fuel s3;
                Some (k', v, r)
              else None
          | [] => None
          end
        else None
    | [] => None
    end = Some (k, elementValue x, more)).
  { intros more Hmore. unfold memberText, quoteJSONString. cbn [fst snd].
    cbn [app skipWs isJsonWs Z.eqb Pos.eqb orb].
    change (34 =? 34) with true. cbv iota.
    rewrite <- !app_assoc. cbn [app].
    rewrite parseString_quoteJSONString by exact Hk.
    cbn [mbind option_bind skipWs isJsonWs Z.eqb Pos.eqb orb].
    change (58 =? 58) with true. cbv iota.
    rewrite Hx by (auto; lia). reflexivity. }
  destruct props as [|y props].
  - cbn [map joinComma].
    specialize (Hmember (125 :: rest) ltac:(simpl; auto)).
    destruct (skipWs (memberText (k, x) ++ 125 :: rest)) as [|q s1];
      [discriminate|].
    destruct (q =? 34); [|discriminate].
    destruct (parseStringBody (S (length s1)) s1) as [[k' s2]|];
      [|discriminate].
    cbn [mbind option_bind] in *.
    destruct (skipWs s2) as [|colon s3]; [discriminate|].
    destruct (colon =? 58); [|discriminate].
    destruct (parseValue fuel s3) as [[v r]|]; [|discriminate].
    cbn [mbind option_bind] in *. injection Hmember as -> -> ->.
    reflexivity.
  - cbn [map]. rewrite joinComma_cons, <- app_assoc. cbn [app].
    specialize (Hmember (44 :: joinComma (map memberText (y :: props))
                            ++ 125 :: rest) ltac:(simpl; auto)).
    cbn [map] in Hmember.
    destruct (skipWs _) as [|q s1]; [discriminate|].
    destruct (q =? 34); [|discriminate].
    destruct (parseStringBody (S (length s1)) s1) as [[k' s2]|];
      [|discriminate].
    cbn [mbind option_bind] in *.
    destruct (skipWs s2) as [|colon s3]; [discriminate|].
    destruct (colon =? 58); [|discriminate].
    destruct (parseValue fuel s3) as [[v r]|]; [|discriminate].
    cbn [mbind option_bind] in *. injection Hmember as -> -> ->.
    cbn [skipWs isJsonWs Z.eqb Pos.eqb orb]. change (44 =? 44) with true.
    cbv iota.
    change (memberText y :: map memberText props)
      with (map memberText (y :: props)).
    rewrite IH by (try assumption; try discriminate; lia). reflexivity.
Qed.

Lemma once_NoDup (keys : list jsstring) : forall acc,
  NoDup (acc ++ keys) ->
  fold_left (fun acc k => if existsb (eqb k) acc then acc else acc ++ [k])
    keys acc = acc ++ keys.
Proof.
  induction keys as [|k keys IH]; intros acc Hnd; cbn [fold_left].
  - rewrite app_nil_r. reflexivity.
  - assert (Hfresh : existsb (eqb k) acc = false).
    { destruct (existsb (eqb k) acc) eqn:Hex; [|reflexivity].
      apply existsb_exists in Hex as (x & Hx & Hkx).
      apply eqb_eq in Hkx. subst x.
      apply NoDup_app in Hnd as (_ & Hdisj & _).
      exfalso. apply (Hdisj k); [apply list_elem_of_In; exact Hx | left]. }
    rewrite Hfresh, IH; rewrite <- app_assoc; [reflexivity | exact Hnd].
Qed.

Lemma ownKeys_plain (keys : list jsstring) :
  NoDup keys ->
  forallb (fun k => negb (isArrayIndex k)) keys = true ->
  ownKeys keys = keys.
Proof.
  intros Hnd Hidx. unfold ownKeys.
  rewrite (once_NoDup keys []) by exact Hnd. cbn [app].
  assert (Hnone : List.filter isArrayIndex keys = []).
  { clear Hnd. induction keys as [|k keys IH]; [reflexivity|].
    cbn [forallb] in Hidx. apply andb_true_iff in Hidx as [Hk Hidx].
    cbn [List.filter]. apply negb_true_iff in Hk. rewrite Hk. apply IH, Hidx. }
  rewrite Hnone. change (sort _ []) with (@nil jsstring). cbn [app].
  clear Hnd Hnone. induction keys as [|k keys IH]; [reflexivity|].
  cbn [forallb] in Hidx. apply andb_true_iff in Hidx as [Hk Hidx].
  cbn [List.filter]. rewrite Hk. f_equal. apply IH, Hidx.
Qed.

Lemma lookupLast_absent {A} k (props : list (jsstring * A)) :
  k ∉ map fst props -> lookupLast k props = None.
Proof.
  induction props as [|[k' v] props IH]; [reflexivity|].
  cbn [map fst]. intros Hk. apply not_elem_of_cons in Hk as [Hne Hk].
  cbn [lookupLast]. rewrite (IH Hk).
  destruct (eqb k' k) eqn:Heq; [|reflexivity].
  apply eqb_eq in Heq. congruence.
Qed.

Lemma lookupLast_present {A B} (f : A -> B) k v (props : list (jsstring * A)) :
  NoDup (map fst props) -> In (k, v) props ->
  lookupLast k (map (fun kv => (fst kv, f (snd kv))) props) = Some (f v).
Proof.
  induction props as [|[k' v'] props IH]; [intros _ []|].
  cbn [map fst snd]. intros Hnd Hin. apply NoDup_cons in Hnd as [Hfresh Hnd].
  cbn [lookupLast]. destruct Hin as [[= -> ->]|Hin].
  - rewrite lookupLast_absent.
    + destruct (eqb k k) eqn:Heq; [reflexivity|].
      apply eqb_neq in Heq. congruence.
    + rewrite map_map. cbn [fst]. exact Hfresh.
  - rewrite (IH Hnd Hin). reflexivity.
Qed.

Lemma omap_map_ext {A B C} (f : A -> B) (g : B -> option C)
    (h : A -> option C) (l : list A) :
  (forall x, In x l -> g (f x) = h x) -> omap g (map f l) = omap h l.
Proof.
  induction l as [|x l IH]; [reflexivity|]. intros Hext.
  cbn [map omap list_omap]. rewrite (Hext x) by (left; reflexivity).
  rewrite IH by (intros y Hy; apply Hext; right; exact Hy). reflexivity.
Qed.

(** The members written for an object whose keys are pairwise different
    and no array indices: one for every property that is not [undefined],
    in the order of the properties. *)
Lemma members_plain (props : list (jsstring * value)) :
  NoDup (map fst props) ->
  forallb (fun k => negb (isArrayIndex k)) (map fst props) = true ->
  omap (fun k =>
          text ← mjoin (lookupLast k
                          (map (fun kv => (fst kv, serializeJSON (snd kv)))
                             props));
          Some (quoteJSONString k ++ 58 :: text))
    (ownKeys (map fst props))
  = map memberText (definedProps props).
Proof.
  intros Hnd Hidx. rewrite ownKeys_plain by assumption.
  rewrite (omap_map_ext fst _
             (fun kv => text ← serializeJSON (snd kv);
                        Some (quoteJSONString (fst kv) ++ 58 :: text))).
  - clear. induction props as [|[k v] props IH]; [reflexivity|].
    unfold definedProps in *. cbn [omap list_omap List.filter fst snd].
    destruct (isUndefined v) eqn:Hv.
    + destruct v; try discriminate. cbn. exact IH.
    + rewrite (serializeJSON_defined v Hv). cbn [mbind option_bind negb map].
      rewrite IH. reflexivity.
  - intros [k v] Hin. cbn [fst snd].
    rewrite (lookupLast_present serializeJSON k v props Hnd Hin).
    reflexivity.
Qed.

Lemma prune_VObj props :
  prune (VObj props)
  = VObj (map (fun kv => (fst kv, elementValue (snd kv))) (definedProps props)).
Proof.
  cbn [prune]. f_equal. unfold definedProps.
  induction props as [|[k v] props IH]; [reflexivity|].
  cbn [omap list_omap List.filter fst snd].
  destruct v; cbn [isUndefined negb map fst snd elementValue];
    rewrite <- ?IH; reflexivity.
Qed.

Lemma nodes_VObj props :
  nodes (VObj props)
  = S (list_sum (map (fun kv => S (nodes (snd kv))) (definedProps props))).
Proof.
  cbn [nodes]. f_equal. unfold definedProps.
  induction props as [|[k v] props IH]; [reflexivity|].
  cbn [map List.filter fst snd]. rewrite list_sum_cons, IH.
  destruct v; cbn [isUndefined negb map fst snd]; rewrite ?list_sum_cons;
    reflexivity.
Qed.

Lemma plain_VObj props :
  plain (VObj props) = true ->
  NoDup (map fst props)
  /\ forallb (fun k => negb (isArrayIndex k)) (map fst props) = true
  /\ Forall (fun kv => forallb isUnit (fst kv) = true
                       /\ plain (snd kv) = true) props.
Proof.
  cbn [plain]. intros H. apply andb_true_iff in H as [Hall Hnd].
  apply bool_decide_eq_true in Hnd. split; [exact Hnd|].
  clear Hnd. induction props as [|[k v] props IH]; [split; constructor|].
  cbn [forallb fst snd] in Hall.
  apply andb_true_iff in Hall as [Hkv Hall].
  apply andb_true_iff in Hkv as [Hkv Hv].
  apply andb_true_iff in Hkv as [Hk Hidx].
  destruct (IH Hall) as [IH1 IH2]. split.
  - cbn [map forallb fst]. rewrite Hidx. exact IH1.
  - constructor; [split; assumption | exact IH2].
Qed.

Lemma Forall_definedProps (P : jsstring * value -> Prop) props :
  Forall P props -> Forall P (definedProps props).
Proof.
  unfold definedProps. induction 1 as [|kv props Hkv _ IH]; [constructor|].
  cbn [List.filter]. destruct (negb _); [constructor|]; assumption.
Qed.

Lemma definedProps_defined props :
  Forall (fun kv => isUndefined (snd kv) = false) (definedProps props).
Proof.
  unfold definedProps. induction props as [|kv props IH]; [constructor|].
  cbn [List.filter]. destruct (isUndefined (snd kv)) eqn:Hkv; cbn [negb];
    [exact IH | constructor; assumption].
Qed.

Lemma startsWith_prefix p rest : startsWith (p ++ rest) p = true.
Proof.
  induction p as [|c p IH]; [destruct rest; reflexivity|].
  cbn [app startsWith]. rewrite Z.eqb_refl. exact IH.
Qed.

Lemma literal_text word v rest :
  literal word v (js word ++ rest) = Some (v, rest).
Proof.
  unfold literal. rewrite startsWith_prefix, drop_app_length. reflexivity.
Qed.

(** The text written for a value is read back, whatever follows it in an
    array or an object. *)
Lemma parseValue_elementText v :
  plain v = true ->
  forall rest fuel, delimited rest -> (nodes v <= fuel)%nat ->
    parseValue fuel (elementText v ++ rest) = Some (elementValue v, rest).
Proof.
  induction v as [| |b|m e|s|elems IH|props IH] using value_ind;
    intros Hplain rest fuel Hrest Hfuel;
    (destruct fuel as [|fuel]; [cbn [nodes] in Hfuel; lia|]).
  - exact (literal_text "null" VNull rest).
  - exact (literal_text "null" VNull rest).
  - destruct b.
    + exact (literal_text "true" (VBool true) rest).
    + exact (literal_text "false" (VBool false) rest).
  - cbn [plain] in Hplain. apply andb_true_iff in Hplain as [He Hm].
    apply Z.eqb_eq in He. apply Z.ltb_lt, below_2_53 in Hm. subst e.
    pose proof (parseNumber_numberToString m rest Hm Hrest) as Hparse.
    unfold elementText. cbn [serializeJSON default from_option id].
    destruct (numberToString_integer m Hm) as (d & ds & Htext & Hds & _).
    rewrite Htext in *.
    cbn [forallb] in Hds. apply andb_true_iff in Hds as [Hd _].
    unfold isDigit in Hd. apply andb_true_iff in Hd as [Hd1 Hd2].
    apply Z.leb_le in Hd1, Hd2.
    cbn [parseValue]. destruct (m <? 0); cbn [app] in *.
    + exact Hparse.
    + cbn [skipWs]. unfold isJsonWs.
      destruct (Z.eqb_spec d 32); [lia|]. destruct (Z.eqb_spec d 9); [lia|].
      destruct (Z.eqb_spec d 10); [lia|]. destruct (Z.eqb_spec d 13); [lia|].
      cbn [orb].
      destruct (Z.eqb_spec d 34); [lia|]. destruct (Z.eqb_spec d 91); [lia|].
      destruct (Z.eqb_spec d 123); [lia|]. destruct (Z.eqb_spec d 116); [lia|].
      destruct (Z.eqb_spec d 102); [lia|]. destruct (Z.eqb_spec d 110); [lia|].
      exact Hparse.
  - cbn [plain] in Hplain.
    unfold elementText. cbn [serializeJSON default from_option id].
    unfold quoteJSONString.
    cbn [app parseValue skipWs isJsonWs Z.eqb Pos.eqb orb].
    change (34 =? 34) with true. cbv iota.
    rewrite <- app_assoc. cbn [app].
    rewrite parseString_quoteJSONString by exact Hplain. reflexivity.
  - cbn [plain] in Hplain.
    assert (Hparse : Forall (fun x => forall rest fuel, delimited rest ->
                        (nodes x <= fuel)%nat ->
                        parseValue fuel (elementText x ++ rest)
                        = Some (elementValue x, rest)) elems).
    { clear Hfuel. induction IH as [|x elems Hx _ IHelems]; [constructor|].
      cbn [forallb] in Hplain. apply andb_true_iff in Hplain as [Hpx Hpl].
      constructor; [apply Hx; exact Hpx | apply IHelems; exact Hpl]. }
    unfold elementText at 1. cbn [serializeJSON default from_option id].
    change (map (fun x => default (js "null") (serializeJSON x)) elems)
      with (map elementText elems).
    change (elementValue (VArr elems)) with (VArr (map elementValue elems)).
    cbn [app parseValue skipWs isJsonWs Z.eqb Pos.eqb orb].
    change (91 =? 34) with false. change (91 =? 91) with true. cbv iota.
    rewrite <- app_assoc. cbn [app].
    destruct elems as [|x elems]; [reflexivity|].
    assert (Hopens : opens (joinComma (map elementText (x :: elems)))).
    { cbn [forallb] in Hplain. apply andb_true_iff in Hplain as [Hpx _].
      destruct (elementText_opens x Hpx) as (c & text' & Hc & Hws).
      cbn [map]. destruct (map elementText elems) as [|q parts].
      - exists c, text'. auto.
      - rewrite joinComma_cons, Hc. eexists c, _. split; [reflexivity | exact Hws]. }
    rewrite (skipWs_opens _ _ Hopens).
    destruct Hopens as (c & text' & Htext & _ & H93 & _).
    rewrite Htext at 1. cbn [app].
    destruct (Z.eqb_spec c 93); [contradiction|].
    cbn [nodes] in Hfuel.
    rewrite parseElements_joinComma by (try assumption; try discriminate; lia).
    reflexivity.
  - destruct (plain_VObj props Hplain) as (Hnd & Hidx & Hprops).
    rewrite nodes_VObj in Hfuel.
    unfold elementText at 1. cbn [serializeJSON default from_option id].
    rewrite members_plain by assumption.
    change (elementValue (VObj props)) with (prune (VObj props)).
    rewrite prune_VObj.
    assert (Hparse : Forall (fun kv => forall rest fuel, delimited rest ->
                        (nodes (snd kv) <= fuel)%nat ->
                        parseValue fuel (elementText (snd kv) ++ rest)
                        = Some (elementValue (snd kv), rest))
                       (definedProps props)).
    { apply Forall_definedProps.
      clear Hfuel Hnd Hidx Hplain.
      induction IH as [|kv props Hkv _ IHprops]; [constructor|].
      inversion_clear Hprops as [|? ? [_ Hpv] Hprops'].
      constructor; [apply Hkv; exact Hpv | apply IHprops; exact Hprops']. }
    pose proof (Forall_definedProps _ _ Hprops) as Hdefined.
    cbn [app parseValue skipWs isJsonWs Z.eqb Pos.eqb orb].
    change (123 =? 34) with false. change (123 =? 91) with false.
    change (123 =? 123) with true. cbv iota.
    rewrite <- app_assoc. cbn [app].
    remember (definedProps props) as written eqn:Hwritten. clear Hwritten.
    destruct written as [|[k x] defined]; [reflexivity|].
    assert (Hopens : exists text',
      joinComma (map memberText ((k, x) :: defined)) = 34 :: text').
    { cbn [map]. destruct (map memberText defined) as [|q parts].
      - eexists. reflexivity.
      - rewrite joinComma_cons. eexists. reflexivity. }
    destruct Hopens as (text' & Htext).
    rewrite Htext at 1. cbn [app skipWs isJsonWs Z.eqb Pos.eqb orb].
    change (34 =? 125) with false. cbv iota.
    rewrite parseMembers_joinComma
      by (try assumption; try discriminate; apply le_S_n; exact Hfuel).
    reflexivity.
Qed.

Lemma list_sum_le {A} (f g : A -> nat) (l : list A) :
  Forall (fun x => (f x <= g x)%nat) l ->
  (list_sum (map f l) <= list_sum (map g l))%nat.
Proof.
  induction 1 as [|x l Hx _ IH]; [reflexivity|].
  cbn [map]. rewrite !list_sum_cons. lia.
Qed.

(** The parser never needs more calls than the text has characters. *)
Lemma nodes_le_length v :
  plain v = true -> (nodes v <= length (elementText v))%nat.
Proof.
  induction v as [| |b|m e|s|elems IH|props IH] using value_ind; intros Hplain.
  - vm_compute. lia.
  - vm_compute. lia.
  - destruct b; vm_compute; lia.
  - cbn [plain] in Hplain. apply andb_true_iff in Hplain as [He Hm].
    apply Z.eqb_eq in He. apply Z.ltb_lt, below_2_53 in Hm. subst e.
    unfold elementText. cbn [serializeJSON default from_option id nodes].
    destruct (numberToString_integer m Hm) as (d & ds & -> & _).
    rewrite length_app. cbn [length]. lia.
  - unfold elementText. cbn [serializeJSON default from_option id nodes].
    unfold quoteJSONString. cbn [length]. lia.
  - unfold elementText at 1. cbn [serializeJSON default from_option id nodes].
    change (map (fun x => default (js "null") (serializeJSON x)) elems)
      with (map elementText elems).
    cbn [length]. rewrite length_app. cbn [length].
    assert (Hle : (list_sum (map (fun x => S (nodes x)) elems)
                   <= list_sum (map (fun x => S (length (elementText x)))
                                  elems))%nat).
    { apply list_sum_le. cbn [plain] in Hplain.
      induction IH as [|y l Hy _ IHl]; [constructor|].
      cbn [forallb] in Hplain. apply andb_true_iff in Hplain as [Hpy Hpl].
      constructor; [specialize (Hy Hpy); lia | apply IHl; exact Hpl]. }
    destruct elems as [|x elems]; [cbn; lia|].
    pose proof (length_joinComma (map elementText (x :: elems))
                  ltac:(discriminate)) as Hlen.
    rewrite map_map in Hlen. lia.
  - destruct (plain_VObj props Hplain) as (Hnd & Hidx & Hprops).
    rewrite nodes_VObj.
    unfold elementText at 1. cbn [serializeJSON default from_option id].
    rewrite members_plain by assumption.
    cbn [length]. rewrite length_app. cbn [length].
    assert (Hle : (list_sum (map (fun kv => S (nodes (snd kv)))
                               (definedProps props))
                   <= list_sum (map (fun kv => S (length (memberText kv)))
                                  (definedProps props)))%nat).
    { apply list_sum_le. apply Forall_definedProps.
      clear Hnd Hidx Hplain.
      induction IH as [|kv props Hkv _ IHprops]; [constructor|].
      inversion_clear Hprops as [|? ? [_ Hpv] Hprops'].
      constructor; [|apply IHprops; exact Hprops'].
      specialize (Hkv Hpv). unfold memberText. rewrite length_app.
      cbn [length]. lia. }
    destruct (definedProps props) as [|kv defined]; [cbn; lia|].
    pose proof (length_joinComma (map memberText (kv :: defined))
                  ltac:(discriminate)) as Hlen.
    rewrite map_map in Hlen. lia.
Qed.

Lemma isDigit_noSurrogate ds :
  forallb isDigit ds = true -> forallb noSurrogate ds = true.
Proof.
  induction ds as [|d ds IH]; [reflexivity|]. cbn [forallb]. intros H.
  apply andb_true_iff in H as [Hd Hds]. rewrite (IH Hds), andb_true_r.
  unfold isDigit in Hd. apply andb_true_iff in Hd as [H1 H2].
  apply Z.leb_le in H1, H2.
  unfold noSurrogate, isLeadingSurrogate, isTrailingSurrogate.
  destruct (Z.leb_spec 55296 d); [lia|]. destruct (Z.leb_spec 56320 d); [lia|].
  reflexivity.
Qed.

Lemma isWellFormed_quoteJSONString s t :
  forallb isUnit s = true ->
  isWellFormed (quoteJSONString s ++ t) = isWellFormed t.
Proof.
  intros Hs. unfold quoteJSONString. cbn [app].
  change (isWellFormed (34 :: (quoteBody s ++ [34]) ++ t))
    with (isWellFormed ((quoteBody s ++ [34]) ++ t)).
  rewrite <- app_assoc, isWellFormed_app by (apply isWellFormed_quoteBody, Hs).
  reflexivity.
Qed.

Lemma isWellFormed_joinComma parts :
  Forall (fun p => forall t, isWellFormed (p ++ t) = isWellFormed t) parts ->
  forall t, isWellFormed (joinComma parts ++ t) = isWellFormed t.
Proof.
  induction 1 as [|p parts Hp _ IH]; [reflexivity|]. intros t.
  destruct parts as [|q parts]; [apply Hp|].
  rewrite joinComma_cons, <- app_assoc, Hp. cbn [app].
  change (isWellFormed (44 :: joinComma (q :: parts) ++ t))
    with (isWellFormed (joinComma (q :: parts) ++ t)).
  apply IH.
Qed.

(** The text written for a value holds no surrogate without its partner:
    [encodeURIComponent] does not throw on it. *)
Lemma isWellFormed_elementText v :
  plain v = true ->
  forall t, isWellFormed (elementText v ++ t) = isWellFormed t.
Proof.
  induction v as [| |b|m e|s|elems IH|props IH] using value_ind;
    intros Hplain t.
  - reflexivity.
  - reflexivity.
  - destruct b; reflexivity.
  - cbn [plain] in Hplain. apply andb_true_iff in Hplain as [He Hm].
    apply Z.eqb_eq in He. apply Z.ltb_lt, below_2_53 in Hm. subst e.
    unfold elementText. cbn [serializeJSON default from_option id].
    destruct (numberToString_integer m Hm) as (d & ds & -> & Hds & _).
    apply isWellFormed_app, isWellFormed_noSurrogate.
    rewrite forallb_app, (isDigit_noSurrogate _ Hds), andb_true_r.
    destruct (m <? 0); reflexivity.
  - unfold elementText. cbn [serializeJSON default from_option id].
    apply isWellFormed_quoteJSONString. exact Hplain.
  - unfold elementText at 1. cbn [serializeJSON default from_option id].
    change (map (fun x => default (js "null") (serializeJSON x)) elems)
      with (map elementText elems).
    cbn [app].
    change (isWellFormed (91 :: (joinComma (map elementText elems) ++ [93]) ++ t))
      with (isWellFormed ((joinComma (map elementText elems) ++ [93]) ++ t)).
    rewrite <- app_assoc, isWellFormed_joinComma; [reflexivity|].
    cbn [plain] in Hplain. clear t.
    induction IH as [|x elems Hx _ IHelems]; [constructor|].
    cbn [forallb] in Hplain. apply andb_true_iff in Hplain as [Hpx Hpl].
    cbn [map]. constructor; [apply Hx; exact Hpx | apply IHelems; exact Hpl].
  - destruct (plain_VObj props Hplain) as (Hnd & Hidx & Hprops).
    unfold elementText at 1. cbn [serializeJSON default from_option id].
    rewrite members_plain by assumption.
    cbn [app].
    change (isWellFormed (123 :: (joinComma (map memberText (definedProps props))
                                   ++ [125]) ++ t))
      with (isWellFormed ((joinComma (map memberText (definedProps props))
                           ++ [125]) ++ t)).
    rewrite <- app_assoc, isWellFormed_joinComma; [reflexivity|].
    apply Forall_map. apply Forall_definedProps.
    clear Hnd Hidx Hplain t.
    induction IH as [|kv props Hkv _ IHprops]; [constructor|].
    inversion_clear Hprops as [|? ? [Hk Hpv] Hprops'].
    constructor; [|apply IHprops; exact Hprops'].
    intros t. unfold memberText.
    rewrite <- app_assoc, isWellFormed_quoteJSONString by exact Hk.
    cbn [app].
    change (isWellFormed (58 :: elementText (snd kv) ++ t))
      with (isWellFormed (elementText (snd kv) ++ t)).
    apply Hkv. exact Hpv.
Qed.

Lemma JSON_parse_JSON_stringify (v : value) :
  plain v = true -> isUndefined v = false ->
  JSON_parse (JSON_stringify v) = Some (prune v)
  /\ isWellFormed (JSON_stringify v) = true.
Proof.
  intros Hplain Hdefined. unfold JSON_stringify.
  rewrite (serializeJSON_defined v Hdefined). cbn [default from_option id].
  split.
  - unfold JSON_parse.
    rewrite <- (app_nil_r (elementText v)) at 2.
    rewrite parseValue_elementText;
      [ | exact Hplain | exact I | pose proof (nodes_le_length v Hplain); lia ].
    cbn. rewrite (elementValue_defined v Hdefined). reflexivity.
  - rewrite <- (app_nil_r (elementText v)).
    rewrite isWellFormed_elementText by exact Hplain. reflexivity.
Qed.

(** X15. JSON round trip.  For a value whose strings are strings of code
    units, whose numbers are integers below [2 ^ 53] in absolute value and
    whose objects have pairwise different keys that are no array indices,
    [JSON.parse(JSON.stringify(v))] is [v] without its [undefined]
    properties and with [null] for an [undefined] element of an array; the
    strings are read back as they were, whatever control characters, quotes
    or single surrogates they hold.  The text holds no surrogate without
    its partner, so that [encodeURIComponent] accepts it. *)
Theorem JSON_parse_stringify_roundtrip (v : value) :
  plain v = true -> isUndefined v = false ->
  JSON_parse (JSON_stringify v) = Some (prune v)
  /\ isWellFormed (JSON_stringify v) = true.
Proof. exact (JSON_parse_JSON_stringify v). Qed.

Lemma JSON_parse_stringify_roundtrip_witness :
  JSON_parse (JSON_stringify
    (VArr [VObj [(js "n", VStr [34; 10; 55357; 30331]); (js "sl", VUndefined);
                 (js "p", VNum (-50) 0)];
           VUndefined; VBool true]))
  = Some (VArr [VObj [(js "n", VStr [34; 10; 55357; 30331]);
                      (js "p", VNum (-50) 0)];
                VNull; VBool true]).
Proof.
  apply (JSON_parse_stringify_roundtrip
    (VArr [VObj [(js "n", VStr [34; 10; 55357; 30331]); (js "sl", VUndefined);
                 (js "p", VNum (-50) 0)];
           VUndefined; VBool true])); reflexivity.
Defined.

(** ** The snapshot of a collection *)

Lemma isUnit_hexChar n : 0 <= n < 16 -> isUnit (hexChar n) = true.
Proof.
  intros Hn. unfold hexChar, isUnit.
  destruct (Z.ltb_spec n 10); apply andb_true_iff; split;
    (apply Z.leb_le || apply Z.ltb_lt); lia.
Qed.

Lemma isUnit_unicodeEscape c :
  0 <= c < 65536 -> forallb isUnit (unicodeEscape c) = true.
Proof.
  intros Hc. unfold unicodeEscape. cbn [forallb].
  rewrite !isUnit_hexChar by dlia. reflexivity.
Qed.

Lemma isUnit_quoteBody s :
  forallb isUnit s = true -> forallb isUnit (quoteBody s) = true.
Proof.
  induction s as [|c s IH IH2] using list_ind2; intros Hs; [reflexivity|].
  pose proof Hs as Hcs.
  apply forallb_isUnit_cons in Hs as [Hc Hs]. specialize (IH Hs).
  assert (Hunit : isUnit c = true)
    by (cbn [forallb] in Hcs; apply andb_true_iff in Hcs; apply Hcs).
  cbn [quoteBody].
  repeat match goal with
  | |- context [if ?a =? ?b then _ else _] =>
      destruct (Z.eqb_spec a b) as [->|?]; [exact IH|]
  end.
  destruct (c <? 32);
    [rewrite forallb_app, isUnit_unicodeEscape, IH by exact Hc; reflexivity|].
  destruct (isLeadingSurrogate c).
  - destruct s as [|d s']; [apply isUnit_unicodeEscape; exact Hc|].
    destruct (isTrailingSurrogate d).
    + cbn [forallb] in *. rewrite Hunit. cbn [andb].
      apply andb_true_iff in Hs as [Hd Hs']. rewrite Hd. cbn [andb].
      apply (IH2 d s' eq_refl Hs').
    + rewrite forallb_app, isUnit_unicodeEscape, IH by exact Hc; reflexivity.
  - destruct (isTrailingSurrogate c).
    + rewrite forallb_app, isUnit_unicodeEscape, IH by exact Hc; reflexivity.
    + cbn [forallb]. rewrite Hunit, IH. reflexivity.
Qed.

Lemma isUnit_quoteJSONString s :
  forallb isUnit s = true -> forallb isUnit (quoteJSONString s) = true.
Proof.
  intros Hs. unfold quoteJSONString. cbn [forallb].
  rewrite forallb_app, (isUnit_quoteBody s Hs). reflexivity.
Qed.

Lemma isDigit_isUnit ds :
  forallb isDigit ds = true -> forallb isUnit ds = true.
Proof.
  induction ds as [|d ds IH]; [reflexivity|]. cbn [forallb]. intros H.
  apply andb_true_iff in H as [Hd Hds]. rewrite (IH Hds), andb_true_r.
  unfold isDigit in Hd. apply andb_true_iff in Hd as [H1 H2].
  apply Z.leb_le in H1, H2.
  unfold isUnit. apply andb_true_iff. split;
    [apply Z.leb_le | apply Z.ltb_lt]; lia.
Qed.

Lemma isUnit_joinComma parts :
  Forall (fun p => forallb isUnit p = true) parts ->
  forallb isUnit (joinComma parts) = true.
Proof.
  induction 1 as [|p parts Hp _ IH]; [reflexivity|].
  destruct parts as [|q parts]; [exact Hp|].
  rewrite joinComma_cons, forallb_app, Hp. cbn [forallb andb]. exact IH.
Qed.

(** The text written for a value is a string of code units. *)
Lemma isUnit_elementText v :
  plain v = true -> forallb isUnit (elementText v) = true.
Proof.
  induction v as [| |b|m e|s|elems IH|props IH] using value_ind; intros Hplain.
  - reflexivity.
  - reflexivity.
  - destruct b; reflexivity.
  - cbn [plain] in Hplain. apply andb_true_iff in Hplain as [He Hm].
    apply Z.eqb_eq in He. apply Z.ltb_lt, below_2_53 in Hm. subst e.
    unfold elementText. cbn [serializeJSON default from_option id].
    destruct (numberToString_integer m Hm) as (d & ds & -> & Hds & _).
    rewrite forallb_app, (isDigit_isUnit _ Hds), andb_true_r.
    destruct (m <? 0); reflexivity.
  - unfold elementText. cbn [serializeJSON default from_option id].
    apply isUnit_quoteJSONString. exact Hplain.
  - unfold elementText at 1. cbn [serializeJSON default from_option id].
    change (map (fun x => default (js "null") (serializeJSON x)) elems)
      with (map elementText elems).
    cbn [forallb]. rewrite forallb_app, isUnit_joinComma; [reflexivity|].
    cbn [plain] in Hplain.
    induction IH as [|x elems Hx _ IHelems]; [constructor|].
    cbn [forallb] in Hplain. apply andb_true_iff in Hplain as [Hpx Hpl].
    cbn [map]. constructor; [apply Hx; exact Hpx | apply IHelems; exact Hpl].
  - destruct (plain_VObj props Hplain) as (Hnd & Hidx & Hprops).
    unfold elementText at 1. cbn [serializeJSON default from_option id].
    rewrite members_plain by assumption.
    cbn [forallb]. rewrite forallb_app, isUnit_joinComma; [reflexivity|].
    apply Forall_map. apply Forall_definedProps.
    clear Hnd Hidx Hplain.
    induction IH as [|kv props Hkv _ IHprops]; [constructor|].
    inversion_clear Hprops as [|? ? [Hk Hpv] Hprops'].
    constructor; [|apply IHprops; exact Hprops'].
    unfold memberText. rewrite forallb_app. apply andb_true_iff. split.
    + apply isUnit_quoteJSONString. exact Hk.
    + cbn [forallb andb]. apply Hkv. exact Hpv.
Qed.

(** The whole chain of [encodeData] and of the first statements of
    [decodeData], for any value the serialisation covers. *)
Lemma parseSnapshot_btoa (v : value) :
  plain v = true -> isUndefined v = false ->
  exists bin b64,
    utf8Encode (JSON_stringify v) = Some bin
    /\ btoa bin = Some b64
    /\ b64 <> []
    /\ parseSnapshot b64 = Some (prune v).
Proof.
  intros Hplain Hdefined.
  destruct (JSON_parse_JSON_stringify v Hplain Hdefined) as [Hparse Hwf].
  assert (Hunits : forallb isUnit (JSON_stringify v) = true).
  { unfold JSON_stringify. rewrite (serializeJSON_defined v Hdefined).
    apply isUnit_elementText. exact Hplain. }
  destruct (proj2 (utf8Encode_isWellFormed _) Hwf) as [bin Hbin].
  destruct (utf8Decode_utf8Encode _ Hunits bin Hbin) as [Hbytes Hdec].
  exists bin, (encodeTriples bin).
  assert (Hbtoa : btoa bin = Some (encodeTriples bin)).
  { unfold btoa.
    replace (forallb (fun c => c <=? 255) bin) with true; [reflexivity|].
    symmetry. apply forallb_forall. intros c Hc. apply Z.leb_le.
    rewrite Forall_forall in Hbytes. apply Hbytes, list_elem_of_In, Hc. }
  split; [exact Hbin|]. split; [exact Hbtoa|]. split.
  - assert (Hne : bin <> []).
    { intros ->. specialize (Hdec 0%nat ltac:(reflexivity)). cbn in Hdec.
      injection Hdec as Hnil. unfold JSON_stringify in Hnil.
      rewrite (serializeJSON_defined v Hdefined) in Hnil.
      cbn [default from_option id] in Hnil.
      pose proof (nodes_le_length v Hplain) as Hlen. rewrite <- Hnil in Hlen.
      destruct v; cbn in Hlen; lia. }
    destruct bin as [|a [|b [|c bin]]]; [congruence| | |]; discriminate.
  - unfold parseSnapshot. rewrite atob_encodeTriples by exact Hbytes.
    cbn [mbind option_bind]. unfold decodeURIComponent_escape.
    rewrite Hdec by reflexivity. cbn [mbind option_bind]. exact Hparse.
Qed.

Lemma mapM_map {A B C} (f : B -> option C) (g : A -> B) (h : A -> C)
    (l : list A) :
  (forall x, In x l -> f (g x) = Some (h x)) ->
  mapM f (map g l) = Some (map h l).
Proof.
  induction l as [|x l IH]; [reflexivity|]. intros Hext.
  cbn [map mapM]. rewrite (Hext x) by (left; reflexivity).
  cbn [mbind option_bind].
  rewrite IH by (intros y Hy; apply Hext; right; exact Hy). reflexivity.
Qed.

Lemma minifyAssignment_value a :
  minifyAssignment (assignmentValue a) = Some (minifiedAssignmentValue a).
Proof. reflexivity. Qed.

Lemma minifyTask_value t :
  minifyTask (taskValue t) = Some (minifiedTaskValue t).
Proof.
  unfold minifyTask, taskValue.
  change (getProp (VObj _) (js "id")) with (Some (VStr (task_id t))).
  change (getProp (VObj _) (js "name")) with (Some (VStr (name t))).
  change (getProp (VObj _) (js "assignments"))
    with (Some (VArr (map assignmentValue (assignments t)))).
  cbn [mbind option_bind arrayMap].
  rewrite (mapM_map _ _ minifiedAssignmentValue)
    by (intros a _; apply minifyAssignment_value).
  reflexivity.
Qed.

Lemma minifyTasks_value ts :
  minifyTasks (tasksValue ts) = Some (VArr (map minifiedTaskValue ts)).
Proof.
  unfold minifyTasks, tasksValue, arrayMap.
  rewrite (mapM_map _ _ minifiedTaskValue)
    by (intros t _; apply minifyTask_value).
  reflexivity.
Qed.

Lemma isUnit_dateString d : forallb isUnit (dateString d) = true.
Proof.
  unfold dateString. destruct (toISODate d) as [[y m] dd].
  assert (Hpad : forall w n, forallb isUnit (pad w n) = true).
  { intros w n. unfold pad. rewrite forallb_app.
    rewrite (isDigit_isUnit _ (decimal_isDigit n)), andb_true_r.
    induction (w - length (decimal n))%nat; [reflexivity | assumption]. }
  rewrite !forallb_app, !Hpad. reflexivity.
Qed.

Lemma plain_minifiedAssignmentValue a :
  plainAssignment a = true -> plain (minifiedAssignmentValue a) = true.
Proof.
  unfold plainAssignment. intros H.
  apply andb_true_iff in H as [H Hp]. apply andb_true_iff in H as [H Hc].
  apply andb_true_iff in H as [H Hsl]. apply andb_true_iff in H as [Hi Hr].
  unfold minifiedAssignmentValue. cbn [plain forallb fst snd map].
  rewrite Hi, Hr, Hc, Hp, !isUnit_dateString.
  destruct (subLabel a) as [s|]; cbn [default from_option id] in Hsl;
    cbn [plain]; rewrite ?Hsl; vm_compute; reflexivity.
Qed.

Lemma plain_minifiedTaskValue t :
  plainTask t = true -> plain (minifiedTaskValue t) = true.
Proof.
  unfold plainTask. intros H.
  apply andb_true_iff in H as [H Ha]. apply andb_true_iff in H as [Hi Hn].
  unfold minifiedTaskValue. cbn [plain forallb fst snd map].
  rewrite Hi, Hn.
  assert (Hall : forallb plain (map minifiedAssignmentValue (assignments t))
                 = true).
  { induction (assignments t) as [|a l IH]; [reflexivity|].
    cbn [forallb map] in *. apply andb_true_iff in Ha as [Hpa Hl].
    rewrite (plain_minifiedAssignmentValue a Hpa). apply IH, Hl. }
  rewrite Hall. vm_compute. reflexivity.
Qed.

Lemma unminifyAssignment_pruned a :
  unminifyAssignment (prune (minifiedAssignmentValue a))
  = Some (assignmentValue (withSubLabel a)).
Proof.
  unfold minifiedAssignmentValue, assignmentValue, withSubLabel.
  cbn [subLabel assign_id role startDate endDate progress color].
  destruct (subLabel a) as [[|c s]|]; reflexivity.
Qed.

Lemma prune_minifiedTaskValue t :
  prune (minifiedTaskValue t)
  = VObj [ (js "i", VStr (task_id t)); (js "n", VStr (name t));
           (js "a", VArr (map (fun a => prune (minifiedAssignmentValue a))
                            (assignments t))) ].
Proof.
  unfold minifiedTaskValue. cbn [prune omap list_omap fst snd].
  rewrite map_map. reflexivity.
Qed.

Lemma unminifyTask_pruned t :
  unminifyTask (prune (minifiedTaskValue t)) = Some (taskValue (unminified t)).
Proof.
  rewrite prune_minifiedTaskValue. unfold unminifyTask.
  change (getProp (VObj _) (js "i")) with (Some (VStr (task_id t))).
  change (getProp (VObj _) (js "n")) with (Some (VStr (name t))).
  change (getProp (VObj _) (js "a"))
    with (Some (VArr (map (fun a => prune (minifiedAssignmentValue a))
                        (assignments t)))).
  cbn [mbind option_bind arrayMap].
  rewrite (mapM_map _ _ (fun a => assignmentValue (withSubLabel a)))
    by (intros a _; apply unminifyAssignment_pruned).
  cbn [mbind option_bind]. unfold taskValue, unminified.
  cbn [task_id name assignments]. rewrite (map_map withSubLabel assignmentValue).
  reflexivity.
Qed.

Lemma decodeParsed_pruned ts :
  decodeParsed (prune (VArr (map minifiedTaskValue ts)))
  = Some (tasksValue (map unminified ts)).
Proof.
  assert (Hprune : prune (VArr (map minifiedTaskValue ts))
                   = VArr (map (fun t => prune (minifiedTaskValue t)) ts)).
  { cbn [prune]. rewrite map_map. reflexivity. }
  rewrite Hprune. destruct ts as [|t ts]; [reflexivity|].
  cbn [map]. rewrite prune_minifiedTaskValue at 1.
  unfold decodeParsed.
  change (hasProp (js "n") (VObj _)) with (Some true).
  cbn [mbind option_bind].
  change (hasProp (js "a") (VObj _)) with (Some true).
  cbn [mbind option_bind andb].
  rewrite <- prune_minifiedTaskValue.
  change (prune (minifiedTaskValue t)
          :: map (fun t => prune (minifiedTaskValue t)) ts)
    with (map (fun t => prune (minifiedTaskValue t)) (t :: ts)).
  unfold unminifyTasks, arrayMap.
  rewrite (mapM_map _ _ (fun t => taskValue (unminified t)))
    by (intros t' _; apply unminifyTask_pruned).
  cbn [mbind option_bind]. unfold tasksValue. do 2 f_equal.
  cbn [map]. f_equal. symmetry. apply map_map.
Qed.

(** X16. Sharing round trip.  For a feature collection whose strings are
    strings of code units and whose progress values are integers below
    [2 ^ 53] in absolute value, [encodeData] does not fail (its result is not the empty string
    of its [catch]) and [decodeData] reads from the result the collection
    itself, each assignment with the empty string for an absent
    [subLabel]: names, roles and sub-labels in any script and with any
    control characters, quotes or single surrogates survive the snapshot
    link. *)
Theorem decodeData_encodeData_roundtrip (ts : list Task) :
  forallb plainTask ts = true ->
  encodeData (tasksValue ts) <> []
  /\ decodeData (encodeData (tasksValue ts))
     = Some (tasksValue (map unminified ts)).
Proof.
  intros Hplain.
  assert (Hmin : plain (VArr (map minifiedTaskValue ts)) = true).
  { cbn [plain]. induction ts as [|t ts IH]; [reflexivity|].
    cbn [forallb map] in *. apply andb_true_iff in Hplain as [Hpt Hpl].
    rewrite (plain_minifiedTaskValue t Hpt). apply IH, Hpl. }
  destruct (parseSnapshot_btoa _ Hmin eq_refl)
    as (bin & b64 & Hbin & Hb64 & Hne & Hsnap).
  assert (Henc : encodeData (tasksValue ts) = b64).
  { unfold encodeData. rewrite minifyTasks_value. cbn [mbind option_bind].
    rewrite Hbin. cbn [mbind option_bind]. rewrite Hb64. reflexivity. }
  rewrite Henc. split; [exact Hne|].
  unfold decodeData. rewrite Hsnap. cbn [mbind option_bind].
  rewrite decodeParsed_pruned. reflexivity.
Qed.

Lemma decodeData_encodeData_roundtrip_witness :
  decodeData (encodeData (tasksValue [loginTask; checkoutTask]))
  = Some (tasksValue (map unminified [loginTask; checkoutTask])).
Proof.
  apply (decodeData_encodeData_roundtrip [loginTask; checkoutTask]).
  reflexivity.
Defined.

(* ===================================================================== *)
(** * Properties of the board's handlers *)
(* ===================================================================== *)

(** ** Numbers that hold small integers *)

(** Below [2 ^ 53] every integer is a Number. *)
Lemma toNumber_small n : Z.abs n < 2 ^ 53 -> toNumber n = n.
Proof.
  intros H. unfold toNumber.
  destruct (Z.leb_spec (Z.log2 (Z.abs n) - 52) 0) as [_|He]; [reflexivity|].
  exfalso. assert (Hlog : Z.log2 (Z.abs n) < 53).
  { destruct (Z.eq_dec (Z.abs n) 0) as [->|Hn]; [simpl; lia|].
    apply Z.log2_lt_pow2; lia. }
  lia.
Qed.

Lemma roundHalfEven_near n d :
  0 < d -> - d <= 2 * (roundHalfEven n d * d - n) <= d.
Proof.
  intros Hd. unfold roundHalfEven.
  pose proof (Z.div_mod n d ltac:(lia)) as Hdm.
  pose proof (Z.mod_pos_bound n d Hd) as Hr.
  destruct (Z.ltb_spec d (2 * (n mod d))) as [H1|H1]; cbn [orb].
  - nia.
  - destruct (Z.eqb_spec d (2 * (n mod d))) as [H2|H2]; cbn [andb].
    + destruct (Z.odd (n / d)); nia.
    + nia.
Qed.

Lemma round_core x y P M k :
  0 < y -> 0 < P -> y < 2 * P ->
  - y <= 2 * (M * y - x * (2 * P)) <= y ->
  2 * y * k <= 2 * x + y < 2 * y * k + 2 * y ->
  2 * (2 * P) * k <= 2 * M + 2 * P < 2 * (2 * P) * k + 2 * (2 * P).
Proof.
  intros Hy HP HyP HM Hk. split.
  - enough (H : (2 * k - 1) * P <= M) by lia.
    apply Z.nlt_ge. intros Hlt.
    assert (M <= (2 * k - 1) * P - 1) by lia.
    assert (M * y <= ((2 * k - 1) * P - 1) * y) by nia.
    nia.
  - enough (H : M < (2 * k + 1) * P) by lia.
    apply Z.nle_gt. intros Hge.
    assert ((2 * k + 1) * P * y <= M * y) by nia.
    nia.
Qed.

(** The shift of the mantissa exceeds the divisor. *)
Lemma divide_shift a y :
  0 < a < 2 ^ 52 -> 0 < y ->
  let j := Z.log2 a - Z.log2 y in
  let reaches := if 0 <=? j then y * 2 ^ j <=? a else y <=? a * 2 ^ (- j) in
  let E := if reaches then j else j - 1 in
  E < 52 /\ y < 2 ^ (52 - E).
Proof.
  intros Ha Hy j reaches E.
  pose proof (Z.log2_spec a ltac:(lia)) as [Hla Hla'].
  pose proof (Z.log2_spec y Hy) as [Hly Hly'].
  pose proof (Z.log2_nonneg a) as Ha0. pose proof (Z.log2_nonneg y) as Hy0.
  assert (Hlog : Z.log2 a < 52) by (apply Z.log2_lt_pow2; lia).
  assert (Hj : j <= 51) by (unfold j; lia).
  assert (HE : E < 52) by (unfold E; destruct reaches; lia).
  split; [exact HE|].
  assert (Hkey : y * 2 ^ 52 <= a * 2 ^ (52 - E)).
  { unfold E, reaches.
    destruct (Z.leb_spec 0 j) as [Hj0|Hj0].
    - destruct (Z.leb_spec (y * 2 ^ j) a) as [Hr|Hr].
      + replace (2 ^ 52) with (2 ^ j * 2 ^ (52 - j))
          by (rewrite <- Z.pow_add_r by lia; f_equal; lia).
        pose proof (Z.pow_pos_nonneg 2 (52 - j) ltac:(lia) ltac:(lia)). nia.
      + (* y * 2^(j-1) <= a *)
        replace (52 - (j - 1)) with (52 - j + 1) by lia.
        rewrite Z.pow_add_r by lia.
        replace (2 ^ 52) with (2 ^ j * 2 ^ (52 - j))
          by (rewrite <- Z.pow_add_r by lia; f_equal; lia).
        pose proof (Z.pow_pos_nonneg 2 (52 - j) ltac:(lia) ltac:(lia)).
        assert (Hl : 2 ^ Z.log2 a = 2 ^ Z.log2 y * 2 ^ j)
          by (rewrite <- Z.pow_add_r by lia; f_equal; unfold j; lia).
        assert (Hy2 : y * 2 ^ j <= 2 * a).
        { rewrite Z.pow_succ_r in Hly' by lia.
          pose proof (Z.pow_pos_nonneg 2 j ltac:(lia) ltac:(lia)). nia. }
        nia.
    - destruct (Z.leb_spec y (a * 2 ^ (- j))) as [Hr|Hr].
      + replace (52 - j) with (52 + - j) by lia.
        rewrite Z.pow_add_r by lia. nia.
      + replace (52 - (j - 1)) with (52 + (- j + 1)) by lia.
        rewrite Z.pow_add_r by lia.
        rewrite (Z.pow_add_r 2 (- j) 1) by lia.
        assert (Hl : 2 ^ Z.log2 y = 2 ^ Z.log2 a * 2 ^ (- j))
          by (rewrite <- Z.pow_add_r by lia; f_equal; unfold j; lia).
        rewrite Z.pow_succ_r in Hly' by lia.
        pose proof (Z.pow_pos_nonneg 2 (- j) ltac:(lia) ltac:(lia)).
        change (2 ^ 1) with 2. nia. }
  pose proof (Z.pow_pos_nonneg 2 (52 - E) ltac:(lia) ltac:(lia)).
  nia.
Qed.

(** On integers below [2 ^ 52] the rounded quotient of Numbers is the
    rounded quotient of the integers. *)
Lemma Math_round_divide x y :
  Z.abs x < 2 ^ 52 -> 0 < y -> Math_round (divide x y) = roundDiv x y.
Proof.
  intros Hx Hy. unfold divide, roundDiv.
  destruct (Z.eqb_spec x 0) as [->|Hx0].
  - cbn [Math_round]. simpl. symmetry. apply Z.div_small. lia.
  - destruct (divide_shift (Z.abs x) y ltac:(lia) Hy) as [HE Hshift].
    cbv zeta in HE, Hshift.
    set (E := if (if 0 <=? Z.log2 (Z.abs x) - Z.log2 y
                  then y * 2 ^ (Z.log2 (Z.abs x) - Z.log2 y) <=? Z.abs x
                  else y <=? Z.abs x * 2 ^ (- (Z.log2 (Z.abs x) - Z.log2 y)))
              then Z.log2 (Z.abs x) - Z.log2 y
              else Z.log2 (Z.abs x) - Z.log2 y - 1) in *.
    cbn [Math_round].
    destruct (Z.leb_spec 0 (E - 52)) as [?|_]; [lia|].
    replace (- (E - 52)) with (52 - E) by lia.
    replace (1 - (E - 52)) with (Z.succ (52 - E)) by lia.
    rewrite Z.pow_succ_r by lia.
    set (s := 52 - E) in *.
    assert (Hs : 1 <= s) by (unfold s; lia).
    set (m := roundHalfEven (Z.abs x * 2 ^ s) y).
    pose proof (roundHalfEven_near (Z.abs x * 2 ^ s) y Hy) as Hm. fold m in Hm.
    assert (HP : 2 ^ s = 2 * 2 ^ (s - 1)).
    { rewrite <- Z.pow_succ_r by lia. f_equal. lia. }
    pose proof (Z.pow_pos_nonneg 2 (s - 1) ltac:(lia) ltac:(lia)) as HP0.
    set (k := (2 * x + y) / (2 * y)).
    assert (Hk : 2 * y * k <= 2 * x + y < 2 * y * k + 2 * y).
    { unfold k. pose proof (Z.div_mod (2 * x + y) (2 * y) ltac:(lia)).
      pose proof (Z.mod_pos_bound (2 * x + y) (2 * y) ltac:(lia)). lia. }
    assert (HM : - y <= 2 * (Z.sgn x * m * y - x * (2 * 2 ^ (s - 1))) <= y).
    { rewrite <- HP. destruct (Z.sgn_spec x) as [[? ->]|[[? ->]|[? ->]]];
        [rewrite Z.abs_eq in Hm by lia | lia | rewrite Z.abs_neq in Hm by lia];
        nia. }
    pose proof (round_core x y (2 ^ (s - 1)) (Z.sgn x * m) k Hy HP0
                  ltac:(lia) HM Hk) as Hcore.
    rewrite <- HP in Hcore.
    symmetry. apply (Z.div_unique_pos _ _ k (2 * (Z.sgn x * m) + 2 ^ s - 2 * 2 ^ s * k));
      lia.
Qed.

Lemma plus_small x y : Z.abs (x + y) < 2 ^ 53 -> plus x y = x + y.
Proof. apply toNumber_small. Qed.

Section Board.
Context {U : Unicode}.

Lemma find_append {A} (f : A -> bool) (l1 l2 : list A) :
  find f (l1 ++ l2)
  = match find f l1 with Some x => Some x | None => find f l2 end.
Proof.
  induction l1 as [|x l1 IH]; [reflexivity|].
  cbn [app find]. destruct (f x); [reflexivity | exact IH].
Qed.

Lemma find_absent {A} (f : A -> bool) (l : list A) :
  (forall x, In x l -> f x = false) -> find f l = None.
Proof.
  induction l as [|x l IH]; [reflexivity|]. intros Hl.
  cbn [find]. rewrite (Hl x) by (left; reflexivity).
  apply IH. intros y Hy. apply Hl. right. exact Hy.
Qed.

Lemma fold_updates_lookup (l : list TaskAssignment) :
  forall (acc : gmap jsstring jsstring) (k : jsstring),
    fold_left (fun updates a =>
      if nonEmpty (role a) && nonEmpty (color a)
      then <[roleKey (role a) := color a]> updates
      else updates) l acc !! k
    = match find (fun a => recorded a && eqb (roleKey (role a)) k) (rev l) with
      | Some a => Some (color a)
      | None => acc !! k
      end.
Proof.
  induction l as [|a l IH]; intros acc k; [reflexivity|].
  cbn [fold_left rev]. rewrite IH, find_append.
  destruct (find _ (rev l)) as [b|]; [reflexivity|].
  cbn [find]. unfold recorded.
  destruct (nonEmpty (role a) && nonEmpty (color a)); cbn [andb];
    [|reflexivity].
  destruct (eqb (roleKey (role a)) k) eqn:Hk.
  - apply eqb_eq in Hk. subst k. apply lookup_insert_eq.
  - apply eqb_neq in Hk. apply lookup_insert_ne. exact Hk.
Qed.

Lemma roleColorUpdates_lookup task k :
  roleColorUpdates task !! k
  = option_map color
      (find (fun a => recorded a && eqb (roleKey (role a)) k)
         (rev (assignments task))).
Proof.
  unfold roleColorUpdates. rewrite fold_updates_lookup.
  destruct (find _ _); reflexivity.
Qed.

(** The colour recorded for a role key is the colour of the last recorded
    assignment of the saved feature with that key. *)
Lemma roleColorUpdates_last task l1 a l2 :
  assignments task = l1 ++ a :: l2 ->
  recorded a = true ->
  (forall b, In b l2 -> recorded b = true ->
             roleKey (role b) <> roleKey (role a)) ->
  roleColorUpdates task !! roleKey (role a) = Some (color a).
Proof.
  intros Hl Ha Hlast. rewrite roleColorUpdates_lookup, Hl.
  rewrite rev_app_distr. cbn [rev]. rewrite <- app_assoc, find_append.
  assert (Hnone : find (fun b => recorded b && eqb (roleKey (role b))
                                               (roleKey (role a))) (rev l2)
                  = None).
  { apply find_absent. intros b Hb. apply in_rev in Hb.
    destruct (recorded b) eqn:Hrec; [|reflexivity]. cbn [andb].
    apply eqb_neq. apply Hlast; assumption. }
  rewrite Hnone. cbn [app find]. rewrite Ha. cbn [andb].
  replace (eqb (roleKey (role a)) (roleKey (role a))) with true
    by (symmetry; apply eqb_eq; reflexivity).
  reflexivity.
Qed.

Lemma roleColorUpdates_recorded task k c :
  roleColorUpdates task !! k = Some c ->
  nonEmpty c = true
  /\ exists a, In a (assignments task) /\ recorded a = true
               /\ roleKey (role a) = k /\ color a = c.
Proof.
  rewrite roleColorUpdates_lookup.
  destruct (find _ _) as [a|] eqn:Hfind; [|discriminate].
  intros [= <-]. apply find_some in Hfind as [Hin Ha].
  apply andb_true_iff in Ha as [Hrec Hk]. apply eqb_eq in Hk.
  apply in_rev in Hin. split.
  - unfold recorded in Hrec. apply andb_true_iff in Hrec. apply Hrec.
  - exists a. auto.
Qed.

Lemma syncColor_spec task a :
  sameButColor a (syncColor (roleColorUpdates task) a)
  /\ (forall c, roleColorUpdates task !! roleKey (role a) = Some c ->
        color (syncColor (roleColorUpdates task) a) = c)
  /\ (roleColorUpdates task !! roleKey (role a) = None ->
        syncColor (roleColorUpdates task) a = a).
Proof.
  unfold syncColor, sameButColor.
  destruct (roleColorUpdates task !! roleKey (role a)) as [c|] eqn:Hc.
  - destruct (roleColorUpdates_recorded _ _ _ Hc) as [Hne _]. rewrite Hne.
    cbn [andb]. destruct (eqb (color a) c) eqn:Heq; cbn [negb].
    + apply eqb_eq in Heq.
      split; [repeat split|]. split; [intros c' [= <-]; exact Heq | discriminate].
    + split; [repeat split|]. split; [intros c' [= <-]; reflexivity | discriminate].
  - split; [repeat split|]. split; [discriminate | reflexivity].
Qed.

Lemma size_pos_lookup (updates : gmap jsstring jsstring) k c :
  updates !! k = Some c -> (0 <? size updates)%nat = true.
Proof.
  intros Hk. apply Nat.ltb_lt.
  destruct (decide (size updates = 0%nat)) as [Hz|]; [|lia].
  apply map_size_empty_iff in Hz. subst updates.
  rewrite lookup_empty in Hk. discriminate.
Qed.

Lemma handleSaveTask_tasks st task :
  isReadOnly st = false ->
  Forall2 (fun t t' =>
    task_id t' = task_id t /\ name t' = name t
    /\ Forall2 (fun a a' =>
         sameButColor a a'
         /\ (forall c, roleColorUpdates task !! roleKey (role a) = Some c ->
               color a' = c)
         /\ (roleColorUpdates task !! roleKey (role a) = None -> a' = a))
         (assignments t) (assignments t'))
    (savedTasks st task) (board_tasks (handleSaveTask st task)).
Proof.
  intros Hro. unfold handleSaveTask. rewrite Hro. cbn [board_tasks].
  fold (savedTasks st task).
  destruct (0 <? size (roleColorUpdates task))%nat eqn:Hsize.
  - apply Forall2_map_r. intros t. cbn [withAssignments task_id name assignments].
    split; [reflexivity|]. split; [reflexivity|].
    apply Forall2_map_r. intros a. apply syncColor_spec.
  - apply Forall2_same_length_lookup. split; [reflexivity|].
    intros i t t' Ht Ht'. rewrite Ht in Ht'. injection Ht' as <-.
    split; [reflexivity|]. split; [reflexivity|].
    apply Forall2_same_length_lookup. split; [reflexivity|].
    intros j a a' Ha Ha'. rewrite Ha in Ha'. injection Ha' as <-.
    split; [repeat split|]. split; [|reflexivity].
    intros c Hc. rewrite (size_pos_lookup _ _ _ Hc) in Hsize. discriminate.
Qed.

(** X17. Saving a feature synchronises the colours of the roles.  In a
    board that may be edited, the new collection is the old one with the
    saved feature in the place of the features with its id (when one is
    being edited) or appended (when none is), and differs from that in
    colours only.  An assignment [a] of the saved feature with a role and a
    colour, the last such for its role (trimmed, without regard to case),
    gives its colour to every assignment of the board with that role; an
    assignment whose role no such assignment of the saved feature shares is
    unchanged.  The feature being edited is cleared. *)
Theorem handleSaveTask_syncs_role_colors (st : BoardState) (task : Task) :
  isReadOnly st = false ->
  let st' := handleSaveTask st task in
  editingTask st' = None
  /\ Forall2 (fun t t' =>
       task_id t' = task_id t /\ name t' = name t
       /\ Forall2 (fun a a' =>
            sameButColor a a'
            /\ ((forall b, In b (assignments task) -> recorded b = true ->
                   roleKey (role b) <> roleKey (role a)) -> a' = a))
            (assignments t) (assignments t'))
       (savedTasks st task) (board_tasks st')
  /\ forall l1 a l2,
       assignments task = l1 ++ a :: l2 ->
       recorded a = true ->
       (forall b, In b l2 -> recorded b = true ->
                  roleKey (role b) <> roleKey (role a)) ->
       forall t' a',
         In t' (board_tasks st') -> In a' (assignments t') ->
         roleKey (role a') = roleKey (role a) ->
         color a' = color a.
Proof.
  intros Hro st'. pose proof (handleSaveTask_tasks st task Hro) as Hall.
  fold st' in Hall. split; [|split].
  - unfold st', handleSaveTask. rewrite Hro. reflexivity.
  - eapply Forall2_impl; [exact Hall|].
    intros t t' (Hid & Hname & Hassign). split; [exact Hid|].
    split; [exact Hname|].
    eapply Forall2_impl; [exact Hassign|].
    intros a a' (Hsame & _ & Hnone). split; [exact Hsame|].
    intros Hother. apply Hnone.
    destruct (roleColorUpdates task !! roleKey (role a)) as [c|] eqn:Hc;
      [exfalso|reflexivity].
    destruct (roleColorUpdates_recorded _ _ _ Hc) as (_ & b & Hb & Hrec & Hk & _).
    exact (Hother b Hb Hrec Hk).
  - intros l1 a l2 Hl Ha Hlast t' a' Ht' Ha' Hkey.
    pose proof (roleColorUpdates_last task l1 a l2 Hl Ha Hlast) as Hlookup.
    apply list_elem_of_In, list_elem_of_lookup in Ht' as [i Ht'].
    destruct (Forall2_lookup_r _ _ _ _ _ Hall Ht') as (t & Ht & _ & _ & Hassign).
    apply list_elem_of_In, list_elem_of_lookup in Ha' as [j Ha'].
    destruct (Forall2_lookup_r _ _ _ _ _ Hassign Ha')
      as (a0 & Ha0 & (_ & Hrole & _) & Hsome & _).
    apply Hsome. rewrite <- Hrole, Hkey. exact Hlookup.
Qed.

(** Every collection the chart publishes holds the features it was given,
    none added and none lost. *)
Lemma step_publish_ids p cst ev ts :
  In (onTaskReorder ts) (snd (step p cst ev)) ->
  map task_id ts ≡ₚ map task_id (tasks p).
Proof.
  intros Hin. apply step_quiet in Hin as [[_ Hin]|(row & _ & _ & Hin)].
  - destruct (handleMouseUp_publish _ _ _ Hin) as (_ & _ & _ & ->). reflexivity.
  - destruct (handleDrop_publish _ _ _ _ Hin) as (_ & _ & _ & Hperm). exact Hperm.
Qed.

Lemma NoDup_map_eq {A B} (f : A -> B) (l : list A) x y :
  NoDup (map f l) -> In x l -> In y l -> f x = f y -> x = y.
Proof.
  induction l as [|z l IH]; [intros _ []|].
  cbn [map]. intros Hnd Hx Hy Hf. apply NoDup_cons in Hnd as [Hz Hnd].
  destruct Hx as [->|Hx], Hy as [->|Hy].
  - reflexivity.
  - exfalso. apply Hz. rewrite Hf. apply list_elem_of_In, in_map, Hy.
  - exfalso. apply Hz. rewrite <- Hf. apply list_elem_of_In, in_map, Hx.
  - apply IH; assumption.
Qed.

(** X18. The chart is given the features the filter lets through, and the
    collection it publishes on a drop or on the commit of a moved bar
    becomes the whole board.  It holds the ids of the filtered features and
    no others: when the ids of the board are pairwise different, a feature
    that the filter hides is no longer on the board afterwards. *)
Theorem reorder_under_filter_keeps_shown_only
    (st : BoardState) (groupBy : GroupBy) (cst : State) (ev : Event)
    (ts : list Task) :
  isReadOnly st = false ->
  In (onTaskReorder ts) (snd (step (chartProps st groupBy) cst ev)) ->
  board_tasks (handleTaskReorder st ts) = ts
  /\ map task_id ts ≡ₚ map task_id (filteredTasks st)
  /\ (NoDup (map task_id (board_tasks st)) ->
      forall hidden,
        In hidden (board_tasks st) ->
        matchesFilter (filterText st) hidden = false ->
        ~ In (task_id hidden)
            (map task_id (board_tasks (handleTaskReorder st ts)))).
Proof.
  intros Hro Hin. unfold handleTaskReorder. rewrite Hro. cbn [withTasks board_tasks].
  pose proof (step_publish_ids _ _ _ _ Hin) as Hperm.
  cbn [chartProps tasks] in Hperm.
  split; [reflexivity|]. split; [exact Hperm|].
  intros Hnd hidden Hhidden Hfilter Hmem.
  apply (Permutation_in _ Hperm) in Hmem.
  apply in_map_iff in Hmem as (shown & Hsame & Hshown).
  unfold filteredTasks in Hshown. apply filter_In in Hshown as [Hboard Hmatch].
  assert (shown = hidden)
    by (apply (NoDup_map_eq task_id (board_tasks st)); assumption).
  congruence.
Qed.

Lemma fold_total_assignments (l : list Task) : forall acc,
  0 <= acc -> acc + Z.of_nat (length (allAssignments l)) < 2 ^ 53 ->
  fold_left (fun acc t => plus acc (Z.of_nat (length (assignments t)))) l acc
  = acc + Z.of_nat (length (allAssignments l)).
Proof.
  induction l as [|t l IH]; intros acc H0 Hb;
    cbn [fold_left allAssignments flat_map] in *.
  - simpl. lia.
  - fold (allAssignments l) in *. rewrite length_app in *.
    rewrite plus_small by lia. rewrite IH by lia. lia.
Qed.

Lemma fold_progress_bounds lo hi B (l : list TaskAssignment) : forall acc,
  Forall (fun a => lo <= progress a <= hi) l ->
  Z.abs lo <= B -> Z.abs hi <= B ->
  Z.abs acc + B * Z.of_nat (length l) < 2 ^ 53 ->
  acc + lo * Z.of_nat (length l)
  <= fold_left (fun sum a => plus sum (progress a)) l acc
  <= acc + hi * Z.of_nat (length l).
Proof.
  intros acc Hl Hlo Hhi. revert acc.
  induction Hl as [|a l Ha Hl IH]; intros acc Hb; cbn [fold_left length] in *.
  - lia.
  - rewrite Nat2Z.inj_succ in *.
    rewrite plus_small by nia.
    specialize (IH (acc + progress a) ltac:(nia)). lia.
Qed.

Lemma fold_total_progress_bounds lo hi B (l : list Task) : forall acc,
  Forall (fun a => lo <= progress a <= hi) (allAssignments l) ->
  Z.abs lo <= B -> Z.abs hi <= B ->
  Z.abs acc + B * Z.of_nat (length (allAssignments l)) < 2 ^ 53 ->
  acc + lo * Z.of_nat (length (allAssignments l))
  <= fold_left (fun acc t =>
       plus acc (fold_left (fun sum a => plus sum (progress a))
                   (assignments t) 0)) l acc
  <= acc + hi * Z.of_nat (length (allAssignments l)).
Proof.
  induction l as [|t l IH]; intros acc Hl Hlo Hhi Hb;
    cbn [fold_left allAssignments flat_map] in *.
  - simpl. lia.
  - fold (allAssignments l) in *. apply Forall_app in Hl as [Ht Hl].
    rewrite length_app, Nat2Z.inj_add in *.
    pose proof (fold_progress_bounds lo hi B (assignments t) 0 Ht Hlo Hhi
                  ltac:(nia)) as Hsum.
    set (taskTotal := fold_left _ (assignments t) 0) in *.
    rewrite plus_small by nia.
    specialize (IH (acc + taskTotal) Hl Hlo Hhi ltac:(nia)). lia.
Qed.

(** X19. While the progress values are integers so small that their
    number times the largest of them, taken without its sign and plus one,
    stays below [2 ^ 52], the average progress shown lies between any lower
    and any upper bound of the progress values of the assignments the
    filter lets through; it is 0 when there is no such assignment. *)
Theorem avgProgress_within_bounds (st : BoardState) (lo hi : Z) :
  Forall (fun a => lo <= progress a <= hi) (allAssignments (filteredTasks st)) ->
  Z.of_nat (length (allAssignments (filteredTasks st)))
    * (1 + Z.max (Z.abs lo) (Z.abs hi)) < 2 ^ 52 ->
  (allAssignments (filteredTasks st) = [] -> avgProgress st = 0)
  /\ (allAssignments (filteredTasks st) <> [] ->
      lo <= avgProgress st <= hi).
Proof.
  intros Hall Hsmall. unfold avgProgress.
  set (n := Z.of_nat (length (allAssignments (filteredTasks st)))) in *.
  set (B := Z.max (Z.abs lo) (Z.abs hi)) in *.
  assert (Hn0 : 0 <= n) by (unfold n; lia).
  assert (HB : Z.abs lo <= B /\ Z.abs hi <= B) by (unfold B; lia).
  destruct HB as [Hlo Hhi].
  rewrite fold_total_assignments by (fold n; nia).
  pose proof (fold_total_progress_bounds lo hi B (filteredTasks st) 0 Hall
                Hlo Hhi ltac:(fold n; nia)) as Htotal.
  fold n in Htotal |- *.
  set (total := fold_left _ (filteredTasks st) 0) in *.
  split.
  - intros Hnil. unfold n. rewrite Hnil. reflexivity.
  - intros Hne.
    assert (Hn : 0 < n).
    { unfold n. destruct (allAssignments (filteredTasks st));
        [congruence | cbn [length]; lia]. }
    destruct (Z.gtb_spec (0 + n) 0) as [_|?]; [|lia].
    rewrite Z.add_0_l in *.
    rewrite Math_round_divide by nia.
    unfold roundDiv. split.
    + apply Z.div_le_lower_bound; [lia | nia].
    + apply Z.lt_succ_r, Z.div_lt_upper_bound; [lia | nia].
Qed.

End Board.

Lemma handleSaveTask_syncs_role_colors_witness :
  editingTask (@handleSaveTask asciiUnicode savingBoard savedLogin) = None.
Proof.
  apply (@handleSaveTask_syncs_role_colors asciiUnicode savingBoard savedLogin).
  reflexivity.
Defined.

Example handleSaveTask_scenario :
  map (fun t => map color (assignments t))
    (board_tasks (@handleSaveTask asciiUnicode savingBoard savedLogin))
  = [ [js "bg-rose-500"];
      [js "bg-rose-500"; js "bg-blue-500"; js "bg-blue-500"] ].
Proof. vm_compute. reflexivity. Qed.

Lemma reorder_under_filter_keeps_shown_only_witness :
  ~ In (js "login")
      (map task_id
         (board_tasks
            (@handleTaskReorder savingBoard
               [withAssignments checkoutTask
                  [ assignment "co-pm" "PM" (ymd 2025 1 6) (ymd 2025 1 7);
                    assignment "co-all" "ALL" (ymd 2025 1 15) (ymd 2025 1 15);
                    assignment "co-rd" "rd" (ymd 2025 1 8) (ymd 2025 1 14) ]]))).
Proof.
  destruct (@reorder_under_filter_keeps_shown_only asciiUnicode savingBoard
              GroupBy_None
              {| draggedItem := Some {| drag_type := ASSIGNMENT;
                                        drag_id := js "co-rd";
                                        drag_parentId := Some (js "checkout") |};
                 draggedBar := None |}
              (Drop (featureLeaf None checkoutTask
                       (assignment "co-all" "ALL" (ymd 2025 1 15) (ymd 2025 1 15))))
              [withAssignments checkoutTask
                 [ assignment "co-pm" "PM" (ymd 2025 1 6) (ymd 2025 1 7);
                   assignment "co-all" "ALL" (ymd 2025 1 15) (ymd 2025 1 15);
                   assignment "co-rd" "rd" (ymd 2025 1 8) (ymd 2025 1 14) ]])
    as (_ & _ & Hgone).
  - reflexivity.
  - vm_compute. right. left. reflexivity.
  - apply (Hgone ltac:(apply (bool_decide_unpack _); vm_compute; exact I)
             loginTask).
    + left. reflexivity.
    + reflexivity.
Defined.

Lemma avgProgress_within_bounds_witness :
  0 <= @avgProgress asciiUnicode savingBoard <= 100.
Proof.
  apply (@avgProgress_within_bounds asciiUnicode savingBoard 0 100).
  - vm_compute. repeat constructor; discriminate.
  - vm_compute. reflexivity.
  - vm_compute. discriminate.
Defined.

(** Past [2 ^ 53] the sums are rounded: six assignments at the progress
    [2 ^ 53 + 4] add up to [6 * 2 ^ 53 + 16], and the average shown is
    [2 ^ 53 + 2], below every one of them. *)
Example avgProgress_rounded_sums :
  let a := {| assign_id := js "a"; role := js "FE"; subLabel := None;
              startDate := ymd 2025 1 2; endDate := ymd 2025 1 3;
              progress := 2 ^ 53 + 4; color := js "bg-blue-500" |} in
  let t := {| task_id := js "t"; name := js "T";
              assignments := [a; a; a; a; a; a] |} in
  @avgProgress asciiUnicode
    {| board_tasks := [t]; isReadOnly := false; filterText := [];
       editingTask := None |}
  = 2 ^ 53 + 2.
Proof. vm_compute. reflexivity. Qed.

Import TaskModal.

(* ===================================================================== *)
(** * Properties of the task form *)
(* ===================================================================== *)

Lemma trimStart_idem s : trimStart (trimStart s) = trimStart s.
Proof.
  induction s as [|c s IH]; [reflexivity|]. cbn [trimStart].
  destruct (isWhiteSpace c) eqn:Hc; [exact IH|].
  cbn [trimStart]. rewrite Hc. reflexivity.
Qed.

Lemma trimStart_suffix s : exists p, s = p ++ trimStart s.
Proof.
  induction s as [|c s [p IH]]; [exists []; reflexivity|]. cbn [trimStart].
  destruct (isWhiteSpace c).
  - exists (c :: p). cbn [app]. f_equal. exact IH.
  - exists []. reflexivity.
Qed.

Lemma trimStart_head s c r : trimStart s = c :: r -> isWhiteSpace c = false.
Proof.
  induction s as [|d s IH]; [discriminate|]. cbn [trimStart].
  destruct (isWhiteSpace d) eqn:Hd; [exact IH|].
  intros [= -> _]. exact Hd.
Qed.

Lemma trimStart_id s :
  match s with c :: _ => isWhiteSpace c = false | [] => True end ->
  trimStart s = s.
Proof. destruct s as [|c s]; [reflexivity|]. cbn [trimStart]. intros ->. reflexivity. Qed.

(** A trimmed string neither begins nor ends with white space. *)
Lemma trim_ends s :
  match trim s with c :: _ => isWhiteSpace c = false | [] => True end
  /\ match rev (trim s) with c :: _ => isWhiteSpace c = false | [] => True end.
Proof.
  unfold trim. rewrite rev_involutive.
  set (u := trimStart s). set (v := trimStart (rev u)). split.
  - destruct (trimStart_suffix (rev u)) as [p Hp]. fold v in Hp.
    apply (f_equal (@rev Z)) in Hp. rewrite rev_involutive, rev_app_distr in Hp.
    destruct (rev v) as [|c r] eqn:Hv; [exact I|].
    cbn [app] in Hp. unfold u in Hp. eapply trimStart_head. exact Hp.
  - destruct v as [|c r] eqn:Hv; [exact I|].
    eapply trimStart_head. exact Hv.
Qed.

Lemma trim_idem s : trim (trim s) = trim s.
Proof.
  destruct (trim_ends s) as [Hhead Hlast].
  unfold trim at 1. rewrite (trimStart_id (trim s)) by exact Hhead.
  rewrite (trimStart_id (rev (trim s))) by exact Hlast.
  apply rev_involutive.
Qed.

Lemma trim_trimStart s : trim (trimStart s) = trim s.
Proof. unfold trim. rewrite trimStart_idem. reflexivity. Qed.

Lemma List_filter_sublist {A} (f : A -> bool) (l : list A) :
  sublist (List.filter f l) l.
Proof.
  induction l as [|x l IH]; [constructor|]. cbn [List.filter].
  destruct (f x); [apply sublist_skip | apply sublist_cons]; exact IH.
Qed.

Lemma filter_id_length (id : jsstring) (l : list TaskAssignment) :
  NoDup (map assign_id l) ->
  (length l <= S (length (List.filter
                            (fun a => negb (eqb (assign_id a) id)) l)))%nat
  /\ (~ In id (map assign_id l) ->
      List.filter (fun a => negb (eqb (assign_id a) id)) l = l).
Proof.
  induction l as [|a l IH]; [intros _; split; [simpl; lia | reflexivity]|].
  cbn [map]. intros Hnd. apply NoDup_cons in Hnd as [Hfresh Hnd].
  destruct (IH Hnd) as [IH1 IH2]. cbn [List.filter length].
  destruct (eqb (assign_id a) id) eqn:Ha; cbn [negb].
  - apply eqb_eq in Ha. subst id.
    rewrite IH2 by (intros Hin; apply Hfresh, list_elem_of_In, Hin).
    split; [lia|]. intros Hnot. exfalso. apply Hnot. left. reflexivity.
  - cbn [length]. split; [lia|]. intros Hnot. f_equal. apply IH2.
    intros Hin. apply Hnot. right. exact Hin.
Qed.

(** X20. Removing an assignment in the form never empties it when the ids
    are pairwise different: of a list that is not empty at least one
    assignment is left, at most one is removed, the others stay in their
    order, and when the list had more than one assignment and the form may
    be edited none with the removed id is left. *)
Theorem handleRemoveAssignment_keeps_one
    (readOnly : bool) (id : jsstring) (l : list TaskAssignment) :
  NoDup (map assign_id l) -> l <> [] ->
  let l' := handleRemoveAssignment readOnly id l in
  l' <> []
  /\ sublist l' l
  /\ (length l <= S (length l'))%nat
  /\ (forall a, In a l -> assign_id a <> id -> In a l')
  /\ (readOnly = false -> (1 < length l)%nat -> ~ In id (map assign_id l')).
Proof.
  intros Hnd Hne l'. unfold l', handleRemoveAssignment.
  destruct readOnly.
  { split; [exact Hne|]. split; [reflexivity|]. split; [lia|].
    split; [auto | discriminate]. }
  destruct (Nat.ltb_spec 1 (length l)) as [Hlen|Hlen].
  - destruct (filter_id_length id l Hnd) as [Hleft _].
    split; [intros Hnil; rewrite Hnil in Hleft; simpl in Hleft; lia|].
    split; [apply List_filter_sublist|]. split; [exact Hleft|].
    split.
    + intros a Ha Hid. apply filter_In. split; [exact Ha|].
      apply negb_true_iff, eqb_neq. exact Hid.
    + intros _ _ Hin. apply in_map_iff in Hin as (a & Hid & Ha).
      apply filter_In in Ha as [_ Ha].
      apply negb_true_iff, eqb_neq in Ha. contradiction.
  - split; [exact Hne|]. split; [reflexivity|]. split; [lia|].
    split; [auto | intros _ ?; lia].
Qed.

Lemma handleRemoveAssignment_keeps_one_witness :
  handleRemoveAssignment false (js "co-rd") (assignments checkoutTask) <> [].
Proof.
  destruct (handleRemoveAssignment_keeps_one false (js "co-rd")
              (assignments checkoutTask)) as [Hne _].
  - apply (bool_decide_unpack _). vm_compute. exact I.
  - discriminate.
  - exact Hne.
Defined.

(** Without that condition the form can be emptied. *)
Example handleRemoveAssignment_duplicate_ids :
  handleRemoveAssignment false (js "x")
    [assignment "x" "FE" 0 0; assignment "x" "BE" 0 0] = [].
Proof. reflexivity. Qed.

Lemma TAILWIND_COLORS_NoDup : List.NoDup TAILWIND_COLORS.
Proof.
  apply NoDup_ListNoDup. apply (bool_decide_unpack _). vm_compute. exact I.
Qed.

(** X21. A new assignment of the form is a bar of one day that starts where
    the last assignment ends (today when there is none), with no role, no
    progress and a colour of the palette; the assignments before it are
    kept.  The colour goes round the palette with the number of
    assignments: two counts give the same colour exactly when they differ
    by a multiple of twelve. *)
Theorem handleAddAssignment_appends_one_day
    (id : jsstring) (today : date) (l : list TaskAssignment) :
  (exists a,
     handleAddAssignment false id today l = l ++ [a]
     /\ assign_id a = id /\ role a = [] /\ progress a = 0
     /\ startDate a = endDate a
     /\ diffInDays (startDate a) (endDate a) = 1
     /\ startDate a = match last l with Some b => endDate b | None => today end
     /\ In (color a) TAILWIND_COLORS
     /\ color a = paletteColor (length l))
  /\ handleAddAssignment true id today l = l
  /\ forall n m, paletteColor n = paletteColor m <-> (n mod 12 = m mod 12)%nat.
Proof.
  split; [|split; [reflexivity|]].
  - eexists. split; [reflexivity|].
    cbn [assign_id role progress startDate endDate color].
    repeat split.
    + unfold diffInDays. rewrite Z.sub_diag. reflexivity.
    + unfold paletteColor. apply nth_In. apply Nat.mod_upper_bound.
      discriminate.
  - intros n m. unfold paletteColor.
    change (length TAILWIND_COLORS) with 12%nat. split.
    + intros Heq. apply (proj1 (NoDup_nth TAILWIND_COLORS []) TAILWIND_COLORS_NoDup);
        try (change (length TAILWIND_COLORS) with 12%nat;
             apply Nat.mod_upper_bound; discriminate).
      exact Heq.
    + intros ->. reflexivity.
Qed.

(** X22. What the form saves: every assignment keeps its id, dates,
    progress, colour and sub-label, and its role is the trimmed role of the
    form, or the placeholder when that is empty; no saved role is empty or
    begins or ends with white space.  The id of the feature being edited is
    kept unless it is empty; a read-only form saves nothing. *)
Theorem handleSubmit_roles_trimmed
    (initialData : option Task) (uuid name_ : jsstring)
    (l : list TaskAssignment) :
  handleSubmit true initialData uuid name_ l = None
  /\ exists t,
       handleSubmit false initialData uuid name_ l = Some t
       /\ name t = name_
       /\ (forall t0, initialData = Some t0 -> task_id t0 <> [] ->
             task_id t = task_id t0)
       /\ (initialData = None -> task_id t = uuid)
       /\ Forall2 (fun a a' =>
            sameBar a a' /\ color a' = color a /\ subLabel a' = subLabel a
            /\ role a' <> [] /\ trim (role a') = role a'
            /\ (trim (role a) <> [] -> role a' = trim (role a))
            /\ (trim (role a) = [] -> role a' = js "未指派"))
            l (assignments t).
Proof.
  split; [reflexivity|]. eexists. split; [reflexivity|].
  cbn [name task_id assignments]. split; [reflexivity|]. split; [|split].
  - intros t0 -> Hid. unfold orElse. destruct (task_id t0); [contradiction|].
    reflexivity.
  - intros ->. reflexivity.
  - apply Forall2_map_r. intros a.
    cbn [assign_id role subLabel startDate endDate progress color].
    split; [repeat split|]. split; [reflexivity|]. split; [reflexivity|].
    unfold orElse. destruct (trim (role a)) as [|c r] eqn:Htrim.
    + split; [discriminate|]. split; [vm_compute; reflexivity|].
      split; [congruence | reflexivity].
    + split; [discriminate|]. split; [rewrite <- Htrim; apply trim_idem|].
      split; [reflexivity | discriminate].
Qed.

Lemma untilClosingBracket_spec inner close after :
  (close = 93 \/ close = 12305) ->
  forallb (fun c => negb ((c =? 93) || (c =? 12305)) && negb (isLineTerminator c))
    inner = true ->
  untilClosingBracket (inner ++ close :: after) = Some (inner, after).
Proof.
  intros Hclose Hinner. induction inner as [|c inner IH].
  - cbn [app untilClosingBracket]. destruct Hclose as [->| ->]; reflexivity.
  - cbn [forallb] in Hinner. apply andb_true_iff in Hinner as [Hc Hinner].
    apply andb_true_iff in Hc as [Hc1 Hc2].
    apply negb_true_iff in Hc1, Hc2.
    cbn [app untilClosingBracket]. rewrite Hc1, Hc2, (IH Hinner). reflexivity.
Qed.

Lemma restOfLine_id s :
  forallb (fun c => negb (isLineTerminator c)) s = true -> restOfLine s = s.
Proof.
  induction s as [|c s IH]; [reflexivity|]. cbn [forallb restOfLine].
  intros H. apply andb_true_iff in H as [Hc Hs].
  apply negb_true_iff in Hc. rewrite Hc, (IH Hs). reflexivity.
Qed.

Lemma trimStart_keeps_line s :
  forallb (fun c => negb (isLineTerminator c)) s = true ->
  forallb (fun c => negb (isLineTerminator c)) (trimStart s) = true.
Proof.
  induction s as [|c s IH]; [reflexivity|]. cbn [forallb trimStart].
  intros H. apply andb_true_iff in H as [Hc Hs].
  destruct (isWhiteSpace c); [apply IH, Hs|].
  cbn [forallb]. rewrite Hc, Hs. reflexivity.
Qed.

Lemma startsWith_nil s : startsWith s [] = true.
Proof. destruct s; reflexivity. Qed.

Lemma splitFirst_none sep s : splitFirst sep s = None -> includes s sep = false.
Proof.
  induction s as [|c s IH]; cbn [splitFirst includes].
  - destruct (startsWith [] sep); [discriminate | reflexivity].
  - destruct (startsWith (c :: s) sep); [discriminate|].
    destruct (splitFirst sep s) as [[before after]|]; [discriminate|].
    intros _. cbn [orb]. apply IH. reflexivity.
Qed.

Lemma splitFirst_some sep s before after :
  splitFirst sep s = Some (before, after) ->
  s = before ++ sep ++ after /\ includes s sep = true.
Proof.
  revert before after. induction s as [|c s IH]; intros before after;
    cbn [splitFirst includes].
  - destruct (startsWith [] sep) eqn:Hstart; [|discriminate].
    intros [= <- <-]. destruct sep; [|discriminate]. auto.
  - destruct (startsWith (c :: s) sep) eqn:Hstart.
    + intros [= <- <-]. split; [|reflexivity]. cbn [app].
      clear IH. revert Hstart. generalize (c :: s). clear.
      induction sep as [|d sep IH]; intros s Hstart; [reflexivity|].
      destruct s as [|c s]; [discriminate|]. cbn [startsWith] in Hstart.
      apply andb_true_iff in Hstart as [Hd Hrest]. apply Z.eqb_eq in Hd.
      subst d. cbn [length drop app]. f_equal. apply IH. exact Hrest.
    + destruct (splitFirst sep s) as [[before' after']|] eqn:Hsplit;
        [|discriminate].
      intros [= <- <-]. destruct (IH _ _ eq_refl) as [-> Hinc].
      split; [reflexivity|]. rewrite Hinc. apply orb_true_r.
Qed.

(** X23. The split of a role typed into the form.  Nothing is split when
    there is a sub-label already, or when the role neither begins with an
    opening bracket that is closed on its line nor includes a dash between
    spaces.  A role written as a bracketed name followed by a text of one
    line becomes the name and the text, both trimmed; a role with a dash
    between spaces and no such bracket becomes the text before the first
    such dash and the text after it, both trimmed.  A role that results
    from a split neither begins nor ends with white space. *)
Theorem processAssignmentRole_splits (roleStr currentSubLabel : jsstring) :
  (currentSubLabel <> [] ->
   processAssignmentRole roleStr currentSubLabel = (roleStr, currentSubLabel))
  /\ (bracketMatch roleStr = None -> includes roleStr (js " - ") = false ->
      processAssignmentRole roleStr currentSubLabel
      = (roleStr, currentSubLabel))
  /\ (forall inner close rest,
        roleStr = 91 :: inner ++ close :: rest ->
        close = 93 \/ close = 12305 ->
        forallb (fun c => negb ((c =? 93) || (c =? 12305))
                          && negb (isLineTerminator c)) inner = true ->
        forallb (fun c => negb (isLineTerminator c)) rest = true ->
        processAssignmentRole roleStr [] = (trim inner, trim rest))
  /\ (bracketMatch roleStr = None -> includes roleStr (js " - ") = true ->
      exists before after,
        roleStr = before ++ js " - " ++ after
        /\ includes before (js " - ") = false
        /\ processAssignmentRole roleStr [] = (trim before, trim after))
  /\ (processAssignmentRole roleStr currentSubLabel
      <> (roleStr, currentSubLabel) ->
      trim (fst (processAssignmentRole roleStr currentSubLabel))
      = fst (processAssignmentRole roleStr currentSubLabel)
      /\ trim (snd (processAssignmentRole roleStr currentSubLabel))
         = snd (processAssignmentRole roleStr currentSubLabel)).
Proof.
  split; [|split; [|split; [|split]]].
  - intros Hsub. unfold processAssignmentRole.
    destruct currentSubLabel; [contradiction | reflexivity].
  - intros Hbracket Hdash. unfold processAssignmentRole.
    destruct currentSubLabel; [|reflexivity]. rewrite Hbracket.
    destruct (splitFirst (js " - ") roleStr) as [[before after]|] eqn:Hsplit;
      [|reflexivity].
    apply splitFirst_some in Hsplit as [_ Hinc]. congruence.
  - intros inner close rest -> Hclose Hinner Hrest.
    unfold processAssignmentRole, bracketMatch.
    change (91 =? 91) with true. cbv iota.
    rewrite (untilClosingBracket_spec inner close rest Hclose Hinner).
    cbn [mbind option_bind].
    rewrite restOfLine_id by (apply trimStart_keeps_line; exact Hrest).
    rewrite trim_trimStart. reflexivity.
  - intros Hbracket Hdash. unfold processAssignmentRole. rewrite Hbracket.
    destruct (splitFirst (js " - ") roleStr) as [[before after]|] eqn:Hsplit.
    + exists before, after. pose proof Hsplit as Hsplit'.
      apply splitFirst_some in Hsplit as [Heq _].
      split; [exact Heq|]. split; [|reflexivity].
      clear Hbracket Hdash Heq. revert before after Hsplit'.
      induction roleStr as [|c s IH]; intros before after;
        cbn [splitFirst].
      * destruct (startsWith [] (js " - ")); [|discriminate].
        intros [= <- <-]. reflexivity.
      * destruct (startsWith (c :: s) (js " - ")) eqn:Hstart.
        -- intros [= <- <-]. reflexivity.
        -- destruct (splitFirst (js " - ") s) as [[before' after']|] eqn:Hs;
             [|discriminate].
           intros [= <- <-]. cbn [includes].
           rewrite (IH before' after' eq_refl), orb_false_r.
           (* the separator does not begin at the first character *)
           destruct (startsWith (c :: before') (js " - ")) eqn:Hb;
             [|reflexivity].
           apply splitFirst_some in Hs as [-> _]. exfalso.
           change (js " - ") with [32; 45; 32] in Hstart, Hb.
           destruct before' as [|b1 [|b2 before']].
           ++ cbn [startsWith] in Hb. destruct (32 =? c); discriminate.
           ++ cbn [startsWith] in Hb.
              destruct (32 =? c), (45 =? b1); discriminate.
           ++ cbn [startsWith app] in Hb, Hstart.
              rewrite startsWith_nil in Hb, Hstart. congruence.
    + apply splitFirst_none in Hsplit. congruence.
  - intros Hchanged. unfold processAssignmentRole in *.
    destruct currentSubLabel; [|contradiction Hchanged; reflexivity].
    destruct (bracketMatch roleStr) as [[inner rest]|].
    + cbn [fst snd]. split; apply trim_idem.
    + destruct (splitFirst (js " - ") roleStr) as [[before after]|].
      * cbn [fst snd]. split; apply trim_idem.
      * contradiction Hchanged. reflexivity.
Qed.

Lemma processAssignmentRole_splits_witness :
  processAssignmentRole (js "[FE】 登入頁 ") [] = (js "FE", js "登入頁")
  /\ processAssignmentRole (js "BE - API - v2") [] = (js "BE", js "API - v2").
Proof.
  split.
  - apply (processAssignmentRole_splits (js "[FE】 登入頁 ") [])
      with (inner := js "FE") (close := 12305) (rest := js " 登入頁 ");
      try reflexivity. right. reflexivity.
  - destruct (processAssignmentRole_splits (js "BE - API - v2") [])
      as (_ & _ & _ & Hdash & _).
    destruct Hdash as (before & after & _ & _ & Hresult);
      [reflexivity | reflexivity |].
    reflexivity.
Defined.

Section RoleUpdate.
Context {U : Unicode}.

Lemma getColorForRole_some (r : jsstring) :
  exists c, getColorForRole r = Some c /\ In c TAILWIND_COLORS.
Proof.
  unfold getColorForRole.
  repeat match goal with
         | |- context [if ?b then Some _ else _] =>
             destruct b;
             [eexists; split; [reflexivity|];
              vm_compute; repeat (first [left; reflexivity | right])|]
         end.
  apply colorAt_in_palette. apply Z.mod_pos_bound. reflexivity.
Qed.

(** X24. Typing a role into the form changes the assignments with the
    edited id only, and of those neither the id, the dates nor the
    progress: the role and the sub-label become those of the split of the
    typed text (the sub-label the form had counts as empty when absent),
    and the colour is reset to the colour of the new role, a colour of the
    palette.  A read-only form changes nothing. *)
Theorem updateRole_resets_color
    (target value : jsstring) (l : list TaskAssignment) :
  updateRole true target value l = l
  /\ Forall2 (fun a a' =>
       sameBar a a'
       /\ (assign_id a <> target -> a' = a)
       /\ (assign_id a = target ->
           (role a', default [] (subLabel a'))
           = processAssignmentRole value (default [] (subLabel a))
           /\ getColorForRole (role a') = Some (color a')
           /\ In (color a') TAILWIND_COLORS))
       l (updateRole false target value l).
Proof.
  split; [reflexivity|]. unfold updateRole. apply Forall2_map_r. intros a.
  destruct (eqb (assign_id a) target) eqn:Hid.
  - apply eqb_eq in Hid.
    destruct (processAssignmentRole value (default [] (subLabel a)))
      as [r sub] eqn:Hsplit.
    cbn [assign_id role subLabel startDate endDate progress color].
    split; [repeat split|]. split; [intros Hne; contradiction|]. intros _.
    destruct (getColorForRole_some r) as (c & Hc & Hin). rewrite Hc.
    cbn [default from_option id]. split; [|split; [reflexivity | exact Hin]].
    f_equal. destruct (eqb sub (default [] (subLabel a))) eqn:Hsub; cbn [negb].
    + apply eqb_eq in Hsub. symmetry. exact Hsub.
    + reflexivity.
  - apply eqb_neq in Hid. split; [repeat split|].
    split; [reflexivity | intros Heq; contradiction].
Qed.

End RoleUpdate.

Example updateRole_scenario :
  map (fun a => (role a, subLabel a, color a))
    (@updateRole asciiUnicode false (js "co-pm") (js "[QA] regression")
       (assignments checkoutTask))
  = [ (js "QA", Some (js "regression"), js "bg-orange-500");
      (js "rd", None, js "bg-blue-500");
      (js "ALL", None, js "bg-blue-500") ].
Proof. vm_compute. reflexivity. Qed.
